(** * Cadre quote extractor: a shallow embedding of [streamlit_app.py]

    The extraction pipeline of the application is a fixed set of regular
    expressions applied to the text of a PDF.  This file embeds

    - the string operations the code uses ([strip], [split], [join],
      [find], [index], [in], slicing, [replace]),
    - a backtracking matcher with the priority order of Python's [re]
      (greedy and lazy repetition, groups, [^] under [(?m)]), together
      with [re.search] and [re.finditer],
    - [extract_full_text], [extract_header_info], [extract_line_items],
      [build_rows_for_pdf] and the batch loop of the application,

    and proves the properties the specification states about them.

    Characters are code points below 256 ([ascii]); on that range the
    classes [\s] and [\d] and the methods [str.strip]/[str.split] are
    modelled exactly. *)

From Stdlib Require Import Ascii String ZArith Lia List Bool.
From Corelib Require Import SpecFloat.
From stdpp Require Import base gmap strings list.

Abbreviation text := (list ascii).

(** A string literal as a text. *)
Definition str (s : string) : text := list_ascii_of_string s.

(* ===================================================================== *)
(** * Python string operations *)
(* ===================================================================== *)

Module Py.

(** [Py_UNICODE_ISSPACE] on code points below 256: it decides [\s] in a
    [str] pattern and is what [str.strip()] and [str.split()] use. *)
Definition is_space (c : ascii) : bool :=
  let n := nat_of_ascii c in
  ((9 <=? n) && (n <=? 13)) || ((28 <=? n) && (n <=? 32))
  || (n =? 133) || (n =? 160).

(** [\d]: the decimal digits below 256 are the ASCII ones. *)
Definition is_digit (c : ascii) : bool :=
  let n := nat_of_ascii c in (48 <=? n) && (n <=? 57).

Definition is_upper (c : ascii) : bool :=
  let n := nat_of_ascii c in (65 <=? n) && (n <=? 90).

Definition is_lower (c : ascii) : bool :=
  let n := nat_of_ascii c in (97 <=? n) && (n <=? 122).

Definition is_char (a c : ascii) : bool := Ascii.eqb a c.

(** [s[a:b]] for non-negative [a] and [b]; Python clips both to the
    length and returns the empty string when [b <= a]. *)
Definition slice (s : text) (a b : nat) : text := take (b - a) (drop a s).

(** [s.startswith(p)] *)
Fixpoint starts_with (p s : text) : bool :=
  match p, s with
  | [], _ => true
  | a :: p', b :: s' => Ascii.eqb a b && starts_with p' s'
  | _ :: _, [] => false
  end.

Fixpoint find_aux (sub s : text) (i : nat) : option nat :=
  if starts_with sub s then Some i
  else match s with
       | [] => None
       | _ :: s' => find_aux sub s' (S i)
       end.

(** [s.find(sub, start)]: the lowest index [i >= start] at which [sub]
    occurs; [None] stands for the result [-1]. *)
Definition find (s sub : text) (start : nat) : option nat :=
  if length s <? start then None else find_aux sub (drop start s) start.

(** [sub in s] *)
Definition contains (sub s : text) : bool :=
  match find s sub 0 with Some _ => true | None => false end.

(** [s.index(sub)]: as [find], but raises [ValueError] when absent
    ([None] here); the code guards both calls with [in]. *)
Definition index (s sub : text) : option nat := find s sub 0.

(** [s.strip()] *)
Fixpoint lstrip (s : text) : text :=
  match s with
  | c :: s' => if is_space c then lstrip s' else s
  | [] => []
  end.

Definition rstrip (s : text) : text := rev (lstrip (rev s)).

Definition strip (s : text) : text := rstrip (lstrip s).

(** [s.split()]: the maximal runs of non-space characters, in order.
    [w] is the word being read, reversed. *)
Fixpoint split_aux (w : text) (s : text) : list text :=
  match s with
  | [] => match w with [] => [] | _ => [rev w] end
  | c :: s' =>
      if is_space c
      then match w with
           | [] => split_aux [] s'
           | _ => rev w :: split_aux [] s'
           end
      else split_aux (c :: w) s'
  end.

Definition split (s : text) : list text := split_aux [] s.

(** [sep.join(parts)] *)
Fixpoint join (sep : text) (parts : list text) : text :=
  match parts with
  | [] => []
  | [p] => p
  | p :: ps => p ++ sep ++ join sep ps
  end.

(** [s.replace(c, "")] for a one-character [c]: every occurrence of the
    character is deleted. *)
Definition remove_char (c : ascii) (s : text) : text :=
  filter (fun a => negb (Ascii.eqb a c)) s.

(** [x or None] on an optional string: the empty string and [None] are
    both falsy. *)
Definition or_none (x : option text) : option text :=
  match x with
  | Some [] => None
  | Some s => Some s
  | None => None
  end.

End Py.

(* ===================================================================== *)
(** * Regular expressions with the matching order of [re] *)
(* ===================================================================== *)

Module Re.

(** The constructs the patterns of the application use.  Every
    quantifier but one applies to a single character class, so
    repetition is over classes; the exception, [(?:-\d{4})?], is an
    optional group. *)
Inductive regex : Type :=
| Lit (s : text)                       (* a literal string *)
| Bol                                  (* [^] under [(?m)] *)
| Rep (greedy : bool) (lo : nat) (hi : option nat) (c : ascii -> bool)
                                       (* [c{lo,hi}], [c{lo,hi}?] *)
| Seq (r1 r2 : regex)
| Grp (n : nat) (r : regex)            (* capturing group number [n] *)
| Opt (r : regex).                     (* greedy [(?:r)?] *)

Declare Scope regex_scope.
Delimit Scope regex_scope with re.
Bind Scope regex_scope with regex.
Infix "+++" := Seq (at level 60, right associativity) : regex_scope.

Definition plus (c : ascii -> bool) : regex := Rep true 1 None c.
Definition star (c : ascii -> bool) : regex := Rep true 0 None c.
Definition plus_lazy (c : ascii -> bool) : regex := Rep false 1 None c.
Definition exactly (n : nat) (c : ascii -> bool) : regex :=
  Rep true n (Some n) c.
Definition between (lo hi : nat) (c : ascii -> bool) : regex :=
  Rep true lo (Some hi) c.

(** Group spans found so far, the latest binding of a group first. *)
Definition caps := list (nat * (nat * nat)).

Fixpoint cap_lookup (cs : caps) (n : nat) : option (nat * nat) :=
  match cs with
  | [] => None
  | (k, sp) :: cs' => if k =? n then Some sp else cap_lookup cs' n
  end.

(** A match object: [m.start()], [m.end()] and the group spans. *)
Record rmatch : Type := MkMatch {
  m_start : nat;
  m_end : nat;
  m_caps : caps
}.

(** The number of characters from the front of [s] that are in class
    [c]: how far a repetition of [c] can run. *)
Fixpoint run_length (c : ascii -> bool) (s : text) : nat :=
  match s with
  | a :: s' => if c a then S (run_length c s') else 0
  | [] => 0
  end.

Definition cap_hi (hi : option nat) (n : nat) : nat :=
  match hi with Some h => Nat.min h n | None => n end.

Section Engine.
Context {R : Type}.

(** Greedy repetition: try [n], [n-1], ..., [lo] characters. *)
Fixpoint try_down (f : nat -> option R) (lo n : nat) : option R :=
  if n <? lo then None
  else match f n with
       | Some x => Some x
       | None => match n with
                 | 0 => None
                 | S n' => try_down f lo n'
                 end
       end.

(** Lazy repetition: try [k], [k+1], ... for [d] attempts. *)
Fixpoint try_up (f : nat -> option R) (k d : nat) : option R :=
  match d with
  | 0 => None
  | S d' => match f k with
            | Some x => Some x
            | None => try_up f (S k) d'
            end
  end.

Variable t : text.

(** [^] under [(?m)]: at the start of the text or just after a
    newline. *)
Definition at_bol (i : nat) : bool :=
  match i with
  | 0 => true
  | S j => match t !! j with
           | Some c => Ascii.eqb c "010"%char
           | None => false
           end
  end.

(** Match [r] at position [i] and continue with [k]; [None] is
    failure, upon which the caller backtracks. *)
Fixpoint run (r : regex) (i : nat) (cs : caps)
    (k : nat -> caps -> option R) : option R :=
  match r with
  | Lit s =>
      if Py.starts_with s (drop i t) then k (i + length s) cs else None
  | Bol => if at_bol i then k i cs else None
  | Rep greedy lo hi c =>
      let n := cap_hi hi (run_length c (drop i t)) in
      if greedy then try_down (fun j => k (i + j) cs) lo n
      else try_up (fun j => k (i + j) cs) lo (S n - lo)
  | Seq r1 r2 => run r1 i cs (fun j cs' => run r2 j cs' k)
  | Grp n r1 => run r1 i cs (fun j cs' => k j ((n, (i, j)) :: cs'))
  | Opt r1 =>
      match run r1 i cs k with
      | Some x => Some x
      | None => k i cs
      end
  end.
End Engine.

(** The final continuation.  [must_advance] is the flag [finditer]
    sets after an empty match: a match that ends where the scan began
    is then refused. *)
Definition accept (must_advance : bool) (i : nat) (j : nat) (cs : caps)
    : option rmatch :=
  if must_advance && (j =? i) then None else Some (MkMatch i j cs).

Definition match_at (r : regex) (t : text) (must_advance : bool) (i : nat)
    : option rmatch :=
  run t r i [] (accept must_advance i).

(** Try the start positions [i], [i+1], ..., [i+fuel]; the flag only
    applies to the first. *)
Fixpoint search_loop (r : regex) (t : text) (must_advance : bool)
    (i fuel : nat) : option rmatch :=
  match match_at r t must_advance i with
  | Some m => Some m
  | None => match fuel with
            | 0 => None
            | S fuel' => search_loop r t false (S i) fuel'
            end
  end.

(** The scan from position [pos]: every start position up to and
    including the end of the text. *)
Definition search_from (r : regex) (t : text) (must_advance : bool)
    (pos : nat) : option rmatch :=
  if length t <? pos then None
  else search_loop r t must_advance pos (length t - pos).

(** [re.search(r, t)] *)
Definition search (r : regex) (t : text) : option rmatch :=
  search_from r t false 0.

Fixpoint finditer_loop (r : regex) (t : text) (must_advance : bool)
    (pos fuel : nat) : list rmatch :=
  match fuel with
  | 0 => []
  | S fuel' =>
      match search_from r t must_advance pos with
      | None => []
      | Some m =>
          m :: finditer_loop r t (m_end m =? m_start m) (m_end m) fuel'
      end
  end.

(** [list(r.finditer(t))]: the scan resumes where the last match
    ended.  Each round either moves the position or sets the flag, so
    [2 * len + 2] rounds always suffice. *)
Definition finditer (r : regex) (t : text) : list rmatch :=
  finditer_loop r t false 0 (2 * length t + 2).

(** ** What a pattern can match

    [matches t r i cs j cs'] says that [r] can match [t] from position
    [i] to position [j], taking the group spans from [cs] to [cs'].  It
    lists every way to match and knows nothing of the order in which
    [run] tries them. *)

Definition within (hi : option nat) (d : nat) : Prop :=
  match hi with Some h => d <= h | None => True end.

Fixpoint matches (t : text) (r : regex) (i : nat) (cs : caps)
    (j : nat) (cs' : caps) : Prop :=
  match r with
  | Lit s => Py.starts_with s (drop i t) = true /\ j = i + length s /\ cs' = cs
  | Bol => at_bol t i = true /\ j = i /\ cs' = cs
  | Rep _ lo hi c =>
      (exists d, j = i + d /\ lo <= d /\ within hi d
                 /\ d <= run_length c (drop i t))
      /\ cs' = cs
  | Seq r1 r2 =>
      exists m cm, matches t r1 i cs m cm /\ matches t r2 m cm j cs'
  | Grp n r1 => exists c1, matches t r1 i cs j c1 /\ cs' = (n, (i, j)) :: c1
  | Opt r1 => (j = i /\ cs' = cs) \/ matches t r1 i cs j cs'
  end.

(** The least number of characters a match of [r] takes. *)
Fixpoint min_len (r : regex) : nat :=
  match r with
  | Lit s => length s
  | Bol => 0
  | Rep _ lo _ _ => lo
  | Seq r1 r2 => min_len r1 + min_len r2
  | Grp _ r1 => min_len r1
  | Opt _ => 0
  end.

(** Group [n] lies on every way through [r]: it is under no optional
    part. *)
Fixpoint binds (r : regex) (n : nat) : bool :=
  match r with
  | Seq r1 r2 => binds r1 n || binds r2 n
  | Grp k r1 => (k =? n) || binds r1 n
  | _ => false
  end.

(** ** What a pattern can match, on strings *)

(** Every character of [w] is in class [c]. *)
Definition all_in (c : ascii -> bool) (w : text) : Prop :=
  Forall (fun a => c a = true) w.

(** The text [pre] ends where a line starts. *)
Definition line_start (pre : text) : Prop :=
  pre = [] \/ exists p, pre = p ++ ["010"%char].

(** [denotes r pre w gs gs'] says that [r] can match the string [w]
    when [pre] is the text before it, taking the texts of the groups
    from [gs] to [gs']. *)
Fixpoint denotes (r : regex) (pre w : text) (gs gs' : list (nat * text))
    : Prop :=
  match r with
  | Lit s => w = s /\ gs' = gs
  | Bol => w = [] /\ line_start pre /\ gs' = gs
  | Rep _ lo hi c =>
      lo <= length w /\ within hi (length w) /\ all_in c w /\ gs' = gs
  | Seq r1 r2 =>
      exists w1 w2 gm, w = w1 ++ w2 /\ denotes r1 pre w1 gs gm
                       /\ denotes r2 (pre ++ w1) w2 gm gs'
  | Grp n r1 => exists g1, denotes r1 pre w gs g1 /\ gs' = (n, w) :: g1
  | Opt r1 => (w = [] /\ gs' = gs) \/ denotes r1 pre w gs gs'
  end.

(** The texts of the group spans. *)
Definition cap_texts (t : text) (cs : caps) : list (nat * text) :=
  map (fun c => (c.1, Py.slice t c.2.1 c.2.2)) cs.

Fixpoint text_lookup (gs : list (nat * text)) (n : nat) : option text :=
  match gs with
  | [] => None
  | (k, w) :: gs' => if k =? n then Some w else text_lookup gs' n
  end.

(** [m.group(n)]: the text of group [n], [None] when the group took no
    part in the match. *)
Definition group (t : text) (m : rmatch) (n : nat) : option text :=
  match cap_lookup (m_caps m) n with
  | Some (a, b) => Some (Py.slice t a b)
  | None => None
  end.

End Re.

(* ===================================================================== *)
(** * Conversion of a decimal string to a float *)
(* ===================================================================== *)

Module PyFloat.

Import Py.

(** Python floats are IEEE binary64 numbers. *)
Definition prec : Z := 53.
Definition emax : Z := 1024.

(** The float nearest to [p / q], ties to even, for positive [p], [q]. *)
Definition round_ratio (neg : bool) (p q : Z) : spec_float :=
  let '(mz, ez, lz) := SFdiv_core_binary prec emax p 0 q 0 in
  binary_round_aux prec emax neg mz ez lz.

(** The float nearest to [m * 10^e]. *)
Definition of_decimal (neg : bool) (m : Z) (e : Z) : spec_float :=
  if (m =? 0)%Z then S754_zero neg
  else if (0 <=? e)%Z then round_ratio neg (m * 10 ^ e) 1
  else round_ratio neg m (10 ^ (- e)).

(** The float that is the integer [z]; exact when [|z| < 2^53]. *)
Definition of_Z (z : Z) : spec_float := binary_normalize prec emax z 0 false.

Definition digit_val (c : ascii) : Z := Z.of_nat (nat_of_ascii c - 48).

(** A [digitpart]: digits, single underscores allowed between two
    digits.  [acc] is the value read before it, [n] counts the digits of
    this part.  Returns the value, the number of digits and the rest. *)
Fixpoint digits_from (acc : Z) (n : nat) (s : text) : Z * nat * text :=
  match s with
  | c :: s' =>
      if is_digit c then digits_from (acc * 10 + digit_val c) (S n) s'
      else if Ascii.eqb c "_" then
        match n, s' with
        | S _, d :: _ => if is_digit d then digits_from acc n s' else (acc, n, s)
        | _, _ => (acc, n, s)
        end
      else (acc, n, s)
  | [] => (acc, n, s)
  end.

Definition lower (c : ascii) : ascii :=
  if is_upper c then ascii_of_nat (nat_of_ascii c + 32) else c.

Definition text_eqb (a b : text) : bool :=
  starts_with a b && (length a =? length b).

Definition sign_of (s : text) : bool * text :=
  match s with
  | c :: s' =>
      if Ascii.eqb c "-" then (true, s')
      else if Ascii.eqb c "+" then (false, s')
      else (false, s)
  | [] => (false, s)
  end.

(** The exponent part [("e" | "E") [sign] digitpart], or none. *)
Definition exponent_of (s : text) : option Z :=
  match s with
  | [] => Some 0%Z
  | c :: s' =>
      if Ascii.eqb (lower c) "e" then
        let '(neg, s1) := sign_of s' in
        match digits_from 0 0 s1 with
        | (v, S _, []) => Some (if neg then (- v)%Z else v)
        | _ => None
        end
      else None
  end.

(** The white space [float] drops at both ends: [Py_ISSPACE] after
    the non-ASCII spaces were turned into blanks. *)
Definition is_float_space (c : ascii) : bool :=
  let n := nat_of_ascii c in
  ((9 <=? n) && (n <=? 13)) || (n =? 32) || (n =? 133) || (n =? 160).

Fixpoint lstrip_float (s : text) : text :=
  match s with
  | c :: s' => if is_float_space c then lstrip_float s' else s
  | [] => []
  end.

(** [float(s)] on a string: surrounding white space is dropped, then
    [[sign] (floatnumber | "inf" | "infinity" | "nan")] is read; [None]
    stands for [ValueError]. *)
Definition float (s : text) : option spec_float :=
  let '(neg, s1) := sign_of (rev (lstrip_float (rev (lstrip_float s)))) in
  let w := map lower s1 in
  if text_eqb w (str "inf") || text_eqb w (str "infinity")
  then Some (S754_infinity neg)
  else if text_eqb w (str "nan") then Some S754_nan
  else
    let '(ip, ni, s2) := digits_from 0 0 s1 in
    let '(m, nf, s3) :=
      match s2 with
      | c :: s2' =>
          if Ascii.eqb c "." then
            digits_from ip 0 s2'
          else (ip, 0, s2)
      | [] => (ip, 0, s2)
      end in
    if (ni + nf =? 0) then None
    else match exponent_of s3 with
         | Some e => Some (of_decimal neg m (e - Z.of_nat nf))
         | None => None
         end.

(** The integer a float is, when it is one. *)
Definition to_Z (f : spec_float) : option Z :=
  match f with
  | S754_zero _ => Some 0%Z
  | S754_finite neg m e =>
      let v := cond_Zopp neg (Zpos m) in
      if (0 <=? e)%Z then Some (v * 2 ^ e)%Z
      else if (Zpos m mod 2 ^ (- e) =? 0)%Z then Some (v / 2 ^ (- e))%Z
      else None
  | _ => None
  end.

End PyFloat.

(* ===================================================================== *)
(** * The application *)
(* ===================================================================== *)

Module App.

Import Py Re.
Local Open Scope regex_scope.

(** ** Character classes of the patterns *)

Definition cls_ws : ascii -> bool := is_space.                (* \s *)
Definition cls_digit : ascii -> bool := is_digit.             (* \d *)
Definition cls_dot (c : ascii) : bool :=                      (* . *)
  negb (Ascii.eqb c "010"%char).
Definition cls_item_id (c : ascii) : bool :=                  (* [A-Z0-9.\-] *)
  is_upper c || is_digit c || is_char "." c || is_char "-" c.
Definition cls_amount (c : ascii) : bool :=                   (* [\d,] *)
  is_digit c || is_char "," c.
Definition cls_name (c : ascii) : bool :=                     (* [A-Za-z .'-] *)
  is_upper c || is_lower c || is_char " " c || is_char "." c
  || is_char "'" c || is_char "-" c.
Definition cls_street1 (c : ascii) : bool :=                  (* [A-Za-z0-9 .] *)
  is_upper c || is_lower c || is_digit c || is_char " " c || is_char "." c.
Definition cls_street2 (c : ascii) : bool :=                  (* [A-Za-z0-9 ] *)
  is_upper c || is_lower c || is_digit c || is_char " " c.
Definition cls_city (c : ascii) : bool :=                     (* [A-Za-z .] *)
  is_upper c || is_lower c || is_char " " c || is_char "." c.
Definition cls_upper : ascii -> bool := is_upper.             (* [A-Z] *)

(** ** The patterns *)

(** [\d{1,2}/\d{1,2}/\d{4}] *)
Definition date_re : regex :=
  between 1 2 cls_digit +++ Lit (str "/") +++ between 1 2 cls_digit
  +++ Lit (str "/") +++ exactly 4 cls_digit.

(** [Quote\s+(\d+)\s+Date\s+(\d{1,2}/\d{1,2}/\d{4})] *)
Definition quote_re : regex :=
  Lit (str "Quote") +++ plus cls_ws +++ Grp 1 (plus cls_digit)
  +++ plus cls_ws +++ Lit (str "Date") +++ plus cls_ws +++ Grp 2 date_re.

(** [Customer\s+(\d+)] *)
Definition customer_re : regex :=
  Lit (str "Customer") +++ plus cls_ws +++ Grp 1 (plus cls_digit).

(** [Contact\s+([A-Za-z .'-]+)] *)
Definition contact_re : regex :=
  Lit (str "Contact") +++ plus cls_ws +++ Grp 1 (plus cls_name).

(** [Quoted For:\s*(.+?)\s+Ship To:] *)
Definition company_re : regex :=
  Lit (str "Quoted For:") +++ star cls_ws +++ Grp 1 (plus_lazy cls_dot)
  +++ plus cls_ws +++ Lit (str "Ship To:").

(** [(\d{3,6}\s+[A-Za-z0-9 .]+?)\s+\d{3,6}\s+[A-Za-z0-9 ]+] *)
Definition addr_re : regex :=
  Grp 1 (between 3 6 cls_digit +++ plus cls_ws +++ plus_lazy cls_street1)
  +++ plus cls_ws +++ between 3 6 cls_digit +++ plus cls_ws
  +++ plus cls_street2.

(** [([A-Za-z .]+),\s*([A-Z]{2})\s+(\d{5})(?:-\d{4})?] *)
Definition city_re : regex :=
  Grp 1 (plus cls_city) +++ Lit (str ",") +++ star cls_ws
  +++ Grp 2 (exactly 2 cls_upper) +++ plus cls_ws
  +++ Grp 3 (exactly 5 cls_digit)
  +++ Opt (Lit (str "-") +++ exactly 4 cls_digit).

(** [Quote Good Through\s+(\d{1,2}/\d{1,2}/\d{4})] *)
Definition valid_re : regex :=
  Lit (str "Quote Good Through") +++ plus cls_ws +++ Grp 1 date_re.

(** [(?m)^(\d+)\s+([A-Z0-9.\-]+)\s+(\d+)\s+EAC\s+([\d,]+\.\d+)\s*EAC\s+([\d,]+\.\d{2})] *)
Definition item_re : regex :=
  Bol +++ Grp 1 (plus cls_digit) +++ plus cls_ws
  +++ Grp 2 (plus cls_item_id) +++ plus cls_ws
  +++ Grp 3 (plus cls_digit) +++ plus cls_ws
  +++ Lit (str "EAC") +++ plus cls_ws
  +++ Grp 4 (plus cls_amount +++ Lit (str ".") +++ plus cls_digit)
  +++ star cls_ws +++ Lit (str "EAC") +++ plus cls_ws
  +++ Grp 5 (plus cls_amount +++ Lit (str ".") +++ exactly 2 cls_digit).

(** [m.group(n)] as a string.  No group of the patterns above lies
    under an optional part, so a group always took part in a match. *)
Definition group_str (t : text) (m : rmatch) (n : nat) : text :=
  default [] (group t m n).

(** ** Header fields *)

(** The dictionary [header: Dict[str, Optional[str]]]. *)
Abbreviation header := (gmap string (option text)).

(** [header.get(key)]: [None] for a missing key and for a key that
    holds [None]. *)
Definition hget (h : header) (key : string) : option text :=
  default None (h !! key).

Definition quoted_for : text := str "Quoted For:".
Definition quote_good_through : text := str "Quote Good Through".
Definition usa_long : text := str "United States of America".

(** [full_text[start:end]] between the first occurrences of the two
    markers; the caller checks that both occur. *)
Definition addr_block (full_text : text) : text :=
  let start := default 0 (index full_text quoted_for) in
  let end_ := default 0 (index full_text quote_good_through) in
  slice full_text start end_.

(** The values of [first_name] and [last_name] after the [if
    m_contact:] block; both start as [None]. *)
Definition contact_names (full_text : text) (m_contact : option rmatch)
    : option text * option text :=
  match m_contact with
  | Some m =>
      let name := strip (group_str full_text m 1) in
      let parts := split name in
      match parts with
      | p0 :: _ :: _ => (Some p0, Some (join (str " ") (tail parts)))
      | [p0] => (Some p0, None)
      | [] => (None, None)
      end
  | None => (None, None)
  end.

Definition extract_header_info (full_text : text) : header :=
  let header : header := ∅ in
  let m_quote := search quote_re full_text in
  let header :=
    match m_quote with
    | Some m =>
        <["QuoteDate" := Some (group_str full_text m 2)]>
          (<["QuoteNumber" := Some (group_str full_text m 1)]> header)
    | None => header
    end in
  let m_cust := search customer_re full_text in
  let header :=
    match m_cust with
    | Some m => <["CustomerNumber" := Some (group_str full_text m 1)]> header
    | None => header
    end in
  let m_contact := search contact_re full_text in
  let names := contact_names full_text m_contact in
  let header := <["FirstName" := names.1]> header in
  let header := <["LastName" := names.2]> header in
  let header :=
    if contains quoted_for full_text && contains quote_good_through full_text
    then
      let addr_block := addr_block full_text in
      let m_company := search company_re addr_block in
      let header :=
        match m_company with
        | Some m => <["Company" := Some (strip (group_str addr_block m 1))]> header
        | None => header
        end in
      let m_addr := search addr_re addr_block in
      let header :=
        match m_addr with
        | Some m => <["Address" := Some (strip (group_str addr_block m 1))]> header
        | None => header
        end in
      let m_city := search city_re addr_block in
      let header :=
        match m_city with
        | Some m =>
            <["ZipCode" := Some (group_str addr_block m 3)]>
              (<["State" := Some (group_str addr_block m 2)]>
                 (<["City" := Some (strip (group_str addr_block m 1))]> header))
        | None => header
        end in
      if contains usa_long addr_block
      then <["Country" := Some (str "USA")]> header
      else header
    else header in
  let m_valid := search valid_re full_text in
  match m_valid with
  | Some m => <["QuoteValidDate" := Some (group_str full_text m 1)]> header
  | None => header
  end.

(** ** Line items *)

Record item : Type := MkItem {
  line_no : text;
  item_id : text;
  qty : text;
  unit_price : text;
  total : text;
  description : text
}.

Definition stop_word : text := str "Product".

(** Where the description of the match at index [i] ends. *)
Definition end_desc (full_text : text) (matches : list rmatch)
    (i : nat) (start_desc : nat) : nat :=
  match matches !! (i + 1) with
  | Some m' => m_start m'
  | None =>
      match find full_text stop_word start_desc with
      | Some e => e
      | None => length full_text
      end
  end.

(** The body of the loop over [enumerate(matches)]. *)
Definition item_of (full_text : text) (matches : list rmatch)
    (i : nat) (m : rmatch) : item :=
  let start_desc := m_end m in
  let end_desc := end_desc full_text matches i start_desc in
  let desc_raw := strip (slice full_text start_desc end_desc) in
  let desc_clean := join (str " ") (split desc_raw) in
  {| line_no := group_str full_text m 1;
     item_id := group_str full_text m 2;
     qty := group_str full_text m 3;
     unit_price := group_str full_text m 4;
     total := group_str full_text m 5;
     description := desc_clean |}.

Definition extract_line_items (full_text : text) : list item :=
  let matches := finditer item_re full_text in
  imap (item_of full_text matches) matches.

(** ** Documents and exceptions *)

(** A raised [Exception]; [msg] is its [str(e)]. *)
Record exn : Type := Exn { msg : text }.

Inductive result (A : Type) : Type :=
| Ok (a : A)
| Raise (e : exn).
Arguments Ok {A} a.
Arguments Raise {A} e.

Definition bind {A B} (x : result A) (f : A -> result B) : result B :=
  match x with
  | Ok a => f a
  | Raise e => Raise e
  end.

Notation "x <- c1 ;; c2" := (bind c1 (fun x => c2))
  (at level 100, c1 at next level, right associativity).

(** What [pdfplumber] makes of the bytes of an upload: opening them
    raises or gives the pages, and [page.extract_text()] raises or
    gives a string or [None]. *)
Definition page : Type := result (option text).
Definition pdf : Type := result (list page).

Definition newline : text := str (String "010" EmptyString).

(** The loop over [pdf.pages], from the text gathered so far. *)
Fixpoint pages_text (full_text : text) (pages : list page) : result text :=
  match pages with
  | [] => Ok full_text
  | pg :: rest =>
      x <- pg ;;
      let txt := default [] x in
      pages_text (full_text ++ (txt ++ newline)) rest
  end.

Definition extract_full_text (pdf_bytes : pdf) : result text :=
  pages <- pdf_bytes ;;
  pages_text [] pages.

(** ** Output rows *)

Record row : Type := MkRow {
  ReferralManager : option text;
  ReferralEmail : option text;
  Brand : option text;
  QuoteNumber : option text;
  QuoteDate : option text;
  Company : option text;
  FirstName : option text;
  LastName : option text;
  ContactEmail : option text;
  ContactPhone : option text;
  Address : option text;
  County : option text;
  City : option text;
  State : option text;
  ZipCode : option text;
  Country : option text;
  r_item_id : text;
  r_item_desc : text;
  UnitPrice : option spec_float;
  TotalSales : option spec_float;
  QuoteValidDate : option text;
  CustomerNumber : option text;
  manufacturer_Name : option text;
  PDF : text;
  DemoQuote : option text
}.

(** The body of the loop over [items]; [float] raising [ValueError]
    is caught and leaves the number [None]. *)
Definition row_of (h : header) (filename : text)
    (referral_manager : option text) (referral_email brand : text)
    (it : item) : row :=
  let unit_price_val := PyFloat.float (remove_char "," (unit_price it)) in
  let total_val := PyFloat.float (remove_char "," (total it)) in
  {| ReferralManager := or_none referral_manager;
     ReferralEmail := or_none (Some referral_email);
     Brand := or_none (Some brand);
     QuoteNumber := hget h "QuoteNumber";
     QuoteDate := hget h "QuoteDate";
     Company := hget h "Company";
     FirstName := hget h "FirstName";
     LastName := hget h "LastName";
     ContactEmail := None;
     ContactPhone := None;
     Address := hget h "Address";
     County := None;
     City := hget h "City";
     State := hget h "State";
     ZipCode := hget h "ZipCode";
     Country := hget h "Country";
     r_item_id := item_id it;
     r_item_desc := description it;
     UnitPrice := unit_price_val;
     TotalSales := total_val;
     QuoteValidDate := hget h "QuoteValidDate";
     CustomerNumber := hget h "CustomerNumber";
     manufacturer_Name := None;
     PDF := filename;
     DemoQuote := None |}.

Definition build_rows_for_pdf (pdf_bytes : pdf) (filename : text)
    (referral_manager : option text) (referral_email brand : text)
    : result (list row) :=
  full_text <- extract_full_text pdf_bytes ;;
  let header := extract_header_info full_text in
  let items := extract_line_items full_text in
  Ok (map (row_of header filename referral_manager referral_email brand)
        items).

(** ** The batch loop *)

(** An uploaded file: [f.name] and what [f.read()] holds. *)
Record upload : Type := MkUpload { name : text; content : pdf }.

(** What the loop builds: the rows gathered in [all_rows] and the
    warnings shown with [st.warning], oldest first. *)
Record batch_state : Type := MkBatch {
  all_rows : list row;
  warnings : list text
}.

Definition warning_for (f : upload) (e : exn) : text :=
  str "Error processing " ++ name f ++ str ": " ++ msg e.

(** One round of [for idx, f in enumerate(uploaded_files, start=1)]:
    the [try] around [build_rows_for_pdf]. *)
Definition process_one (referral_manager : option text)
    (referral_email brand : text) (st : batch_state) (f : upload)
    : batch_state :=
  match build_rows_for_pdf (content f) (name f) referral_manager
          referral_email brand with
  | Ok rows => {| all_rows := all_rows st ++ rows; warnings := warnings st |}
  | Raise e =>
      {| all_rows := all_rows st;
         warnings := warnings st ++ [warning_for f e] |}
  end.

Definition process_batch (referral_manager : option text)
    (referral_email brand : text) (uploaded_files : list upload)
    : batch_state :=
  fold_left (process_one referral_manager referral_email brand)
    uploaded_files {| all_rows := []; warnings := [] |}.

(** What pressing the button leads to: the two checks on the number of
    uploads come first and stop the run with [st.error]; otherwise the
    loop runs over all the files. *)
Inductive outcome : Type :=
| Rejected (error : text)
| Processed (st : batch_state).

Definition on_process (referral_manager : option text)
    (referral_email brand : text) (uploaded_files : list upload) : outcome :=
  match uploaded_files with
  | [] => Rejected (str "Please upload at least one PDF.")
  | _ :: _ =>
      if 100 <? length uploaded_files
      then Rejected (str "Please upload 100 PDFs or fewer at a time.")
      else Processed (process_batch referral_manager referral_email brand
                        uploaded_files)
  end.

(** ** The export table *)

Definition TARGET_COLUMNS : list string :=
  [ "ReferralManager"; "ReferralEmail"; "Brand"; "QuoteNumber"; "QuoteDate";
    "Company"; "FirstName"; "LastName"; "ContactEmail"; "ContactPhone";
    "Address"; "County"; "City"; "State"; "ZipCode"; "Country"; "item_id";
    "item_desc"; "UnitPrice"; "TotalSales"; "QuoteValidDate";
    "CustomerNumber"; "manufacturer_Name"; "PDF"; "DemoQuote" ].

(** A value of a row dictionary: [None], a string or a float. *)
Inductive cell : Type :=
| CNone
| CStr (s : text)
| CFloat (x : spec_float).

Definition cell_of_str (o : option text) : cell :=
  match o with Some s => CStr s | None => CNone end.

Definition cell_of_float (o : option spec_float) : cell :=
  match o with Some x => CFloat x | None => CNone end.

(** The row as the dictionary the code writes, keys in the order of
    the literal. *)
Definition to_dict (r : row) : list (string * cell) :=
  [ ("ReferralManager", cell_of_str (ReferralManager r));
    ("ReferralEmail", cell_of_str (ReferralEmail r));
    ("Brand", cell_of_str (Brand r));
    ("QuoteNumber", cell_of_str (QuoteNumber r));
    ("QuoteDate", cell_of_str (QuoteDate r));
    ("Company", cell_of_str (Company r));
    ("FirstName", cell_of_str (FirstName r));
    ("LastName", cell_of_str (LastName r));
    ("ContactEmail", cell_of_str (ContactEmail r));
    ("ContactPhone", cell_of_str (ContactPhone r));
    ("Address", cell_of_str (Address r));
    ("County", cell_of_str (County r));
    ("City", cell_of_str (City r));
    ("State", cell_of_str (State r));
    ("ZipCode", cell_of_str (ZipCode r));
    ("Country", cell_of_str (Country r));
    ("item_id", CStr (r_item_id r));
    ("item_desc", CStr (r_item_desc r));
    ("UnitPrice", cell_of_float (UnitPrice r));
    ("TotalSales", cell_of_float (TotalSales r));
    ("QuoteValidDate", cell_of_str (QuoteValidDate r));
    ("CustomerNumber", cell_of_str (CustomerNumber r));
    ("manufacturer_Name", cell_of_str (manufacturer_Name r));
    ("PDF", CStr (PDF r));
    ("DemoQuote", cell_of_str (DemoQuote r)) ].

Fixpoint dict_get (d : list (string * cell)) (key : string) : option cell :=
  match d with
  | [] => None
  | (k, v) :: d' => if String.eqb k key then Some v else dict_get d' key
  end.

(** A data frame: its rows, each a list of cells in column order.  A
    cell is [None] where the row dictionary lacks the column, which
    pandas fills with NaN. *)
Definition frame : Type := list (list (option cell)).

(** [pd.DataFrame(rows, columns=columns)] on a list of dictionaries. *)
Definition DataFrame (rows : list row) (columns : list string) : frame :=
  map (fun r => map (dict_get (to_dict r)) columns) rows.

(** ** The page *)

(** What the page shows, in order. *)
Inductive ui_event : Type :=
| Info (m : text)                      (* st.info *)
| Error (m : text)                     (* st.error *)
| Warning (m : text)                   (* st.warning *)
| Progress (num den : nat)             (* the bar set to num / den *)
| Status (idx n : nat) (file : text)   (* "Processing idx/n: file" *)
| Success (n_pdfs n_items : nat)
    (* "Parsed n_pdfs PDF(s) with n_items total line items." *)
| Preview (df : frame)                 (* st.dataframe(df.head(50)) *)
| Download (df : frame)
    (* the sheet "Quotes" of quotes_extracted.xlsx, written without
       index *)
| Uncaught (e : exn).
    (* an exception no [try] catches: the run of the script ends *)

(** Lines 306 to 309 write the workbook with pandas and openpyxl,
    which are not part of the repository and can raise (openpyxl
    refuses a cell that holds a control character, for one).  An
    [excel_writer] says, for a frame, whether the writing raises. *)
Definition excel_writer : Type := frame -> result unit.

(** What one round of the loop shows for the file at position [idx],
    counted from 1, of [n]. *)
Definition round_events (rm : option text) (re br : text) (n idx : nat)
    (f : upload) : list ui_event :=
  Status idx n (name f)
  :: match build_rows_for_pdf (content f) (name f) rm re br with
     | Ok _ => []
     | Raise e => [Warning (warning_for f e)]
     end
  ++ [Progress idx n].

(** The part after the loop.  The writing of the workbook stands
    outside every [try]: when it raises, the run ends there and the
    download button is never reached.  The calls of Streamlit are taken
    not to raise. *)
Definition after_loop (to_excel : excel_writer)
    (uploaded_files : list upload) (all_rows : list row)
    : list ui_event :=
  match all_rows with
  | [] => [Error (str "No line items were found in the uploaded PDFs.")]
  | _ :: _ =>
      let df := DataFrame all_rows TARGET_COLUMNS in
      [ Success (length uploaded_files) (length df);
        Preview (take 50 df) ]
      ++ match to_excel df with
         | Ok _ => [Download df]
         | Raise e => [Uncaught e]
         end
  end.

(** The script from [if process:] on.  The rows are those [process_batch]
    gathers. *)
Definition script (process : bool) (to_excel : excel_writer)
    (rm : option text) (re br : text) (uploaded_files : list upload)
    : list ui_event :=
  if process then
    match uploaded_files with
    | [] => [Error (str "Please upload at least one PDF.")]
    | _ :: _ =>
        if 100 <? length uploaded_files
        then [Error (str "Please upload 100 PDFs or fewer at a time.")]
        else
          let n := length uploaded_files in
          Progress 0 1
          :: concat (imap (fun i f => round_events rm re br n (S i) f)
                       uploaded_files)
          ++ after_loop to_excel uploaded_files
               (all_rows (process_batch rm re br uploaded_files))
    end
  else [Info (str "Upload PDFs and click **Process PDFs** to start.")].

End App.

(* ===================================================================== *)
(** * The words of the specification *)
(* ===================================================================== *)

Module Spec.

Import Py Re App.

(** ** White space of a description *)

(** Every run of white space becomes one blank.  [in_run] says that the
    character before was white space. *)
Fixpoint collapse_runs (in_run : bool) (s : text) : text :=
  match s with
  | [] => []
  | c :: s' =>
      if is_space c
      then if in_run then collapse_runs true s'
           else " "%char :: collapse_runs true s'
      else c :: collapse_runs false s'
  end.

(** Trimmed, and every white space run inside collapsed to a blank. *)
Definition normalize_ws (s : text) : text := collapse_runs false (strip s).

(** No white space at the front, at the back. *)
Definition clean_start (s : text) : Prop :=
  forall c u, s = c :: u -> is_space c = false.

Definition clean_end (s : text) : Prop :=
  forall u c, s = u ++ [c] -> is_space c = false.

(** ** Occurrences of a token *)

Definition occurs_at (t sub : text) (e : nat) : Prop :=
  slice t e (e + length sub) = sub.

(** [e] is the first place at or after [start] where [sub] occurs. *)
Definition first_occurrence (t sub : text) (start e : nat) : Prop :=
  start <= e /\ occurs_at t sub e
  /\ forall e', start <= e' < e -> ~ occurs_at t sub e'.

(** ** The matches of [finditer] *)

(** Matches of [r] in [t] one after the other from [pos] on, none
    overlapping the next. *)
Fixpoint chain (t : text) (r : regex) (pos : nat) (ms : list rmatch)
    : Prop :=
  match ms with
  | [] => True
  | m :: rest =>
      pos <= m_start m /\ m_start m <= m_end m /\ m_end m <= length t
      /\ matches t r (m_start m) [] (m_end m) (m_caps m)
      /\ chain t r (m_end m) rest
  end.

(** ** The line-item header line *)

Definition some_of (c : ascii -> bool) (w : text) : Prop :=
  w <> [] /\ all_in c w.

Definition integer (w : text) : Prop := some_of is_digit w.
Definition whitespace (w : text) : Prop := some_of is_space w.
Definition opt_whitespace (w : text) : Prop := all_in is_space w.
Definition identifier (w : text) : Prop := some_of cls_item_id w.

(** A thousands-separated amount before the decimal point. *)
Definition amount (w : text) : Prop := some_of cls_amount w.

(** A decimal with a fractional part of at least one digit. *)
Definition decimal (w : text) : Prop :=
  exists a f, w = a ++ str "." ++ f /\ amount a /\ integer f.

(** A decimal with exactly [n] fractional digits. *)
Definition decimal_frac (n : nat) (w : text) : Prop :=
  exists a f, w = a ++ str "." ++ f /\ amount a /\ integer f /\ length f = n.

(** [seg] reads: line number, white space, identifier, white space,
    quantity, white space, [EAC], white space, unit price, optional
    white space, [EAC], white space, total. *)
Definition item_header (ln id q up tot seg : text) : Prop :=
  exists w1 w2 w3 w4 w5 w6,
    seg = ln ++ w1 ++ id ++ w2 ++ q ++ w3 ++ str "EAC" ++ w4 ++ up ++ w5
          ++ str "EAC" ++ w6 ++ tot
    /\ integer ln /\ whitespace w1 /\ identifier id /\ whitespace w2
    /\ integer q /\ whitespace w3 /\ whitespace w4 /\ decimal up
    /\ opt_whitespace w5 /\ whitespace w6 /\ decimal_frac 2 tot.

(** ** The header lines of a text *)

(** The stretch [w] of [t] runs from position [a] to position [b]. *)
Definition stretch (t : text) (a b : nat) (w : text) : Prop :=
  exists pre post, t = pre ++ w ++ post /\ length pre = a /\ a + length w = b.

(** From position [s] to position [e] the text reads as a line-item
    header with the fields [ln], [id], [q], [up] and [tot], and [s] is
    the start of a line. *)
Definition header_at (t : text) (s e : nat) (ln id q up tot : text) : Prop :=
  exists pre seg post,
    t = pre ++ seg ++ post /\ length pre = s /\ s + length seg = e
    /\ line_start pre /\ item_header ln id q up tot seg.

Definition header_from (t : text) (s : nat) : Prop :=
  exists e ln id q up tot, header_at t s e ln id q up tot.

(** The header lines of [t] as a reading from [pos] on meets them, each
    given by its start and its end: every one is the first that starts
    at or after the end of the one before, and after the last there is
    none.  The text has [N] header lines when this list has [N]
    entries. *)
Inductive header_lines (t : text) : nat -> list (nat * nat) -> Prop :=
| lines_end pos :
    (forall s, pos <= s -> ~ header_from t s) -> header_lines t pos []
| lines_next pos s e ln id q up tot rest :
    pos <= s -> header_at t s e ln id q up tot ->
    (forall s', pos <= s' < s -> ~ header_from t s') ->
    header_lines t e rest ->
    header_lines t pos ((s, e) :: rest).

(** ** The street address *)

(** [\d{3,6}\s+c+]: a number of 3 to 6 digits, white space, and a run
    of characters of class [c]. *)
Definition numeric_run (c : ascii -> bool) (g : text) : Prop :=
  exists d w s, g = d ++ w ++ s /\ 3 <= length d <= 6 /\ all_in is_digit d
                /\ whitespace w /\ some_of c s.

(** In [blk], after [pre], stands the numeric-led run [g1], and right
    after it, across white space, a second numeric-led run. *)
Definition address_pair (blk pre g1 : text) : Prop :=
  exists w g2 post,
    blk = pre ++ g1 ++ w ++ g2 ++ post
    /\ numeric_run cls_street1 g1 /\ whitespace w
    /\ numeric_run cls_street2 g2.

(** ** Header fields and their searches *)

Inductive field : Type :=
| FQuoteNumber | FQuoteDate | FCustomerNumber | FFirstName | FLastName
| FCompany | FAddress | FCity | FState | FZipCode | FCountry
| FQuoteValidDate.

Definition field_key (f : field) : string :=
  match f with
  | FQuoteNumber => "QuoteNumber"
  | FQuoteDate => "QuoteDate"
  | FCustomerNumber => "CustomerNumber"
  | FFirstName => "FirstName"
  | FLastName => "LastName"
  | FCompany => "Company"
  | FAddress => "Address"
  | FCity => "City"
  | FState => "State"
  | FZipCode => "ZipCode"
  | FCountry => "Country"
  | FQuoteValidDate => "QuoteValidDate"
  end.

Definition found (r : regex) (t : text) : bool :=
  match search r t with Some _ => true | None => false end.

(** Both markers of the address block occur. *)
Definition scoped (t : text) : bool :=
  contains quoted_for t && contains quote_good_through t.

(** Whether the search that recovers field [f] finds a match in [t]. *)
Definition field_found (t : text) (f : field) : bool :=
  match f with
  | FQuoteNumber | FQuoteDate => found quote_re t
  | FCustomerNumber => found customer_re t
  | FFirstName | FLastName => found contact_re t
  | FCompany => scoped t && found company_re (addr_block t)
  | FAddress => scoped t && found addr_re (addr_block t)
  | FCity | FState | FZipCode => scoped t && found city_re (addr_block t)
  | FCountry => scoped t && contains usa_long (addr_block t)
  | FQuoteValidDate => found valid_re t
  end.

(** What the search of field [f] recovers from [t]. *)
Definition field_value (t : text) (f : field) : option text :=
  let blk := addr_block t in
  let from (r : regex) (t' : text) (g : text -> text) (n : nat) :=
    match search r t' with
    | Some m => Some (g (group_str t' m n))
    | None => None
    end in
  match f with
  | FQuoteNumber => from quote_re t id 1
  | FQuoteDate => from quote_re t id 2
  | FCustomerNumber => from customer_re t id 1
  | FFirstName => (contact_names t (search contact_re t)).1
  | FLastName => (contact_names t (search contact_re t)).2
  | FCompany => if scoped t then from company_re blk strip 1 else None
  | FAddress => if scoped t then from addr_re blk strip 1 else None
  | FCity => if scoped t then from city_re blk strip 1 else None
  | FState => if scoped t then from city_re blk id 2 else None
  | FZipCode => if scoped t then from city_re blk id 3 else None
  | FCountry =>
      if scoped t && contains usa_long blk then Some (str "USA") else None
  | FQuoteValidDate => from valid_re t id 1
  end.

(** The entry of field [f] in the dictionary: the two names are
    assigned on every path, the other keys only when their search
    recovered a value. *)
Definition entry (t : text) (f : field) : option (option text) :=
  match f with
  | FFirstName | FLastName => Some (field_value t f)
  | _ => Some <$> field_value t f
  end.

(** ** Batches *)

(** The rows a file adds to the export, none when it raises. *)
Definition rows_of (rm : option text) (re br : text) (f : upload)
    : list row :=
  match build_rows_for_pdf (content f) (name f) rm re br with
  | Ok rows => rows
  | Raise _ => []
  end.

(** The warning a file causes, none when it is processed. *)
Definition warnings_of (rm : option text) (re br : text) (f : upload)
    : list text :=
  match build_rows_for_pdf (content f) (name f) rm re br with
  | Ok _ => []
  | Raise e => [warning_for f e]
  end.

End Spec.

(* ===================================================================== *)
(** * Shapes of the extracted values *)
(* ===================================================================== *)

Module Shapes.

Import Py Re App Spec.

(** A word: not empty and without white space. *)
Definition word (w : text) : Prop :=
  w <> [] /\ Forall (fun c => is_space c = false) w.

(** The text is empty or goes on with white space. *)
Definition at_gap (s : text) : Prop :=
  forall c u, s = c :: u -> is_space c = true.

(** [words_of s ws]: the words of [s], read from the left, are [ws];
    white space, and nothing else, stands before, between and after
    them. *)
Inductive words_of : text -> list text -> Prop :=
| words_end sp : all_in is_space sp -> words_of sp []
| words_next sp w rest ws :
    all_in is_space sp -> word w -> at_gap rest -> words_of rest ws ->
    words_of (sp ++ w ++ rest) (w :: ws).

(** The words put together with one blank between each two. *)
Fixpoint spaced (ws : list text) : text :=
  match ws with
  | [] => []
  | [w] => w
  | w :: rest => w ++ " "%char :: spaced rest
  end.

(** Words with one blank between each two. *)
Definition spaced_words (s : text) : Prop :=
  exists words, Forall word words /\ s = join (str " ") words.

(** [M/D/YYYY]: one or two digits, a slash, one or two digits, a
    slash, four digits. *)
Definition date_shape (w : text) : Prop :=
  exists m d y,
    w = m ++ str "/" ++ d ++ str "/" ++ y
    /\ all_in is_digit m /\ 1 <= length m <= 2
    /\ all_in is_digit d /\ 1 <= length d <= 2
    /\ all_in is_digit y /\ length y = 4.

(** The text does not go on with a digit. *)
Definition no_digit_next (post : text) : Prop :=
  forall c u, post = c :: u -> is_digit c = false.

(** No decimal digit anywhere. *)
Definition digit_free (s : text) : Prop :=
  Forall (fun c => is_digit c = false) s.

(** The six fields read from the scoped address block. *)
Definition block_fields : list field :=
  [FCompany; FAddress; FCity; FState; FZipCode; FCountry].

(** The four columns of a row that come from the line item. *)
Definition item_columns : list string :=
  ["item_id"; "item_desc"; "UnitPrice"; "TotalSales"].

(** Processing the file raises. *)
Definition raises (rm : option text) (re br : text) (f : upload) : bool :=
  match build_rows_for_pdf (content f) (name f) rm re br with
  | Ok _ => false
  | Raise _ => true
  end.

Definition is_warning (ev : ui_event) : bool :=
  match ev with Warning _ => true | _ => false end.

(** A character a decimal starts with: a digit or the point. *)
Definition decimal_char (c : ascii) : bool := is_digit c || is_char "." c.

(** The pattern ends in a greedy run of class [c] without upper
    bound, so that nothing is asked of the text after the run. *)
Fixpoint ends_greedy (c : ascii -> bool) (r : regex) : Prop :=
  match r with
  | Rep true _ None c' => c' = c
  | Seq _ r2 => ends_greedy c r2
  | Grp _ r1 => ends_greedy c r1
  | _ => False
  end.

End Shapes.

(* ===================================================================== *)
(** * Sample texts *)
(* ===================================================================== *)

Module Samples.

Import App.

(** Two line items, descriptions over several lines, and the summary
    line that starts with [Product]. *)
Definition two_items : text :=
  str "1 A-1 2 EAC 1,000.5 EAC 2,001.00
  first   item
text
2 B.2 1 EAC 2.5EAC 2.50
second Product 2,003.50".

(** One item whose description holds the word [Products], before the
    summary line. *)
Definition products_in_description : text :=
  str "1 A 2 EAC 1.0 EAC 3.00
Steel Products kit
Product 3.00".

(** The example line of the specification. *)
Definition magfoot_line : text :=
  str "1 HW.MAGFOOT-170 27 EAC 3,600.00000EAC 97,200.00".

(** A header line whose total is printed with three fractional
    digits. *)
Definition three_digit_total : text := str "1 A 2 EAC 1.0 EAC 3.123".

(** An address block whose street address has a number inside, printed
    twice as the layout does. *)
Definition route_quote : text :=
  str "Quoted For: ACME Ship To: ACME 100 Route 222 North 100 Route 222 North Akron, OH 44306 Quote Good Through 12/09/2025".

(** An upload of one page that holds the example line. *)
Definition magfoot_pdf : App.pdf := App.Ok [App.Ok (Some magfoot_line)].

(** Bytes that [pdfplumber] cannot open. *)
Definition broken_pdf : App.pdf :=
  App.Raise {| App.msg := str "No /Root object! - Is this really a PDF?" |}.

Definition batch_of_three : list App.upload :=
  [ {| App.name := str "a.pdf"; App.content := magfoot_pdf |};
    {| App.name := str "b.pdf"; App.content := broken_pdf |};
    {| App.name := str "c.pdf";
       App.content := App.Ok [App.Ok (Some two_items)] |} ].

(** One item whose description holds the control character U+0002. *)
Definition control_character_upload : App.upload :=
  {| App.name := str "d.pdf";
     App.content :=
       App.Ok [App.Ok (Some (str "1 A 2 EAC 1.0 EAC 3.00
Steel" ++ "002"%char :: str " kit"))] |}.

(** The characters openpyxl refuses in a cell: the control characters
    but for tab, line feed and carriage return. *)
Definition illegal_character (c : ascii) : bool :=
  let n := nat_of_ascii c in
  (n <=? 8) || ((11 <=? n) && (n <=? 12)) || ((14 <=? n) && (n <=? 31)).

(** A writer that raises on a frame with such a character in a string
    cell, and on no other. *)
Definition strict_writer : App.excel_writer :=
  fun df =>
    if existsb
         (existsb (fun c => match c with
                            | Some (App.CStr s) => existsb illegal_character s
                            | _ => false
                            end)) df
    then App.Raise {| App.msg := str "IllegalCharacterError" |}
    else App.Ok tt.

(** The header example of the specification. *)
Definition header_example : text :=
  str "Quote 120987 Date 11/24/2025
Customer 100725
Contact Mike Shafer
".

(** Pages without any text, and a page of words only. *)
Definition blank_pages : list (option text) :=
  [None; Some (str "Terms and conditions apply"); Some []].

(** An address pair in a text without the marker [Quoted For:]. *)
Definition block_unmarked : text :=
  str "ACME 100 Main St 100 Main St Akron, OH 44306 Quote Good Through 12/09/2025".

(** The same address block in two different quotes. *)
Definition block_quote_a : text :=
  str "Quote 1 Date 1/2/2025 200 Elm St 200 Elm St Quoted For: ACME Ship To: ACME 100 Main St 100 Main St Akron, OH 44306 Quote Good Through 12/09/2025".

Definition block_quote_b : text :=
  str "Quoted For: ACME Ship To: ACME 100 Main St 100 Main St Akron, OH 44306 Quote Good Through 1/1/2026 Dayton, OH 45402".

(** The validity marker before the address marker. *)
Definition markers_swapped : text :=
  str "Quote Good Through 12/09/2025 Quoted For: ACME Ship To: ACME 100 Main St 100 Main St Akron, OH 44306 United States of America".

End Samples.

(* ===================================================================== *)
(** * Facts about the matcher *)
(* ===================================================================== *)

Module ReFacts.

Import Py Re.

Section TryOrder.
Context {R : Type}.
Implicit Types f : nat -> option R.

Lemma try_down_some f lo n x :
  try_down f lo n = Some x -> exists d, lo <= d <= n /\ f d = Some x.
Proof.
  induction n as [|n IH]; simpl.
  - destruct (Nat.ltb_spec 0 lo); [discriminate|].
    destruct (f 0) eqn:E; [|discriminate].
    intros [= <-]. exists 0. split; [lia | done].
  - destruct (Nat.ltb_spec (S n) lo); [discriminate|].
    destruct (f (S n)) eqn:E.
    + intros [= <-]. exists (S n). split; [lia | done].
    + intros H1. destruct (IH H1) as (d & Hd & Hf).
      exists d. split; [lia | done].
Qed.

Lemma try_down_none f lo n :
  try_down f lo n = None -> forall d, lo <= d <= n -> f d = None.
Proof.
  induction n as [|n IH]; simpl; intros H d Hd.
  - destruct (Nat.ltb_spec 0 lo); [lia|].
    replace d with 0 by lia. by destruct (f 0).
  - destruct (Nat.ltb_spec (S n) lo); [lia|].
    destruct (f (S n)) eqn:E; [discriminate|].
    destruct (decide (d = S n)) as [-> | Hne]; [done|].
    destruct (Nat.ltb_spec n lo) as [Hlt | Hge].
    + lia.
    + apply IH; [done | lia].
Qed.

Lemma try_up_some f k d x :
  try_up f k d = Some x -> exists e, k <= e < k + d /\ f e = Some x.
Proof.
  revert k. induction d as [|d IH]; simpl; intros k; [discriminate|].
  destruct (f k) eqn:E.
  - intros [= <-]. exists k. split; [lia | done].
  - intros H. destruct (IH _ H) as (e & He & Hf).
    exists e. split; [lia | done].
Qed.

Lemma try_up_none f k d :
  try_up f k d = None -> forall e, k <= e < k + d -> f e = None.
Proof.
  revert k. induction d as [|d IH]; simpl; intros k H e He; [lia|].
  destruct (f k) eqn:E; [discriminate|].
  destruct (decide (e = k)) as [-> | Hne]; [done|].
  apply (IH (S k)); [done | lia].
Qed.
End TryOrder.

Lemma cap_hi_le hi n d : d <= cap_hi hi n <-> within hi d /\ d <= n.
Proof. destruct hi; simpl; lia. Qed.

(** Whatever [run] finds is a way to match, and the continuation
    accepted it. *)
Lemma run_sound {R} (t : text) (r : regex) :
  forall i cs (k : nat -> caps -> option R) x,
    run t r i cs k = Some x ->
    exists j cs', matches t r i cs j cs' /\ k j cs' = Some x.
Proof.
  induction r as [s| |g lo hi c|r1 IH1 r2 IH2|n r1 IH1|r1 IH1];
    simpl; intros i cs k x H.
  - destruct (starts_with s (drop i t)) eqn:E; [|discriminate]. eauto 6.
  - destruct (at_bol t i) eqn:E; [|discriminate]. eauto 6.
  - destruct g.
    + apply try_down_some in H as (d & Hd & Hk).
      exists (i + d), cs. split; [|done]. split; [|done].
      exists d. pose proof (proj1 (cap_hi_le hi _ d) (proj2 Hd)). intuition.
    + apply try_up_some in H as (d & Hd & Hk).
      exists (i + d), cs. split; [|done]. split; [|done].
      exists d.
      assert (d <= cap_hi hi (run_length c (drop i t))) as Hle by lia.
      apply cap_hi_le in Hle. intuition.
  - apply IH1 in H as (m & cm & H1 & H).
    apply IH2 in H as (j & cs' & H2 & H). eauto 8.
  - apply IH1 in H as (j & c1 & H1 & H). eauto 8.
  - destruct (run t r1 i cs k) eqn:E.
    + injection H as ->. apply IH1 in E as (j & cs' & H1 & H). eauto 8.
    + eauto 8.
Qed.

(** When [run] fails, the continuation refuses every way to match. *)
Lemma run_complete {R} (t : text) (r : regex) :
  forall i cs (k : nat -> caps -> option R),
    run t r i cs k = None ->
    forall j cs', matches t r i cs j cs' -> k j cs' = None.
Proof.
  induction r as [s| |g lo hi c|r1 IH1 r2 IH2|n r1 IH1|r1 IH1];
    simpl; intros i cs k H j cs' M.
  - destruct M as (E & -> & ->). by rewrite E in H.
  - destruct M as (E & -> & ->). by rewrite E in H.
  - destruct M as ((d & -> & Hlo & Hhi & Hrun) & ->).
    assert (d <= cap_hi hi (run_length c (drop i t))) as Hle
      by (apply cap_hi_le; done).
    destruct g.
    + apply (try_down_none _ _ _ H d). lia.
    + apply (try_up_none _ _ _ H d). lia.
  - destruct M as (m & cm & M1 & M2).
    apply (IH2 m cm k); [|done].
    apply (IH1 i cs (fun j cs' => run t r2 j cs' k) H m cm M1).
  - destruct M as (c1 & M1 & ->).
    apply (IH1 i cs (fun j cs' => k j ((n, (i, j)) :: cs')) H j c1 M1).
  - destruct (run t r1 i cs k) eqn:E; [discriminate|].
    destruct M as [[-> ->] | M1]; [done|]. by apply (IH1 i cs k E).
Qed.

Lemma starts_with_length (p s : text) :
  starts_with p s = true -> length p <= length s.
Proof.
  revert s. induction p as [|a p IH]; intros [|b s]; simpl; try lia;
    try discriminate.
  intros H. apply andb_true_iff in H as [_ H]. apply IH in H. lia.
Qed.

Lemma run_length_le (c : ascii -> bool) (s : text) :
  run_length c s <= length s.
Proof. induction s as [|a s IH]; simpl; [lia|]. destruct (c a); lia. Qed.

(** A match only moves forward, and stays inside the text. *)
Lemma matches_mono t r : forall i cs j cs', matches t r i cs j cs' -> i <= j.
Proof.
  induction r as [s| |g lo hi c|r1 IH1 r2 IH2|n r1 IH1|r1 IH1];
    simpl; intros i cs j cs' M.
  - destruct M as (_ & -> & _). lia.
  - destruct M as (_ & -> & _). lia.
  - destruct M as ((d & -> & _) & _). lia.
  - destruct M as (m & cm & M1 & M2). apply IH1 in M1. apply IH2 in M2. lia.
  - destruct M as (c1 & M1 & _). eauto.
  - destruct M as [[-> _] | M1]; [lia | eauto].
Qed.

Lemma matches_bound t r :
  forall i cs j cs', matches t r i cs j cs' -> i <= length t -> j <= length t.
Proof.
  induction r as [s| |g lo hi c|r1 IH1 r2 IH2|n r1 IH1|r1 IH1];
    simpl; intros i cs j cs' M Hi.
  - destruct M as (E & -> & _). apply starts_with_length in E.
    rewrite length_drop in E. lia.
  - destruct M as (_ & -> & _). lia.
  - destruct M as ((d & -> & _ & _ & Hd) & _).
    pose proof (run_length_le c (drop i t)) as Hl.
    rewrite length_drop in Hl. lia.
  - destruct M as (m & cm & M1 & M2). eauto.
  - destruct M as (c1 & M1 & _). eauto.
  - destruct M as [[-> _] | M1]; [lia | eauto].
Qed.

Lemma matches_min_len t r :
  forall i cs j cs', matches t r i cs j cs' -> i + min_len r <= j.
Proof.
  induction r as [s| |g lo hi c|r1 IH1 r2 IH2|n r1 IH1|r1 IH1];
    simpl; intros i cs j cs' M.
  - destruct M as (_ & -> & _). lia.
  - destruct M as (_ & -> & _). lia.
  - destruct M as ((d & -> & ? & _) & _). lia.
  - destruct M as (m & cm & M1 & M2). apply IH1 in M1. apply IH2 in M2. lia.
  - destruct M as (c1 & M1 & _). eauto.
  - destruct M as [[-> _] | M1]; [lia|]. apply matches_mono in M1. lia.
Qed.

(** A group that lies on every way through the pattern has a span
    after a match, and spans are never lost. *)
Lemma matches_binds t r n :
  forall i cs j cs', matches t r i cs j cs' ->
    (binds r n = true \/ is_Some (cap_lookup cs n)) ->
    is_Some (cap_lookup cs' n).
Proof.
  induction r as [s| |g lo hi c|r1 IH1 r2 IH2|k r1 IH1|r1 IH1];
    simpl; intros i cs j cs' M H.
  - destruct M as (_ & _ & ->). by destruct H.
  - destruct M as (_ & _ & ->). by destruct H.
  - destruct M as (_ & ->). by destruct H.
  - destruct M as (m & cm & M1 & M2).
    apply (IH2 _ _ _ _ M2). destruct H as [H | H].
    + apply orb_true_iff in H as [H | H]; [right | by left].
      apply (IH1 _ _ _ _ M1). by left.
    + right. apply (IH1 _ _ _ _ M1). by right.
  - destruct M as (c1 & M1 & ->). simpl.
    destruct (Nat.eqb_spec k n) as [-> | Hne]; [done|].
    apply (IH1 _ _ _ _ M1). destruct H as [H | H]; [by left | by right].
  - destruct M as [[-> ->] | M1]; [by destruct H|].
    apply (IH1 _ _ _ _ M1). destruct H as [H | H]; [done | by right].
Qed.

(** ** [search] and [finditer] *)

Lemma match_at_some r t ma i m :
  match_at r t ma i = Some m ->
  m_start m = i /\ matches t r i [] (m_end m) (m_caps m)
  /\ (ma = true -> m_end m <> i).
Proof.
  unfold match_at. intros H.
  apply run_sound in H as (j & cs' & M & Hk). unfold accept in Hk.
  destruct (ma && (j =? i)) eqn:E; [discriminate|]. injection Hk as <-.
  simpl. split; [done|]. split; [done|]. intros ->. simpl in E.
  by apply Nat.eqb_neq in E.
Qed.

Lemma match_at_none r t ma i :
  match_at r t ma i = None ->
  forall j cs, matches t r i [] j cs -> ma = true /\ j = i.
Proof.
  unfold match_at. intros H j cs M.
  pose proof (run_complete t r i [] (accept ma i) H j cs M) as Hk.
  unfold accept in Hk. destruct (ma && (j =? i)) eqn:E; [|discriminate].
  apply andb_true_iff in E as [-> E]. by apply Nat.eqb_eq in E.
Qed.

Lemma search_loop_some r t : forall fuel ma i m,
  search_loop r t ma i fuel = Some m ->
  i <= m_start m <= i + fuel
  /\ matches t r (m_start m) [] (m_end m) (m_caps m)
  /\ (ma = true -> m_start m = i -> m_end m <> i)
  /\ (forall i' j cs, i <= i' < m_start m -> matches t r i' [] j cs ->
       ma = true /\ i' = i /\ j = i).
Proof.
  induction fuel as [|fuel IH]; simpl; intros ma i m H;
    destruct (match_at r t ma i) eqn:E.
  - injection H as ->. apply match_at_some in E as (E1 & E2 & E3).
    rewrite E1. split; [lia|]. split; [done|]. split; [auto|]. intros; lia.
  - discriminate.
  - injection H as ->. apply match_at_some in E as (E1 & E2 & E3).
    rewrite E1. split; [lia|]. split; [done|]. split; [auto|]. intros; lia.
  - apply IH in H as (H1 & H2 & H3 & H4).
    split; [lia|]. split; [done|]. split; [lia|].
    intros i' j cs Hi' M. destruct (decide (i' = i)) as [-> | Hne].
    + destruct (match_at_none _ _ _ _ E j cs M) as [-> ->]. done.
    + destruct (H4 i' j cs ltac:(lia) M) as [? _]. discriminate.
Qed.

Lemma search_loop_none r t : forall fuel ma i,
  search_loop r t ma i fuel = None ->
  forall i' j cs, i <= i' <= i + fuel -> matches t r i' [] j cs ->
    ma = true /\ i' = i /\ j = i.
Proof.
  induction fuel as [|fuel IH]; simpl; intros ma i H i' j cs Hi' M;
    destruct (match_at r t ma i) eqn:E; try discriminate.
  - replace i' with i in * by lia.
    destruct (match_at_none _ _ _ _ E j cs M) as [-> ->]. done.
  - destruct (decide (i' = i)) as [-> | Hne].
    + destruct (match_at_none _ _ _ _ E j cs M) as [-> ->]. done.
    + destruct (IH _ _ H i' j cs ltac:(lia) M) as [? _]. discriminate.
Qed.

(** The match [search_from] returns is a way to match at its start, and
    no earlier start from [pos] on has one (but for an empty match at
    [pos] that the flag refuses). *)
Lemma search_from_some r t ma pos m :
  search_from r t ma pos = Some m ->
  pos <= m_start m <= m_end m /\ m_end m <= length t
  /\ matches t r (m_start m) [] (m_end m) (m_caps m)
  /\ (ma = true -> m_start m = pos -> m_end m <> pos)
  /\ (forall i j cs, pos <= i < m_start m -> matches t r i [] j cs ->
       ma = true /\ i = pos /\ j = pos).
Proof.
  unfold search_from. destruct (Nat.ltb_spec (length t) pos); [discriminate|].
  intros H0. apply search_loop_some in H0 as (H1 & H2 & H3 & H4).
  pose proof (matches_mono _ _ _ _ _ _ H2).
  pose proof (matches_bound _ _ _ _ _ _ H2 ltac:(lia)).
  split; [lia|]. split; [lia|]. split; [done|]. split; [done|]. done.
Qed.

Lemma search_from_none r t pos :
  search_from r t false pos = None ->
  forall i j cs, pos <= i <= length t -> ~ matches t r i [] j cs.
Proof.
  unfold search_from. destruct (Nat.ltb_spec (length t) pos).
  - intros _ i j cs Hi. lia.
  - intros H0 i j cs Hi M.
    destruct (search_loop_none _ _ _ _ _ H0 i j cs ltac:(lia) M) as [? _].
    discriminate.
Qed.

(** ** From positions to strings and back *)

Lemma slice_app (t : text) i m j :
  i <= m -> m <= j -> slice t i j = slice t i m ++ slice t m j.
Proof.
  unfold slice. intros H1 H2.
  replace (j - i) with ((m - i) + (j - m)) by lia.
  rewrite <- take_take_drop, drop_drop.
  by replace (i + (m - i)) with m by lia.
Qed.

Lemma take_slice (t : text) i m : i <= m -> take m t = take i t ++ slice t i m.
Proof.
  unfold slice. intros H. replace m with (i + (m - i)) at 1 by lia.
  by rewrite <- take_take_drop.
Qed.

Lemma slice_middle (pre w post : text) :
  slice (pre ++ w ++ post) (length pre) (length pre + length w) = w.
Proof.
  unfold slice. rewrite drop_app_length.
  replace (length pre + length w - length pre) with (length w) by lia.
  apply take_app_length.
Qed.

Lemma starts_with_take (p s : text) :
  starts_with p s = true -> take (length p) s = p.
Proof.
  revert s. induction p as [|a p IH]; intros [|b s]; simpl; try done.
  intros H. apply andb_true_iff in H as [H1 H2].
  apply Ascii.eqb_eq in H1 as ->. by rewrite IH.
Qed.

Lemma starts_with_app (p v : text) : starts_with p (p ++ v) = true.
Proof.
  induction p as [|a p IH]; simpl; [done|]. by rewrite Ascii.eqb_refl, IH.
Qed.

Lemma run_length_take c (u : text) d :
  d <= run_length c u -> all_in c (take d u) /\ length (take d u) = d.
Proof.
  revert d. induction u as [|a u IH]; simpl; intros d Hd.
  - replace d with 0 by lia. split; [constructor | done].
  - destruct d as [|d]; [split; [constructor | done]|].
    destruct (c a) eqn:E; [|lia].
    destruct (IH d ltac:(lia)) as [H1 H2]. simpl. split; [|lia].
    by constructor.
Qed.

Lemma run_length_app c (w v : text) :
  all_in c w -> length w <= run_length c (w ++ v).
Proof.
  induction 1 as [|a w Ha _ IH]; simpl; [lia|]. rewrite Ha. lia.
Qed.

Lemma at_bol_line_start (t : text) i :
  at_bol t i = true -> line_start (take i t).
Proof.
  destruct i as [|i]; simpl; [by left|].
  destruct (t !! i) as [c|] eqn:E; [|discriminate].
  intros H. apply Ascii.eqb_eq in H as ->. right.
  exists (take i t). by apply take_S_r.
Qed.

Lemma line_start_at_bol (pre v : text) :
  line_start pre -> at_bol (pre ++ v) (length pre) = true.
Proof.
  intros [-> | [p ->]]; [done|].
  replace (length (p ++ ["010"%char])) with (S (length p))
    by (rewrite length_app; simpl; lia).
  rewrite <- app_assoc. simpl.
  by rewrite (list_lookup_middle p v "010"%char (length p) eq_refl).
Qed.

Lemma cap_texts_cons t n i j cs :
  cap_texts t ((n, (i, j)) :: cs) = (n, slice t i j) :: cap_texts t cs.
Proof. done. Qed.

(** A way to match between two positions is a way to match the string
    between them. *)
Lemma matches_denotes t r :
  forall i cs j cs',
    i <= length t -> matches t r i cs j cs' ->
    denotes r (take i t) (slice t i j) (cap_texts t cs) (cap_texts t cs').
Proof.
  induction r as [s| |g lo hi c|r1 IH1 r2 IH2|n r1 IH1|r1 IH1];
    simpl; intros i cs j cs' Hi M.
  - destruct M as (E & -> & ->). split; [|done]. unfold slice.
    replace (i + length s - i) with (length s) by lia.
    by apply starts_with_take.
  - destruct M as (E & -> & ->). unfold slice.
    rewrite Nat.sub_diag. simpl. split; [done|]. split; [|done].
    by apply at_bol_line_start.
  - destruct M as ((d & -> & Hlo & Hhi & Hrun) & ->). unfold slice.
    replace (i + d - i) with d by lia.
    destruct (run_length_take _ _ _ Hrun) as [H1 H2]. by rewrite H2.
  - destruct M as (m & cm & M1 & M2).
    pose proof (matches_mono _ _ _ _ _ _ M1) as L1.
    pose proof (matches_mono _ _ _ _ _ _ M2) as L2.
    pose proof (matches_bound _ _ _ _ _ _ M1 Hi) as B1.
    exists (slice t i m), (slice t m j), (cap_texts t cm).
    split; [by apply slice_app|]. split; [by apply IH1|].
    rewrite <- take_slice by done. by apply IH2.
  - destruct M as (c1 & M1 & ->). exists (cap_texts t c1).
    split; [by apply IH1 | done].
  - destruct M as [[-> ->] | M1]; [|right; by apply IH1].
    left. unfold slice. by rewrite Nat.sub_diag.
Qed.

(** A way to match a string is a way to match wherever the string
    stands in a text. *)
Lemma denotes_matches r :
  forall pre w gs gs', denotes r pre w gs gs' ->
  forall post cs, exists cs',
    matches (pre ++ w ++ post) r (length pre) cs (length pre + length w) cs'.
Proof.
  induction r as [s| |g lo hi c|r1 IH1 r2 IH2|n r1 IH1|r1 IH1];
    simpl; intros pre w gs gs' D post cs.
  - destruct D as [-> _]. exists cs. split; [|done].
    rewrite drop_app_length. apply starts_with_app.
  - destruct D as (-> & L & _). exists cs. simpl.
    split; [by apply line_start_at_bol|]. split; [lia | done].
  - destruct D as (Hlo & Hhi & Hall & _). exists cs. split; [|done].
    exists (length w). rewrite drop_app_length.
    split; [done|]. split; [done|]. split; [done|].
    by apply run_length_app.
  - destruct D as (w1 & w2 & gm & -> & D1 & D2).
    destruct (IH1 _ _ _ _ D1 (w2 ++ post) cs) as [cm M1].
    destruct (IH2 _ _ _ _ D2 post cm) as [cs' M2].
    exists cs', (length pre + length w1), cm.
    rewrite <- !app_assoc in *. rewrite length_app in *.
    split; [done|]. by rewrite Nat.add_assoc.
  - destruct D as (g1 & D1 & _).
    destruct (IH1 _ _ _ _ D1 post cs) as [c1 M1]. eauto.
  - destruct D as [[-> _] | D1].
    + exists cs. left. split; [simpl; lia | done].
    + destruct (IH1 _ _ _ _ D1 post cs) as [cs' M1]. eauto.
Qed.

(** After [re.search], [m.group(n)] is a string for every group that
    is under no optional part. *)
Lemma search_group_some r (t : text) m n :
  search r t = Some m -> binds r n = true -> is_Some (group t m n).
Proof.
  intros E Hb. apply search_from_some in E as (_ & _ & M & _).
  destruct (matches_binds _ _ n _ _ _ _ M (or_introl Hb)) as [[a b] Hc].
  unfold group. rewrite Hc. eauto.
Qed.

Lemma group_text_lookup t m n :
  group t m n = text_lookup (cap_texts t (m_caps m)) n.
Proof.
  unfold group. induction (m_caps m) as [|[k [a b]] cs IH]; simpl; [done|].
  by destruct (k =? n).
Qed.

End ReFacts.

(* ===================================================================== *)
(** * Facts about the string operations *)
(* ===================================================================== *)

Module PyFacts.

Import Py Re Spec ReFacts.

(** ** [strip], [split] and [join] *)

Lemma lstrip_app_last (s : text) c :
  is_space c = false -> lstrip (s ++ [c]) = lstrip s ++ [c].
Proof.
  intros Hc. induction s as [|a s IH]; simpl; [by rewrite Hc|].
  by destruct (is_space a).
Qed.

Lemma lstrip_clean_start (s : text) : clean_start (lstrip s).
Proof.
  induction s as [|a s IH]; simpl; [by intros c u|].
  destruct (is_space a) eqn:E; [done|]. by intros c u [= <- _].
Qed.

Lemma rstrip_clean_end (s : text) : clean_end (rstrip s).
Proof.
  unfold rstrip. intros u c H.
  apply (f_equal (@rev ascii)) in H. rewrite rev_involutive, rev_unit in H.
  by apply (lstrip_clean_start (rev s) c (rev u)).
Qed.

Lemma rstrip_clean_start (s : text) : clean_start s -> clean_start (rstrip s).
Proof.
  unfold rstrip. destruct s as [|a s]; [by intros _ c u|].
  intros H. pose proof (H a s eq_refl) as Ha. simpl.
  rewrite lstrip_app_last by done. rewrite rev_unit.
  by intros c u [= <- _].
Qed.

Lemma strip_clean (s : text) : clean_start (strip s) /\ clean_end (strip s).
Proof.
  split; [apply rstrip_clean_start, lstrip_clean_start
         | apply rstrip_clean_end].
Qed.

Lemma clean_end_tail c (s : text) : clean_end (c :: s) -> clean_end s.
Proof. intros H u x ->. by apply (H (c :: u) x). Qed.

Lemma split_aux_nil (s : text) :
  forall w, split_aux w s = [] -> w = [] /\ all_in is_space s.
Proof.
  induction s as [|c s IH]; simpl; intros w H.
  - destruct w; [split; [done | constructor] | discriminate].
  - destruct (is_space c) eqn:E.
    + destruct w; [|discriminate].
      destruct (IH _ H) as [_ Hs]. split; [done | by constructor].
    + destruct (IH _ H) as [? _]. discriminate.
Qed.

Lemma all_space_not_clean (s : text) :
  s <> [] -> all_in is_space s -> ~ clean_end s.
Proof.
  intros Hne Hall Hc.
  destruct (exists_last Hne) as (u & c & ->).
  pose proof (Hc u c eq_refl) as Hf.
  apply Forall_app in Hall as [_ Hl]. inversion Hl; congruence.
Qed.

Lemma join_cons (sep p : text) (ps : list text) :
  ps <> [] -> join sep (p :: ps) = p ++ sep ++ join sep ps.
Proof. by destruct ps. Qed.

Lemma join_split_aux (s : text) :
  clean_end s ->
  join (str " ") (split_aux [] s) = collapse_runs true s
  /\ (forall w, w <> [] ->
       join (str " ") (split_aux w s) = rev w ++ collapse_runs false s).
Proof.
  induction s as [|c s IH]; intros Hc.
  - split; [done|]. intros w Hw. cbn [split_aux collapse_runs].
    destruct w; [done|]. by rewrite app_nil_r.
  - destruct (IH (clean_end_tail _ _ Hc)) as [IHb IHa].
    cbn [split_aux collapse_runs]. destruct (is_space c) eqn:E.
    + split; [done|]. intros w Hw. destruct w as [|a w]; [done|].
      assert (split_aux [] s <> []) as Hne.
      { intros Es. destruct (split_aux_nil _ _ Es) as [_ Hall].
        destruct s as [|x s'].
        - specialize (Hc [] c eq_refl). congruence.
        - by apply (all_space_not_clean (x :: s') ltac:(done) Hall),
            (clean_end_tail c). }
      rewrite join_cons by done. by rewrite IHb.
    + split.
      * by rewrite (IHa [c]).
      * intros w Hw. rewrite (IHa (c :: w)) by done. simpl.
        by rewrite <- app_assoc.
Qed.

Lemma collapse_runs_clean_start (s : text) :
  clean_start s -> collapse_runs true s = collapse_runs false s.
Proof.
  destruct s as [|c s]; [done|]. intros H. simpl.
  by rewrite (H c s eq_refl).
Qed.

(** The way the code cleans a description is the normalisation of the
    specification. *)
Lemma join_split_strip (s : text) :
  join (str " ") (split (strip s)) = normalize_ws s.
Proof.
  unfold split, normalize_ws. destruct (strip_clean s) as [H1 H2].
  destruct (join_split_aux _ H2) as [-> _].
  by apply collapse_runs_clean_start.
Qed.

(** ** [find] *)

Lemma starts_with_occurs (t sub : text) e :
  starts_with sub (drop e t) = true <-> occurs_at t sub e.
Proof.
  unfold occurs_at, slice. replace (e + length sub - e) with (length sub) by lia.
  split; [apply starts_with_take|].
  intros H. rewrite <- (take_drop (length sub) (drop e t)), H.
  apply starts_with_app.
Qed.

Lemma find_aux_some (sub : text) : forall (s : text) i e,
  find_aux sub s i = Some e ->
  i <= e /\ starts_with sub (drop (e - i) s) = true
  /\ forall e', i <= e' < e -> starts_with sub (drop (e' - i) s) = false.
Proof.
  induction s as [|a s IH]; intros i e; simpl.
  - destruct (starts_with sub []) eqn:E; [|discriminate].
    intros [= <-]. rewrite Nat.sub_diag. simpl.
    split; [lia|]. split; [done|]. intros; lia.
  - destruct (starts_with sub (a :: s)) eqn:E.
    + intros [= <-]. rewrite Nat.sub_diag. simpl.
      split; [lia|]. split; [done|]. intros; lia.
    + intros H. apply IH in H as (H1 & H2 & H3).
      split; [lia|]. split.
      * replace (e - i) with (S (e - S i)) by lia. done.
      * intros e' He'. destruct (decide (e' = i)) as [-> | Hne].
        -- by rewrite Nat.sub_diag.
        -- replace (e' - i) with (S (e' - S i)) by lia. simpl.
           apply H3. lia.
Qed.

Lemma find_aux_none (sub : text) : forall (s : text) i,
  find_aux sub s i = None -> forall k, starts_with sub (drop k s) = false.
Proof.
  induction s as [|a s IH]; intros i; simpl.
  - destruct (starts_with sub []) eqn:E; [discriminate|].
    intros _ k. by rewrite drop_nil.
  - destruct (starts_with sub (a :: s)) eqn:E; [discriminate|].
    intros H [|k]; [done|]. simpl. by apply (IH (S i)).
Qed.

Lemma find_first (t sub : text) start e :
  find t sub start = Some e -> first_occurrence t sub start e.
Proof.
  unfold find. destruct (Nat.ltb_spec (length t) start); [discriminate|].
  intros H0. apply find_aux_some in H0 as (H1 & H2 & H3).
  rewrite drop_drop in H2. replace (start + (e - start)) with e in H2 by lia.
  split; [done|]. split; [by apply starts_with_occurs|].
  intros e' He' Ho. apply starts_with_occurs in Ho.
  specialize (H3 e' He'). rewrite drop_drop in H3.
  replace (start + (e' - start)) with e' in H3 by lia. congruence.
Qed.

Lemma find_absent (t sub : text) start :
  find t sub start = None -> start <= length t ->
  forall e, start <= e -> ~ occurs_at t sub e.
Proof.
  unfold find. destruct (Nat.ltb_spec (length t) start); [lia|].
  intros H0 _ e He Ho. apply starts_with_occurs in Ho.
  pose proof (find_aux_none _ _ _ H0 (e - start)) as Hn.
  rewrite drop_drop in Hn. replace (start + (e - start)) with e in Hn by lia.
  congruence.
Qed.

End PyFacts.

(* ===================================================================== *)
(** * Facts about the application *)
(* ===================================================================== *)

Module AppFacts.

Import Py Re App Spec Shapes Samples ReFacts PyFacts.

(** ** The matches of [finditer] *)

Lemma finditer_loop_chain r t : forall fuel ma pos,
  chain t r pos (finditer_loop r t ma pos fuel).
Proof.
  induction fuel as [|fuel IH]; simpl; intros ma pos; [done|].
  destruct (search_from r t ma pos) as [m|] eqn:E; [|done].
  apply search_from_some in E as (H1 & H2 & H3 & _). simpl.
  split; [lia|]. split; [lia|]. split; [done|]. split; [done|]. apply IH.
Qed.

Lemma finditer_chain r t : chain t r 0 (finditer r t).
Proof. apply finditer_loop_chain. Qed.

(** The rounds [finditer] is given are enough: more change nothing. *)
Lemma finditer_loop_fuel r t : forall fuel1 fuel2 ma pos,
  2 * (length t - pos) + (if ma : bool then 0 else 1) < fuel1 ->
  2 * (length t - pos) + (if ma : bool then 0 else 1) < fuel2 ->
  finditer_loop r t ma pos fuel1 = finditer_loop r t ma pos fuel2.
Proof.
  induction fuel1 as [|fuel1 IH]; intros fuel2 ma pos H1 H2; [lia|].
  destruct fuel2 as [|fuel2]; [lia|]. simpl.
  destruct (search_from r t ma pos) as [m|] eqn:E; [|done].
  apply search_from_some in E as (L1 & L2 & _ & L3 & _).
  f_equal.
  assert (2 * (length t - m_end m)
          + (if m_end m =? m_start m then 0 else 1)
          < 2 * (length t - pos) + (if ma then 0 else 1)) as Hlt.
  { destruct (Nat.eqb_spec (m_end m) (m_start m)) as [Heq | Hne];
      [|destruct ma; lia].
    destruct (decide (m_start m = pos)) as [Hp | Hp]; [|destruct ma; lia].
    destruct ma; [|lia]. specialize (L3 eq_refl Hp). lia. }
  apply IH; lia.
Qed.

Lemma finditer_fuel r t fuel :
  2 * length t + 1 < fuel -> finditer_loop r t false 0 fuel = finditer r t.
Proof. intros H. apply finditer_loop_fuel; lia. Qed.

Lemma chain_lookup t r : forall ms pos i m,
  chain t r pos ms -> ms !! i = Some m ->
  pos <= m_start m /\ m_start m <= m_end m /\ m_end m <= length t
  /\ matches t r (m_start m) [] (m_end m) (m_caps m)
  /\ (forall m', ms !! (i + 1) = Some m' -> m_end m <= m_start m').
Proof.
  induction ms as [|m0 ms IH]; intros pos i m C L; [done|].
  destruct C as (C1 & C2 & C3 & C4 & C5). destruct i as [|i]; simpl in L.
  - injection L as <-. repeat (split; [done|]).
    intros m' L'. simpl in L'. destruct ms as [|m1 ms']; [done|].
    injection L' as <-. by destruct C5.
  - destruct (IH _ _ _ C5 L) as (I1 & I2 & I3 & I4 & I5).
    split; [lia|]. done.
Qed.

(** The item pattern matches no empty string: a line number has a
    digit. *)
Lemma item_re_nonempty t i cs j cs' : matches t item_re i cs j cs' -> i < j.
Proof.
  intros M. apply matches_min_len in M.
  assert (0 < min_len item_re) by (vm_compute; lia). lia.
Qed.

(** Every group the code reads lies under no optional part of its
    pattern, so [group_str] never stands for a missing group. *)
Lemma groups_always_bound :
  forallb (fun '(r, n) => binds r n)
    [ (quote_re, 1); (quote_re, 2); (customer_re, 1); (contact_re, 1);
      (company_re, 1); (addr_re, 1); (city_re, 1); (city_re, 2);
      (city_re, 3); (valid_re, 1); (item_re, 1); (item_re, 2);
      (item_re, 3); (item_re, 4); (item_re, 5) ] = true.
Proof. reflexivity. Qed.

Lemma item_groups_some t i m n :
  finditer item_re t !! i = Some m -> binds item_re n = true ->
  is_Some (group t m n).
Proof.
  intros Hm Hb.
  destruct (chain_lookup _ _ _ _ _ _ (finditer_chain item_re t) Hm)
    as (_ & _ & _ & M & _).
  destruct (matches_binds _ _ n _ _ _ _ M (or_introl Hb)) as [[a b] Hc].
  unfold group. rewrite Hc. eauto.
Qed.

(** ** Line items *)

Lemma lookup_item t i m :
  finditer item_re t !! i = Some m ->
  extract_line_items t !! i = Some (item_of t (finditer item_re t) i m).
Proof.
  intros H. unfold extract_line_items. by rewrite list_lookup_imap, H.
Qed.

Lemma length_items t :
  length (extract_line_items t) = length (finditer item_re t).
Proof. apply length_imap. Qed.

(** ** What the patterns denote *)

(** Take a [denotes] hypothesis apart along the pattern. *)
Ltac break_denotes :=
  repeat match goal with
    | H : denotes (Seq _ _) _ _ _ _ |- _ =>
        destruct H as (? & ? & ? & -> & ? & ?)
    | H : denotes (Grp _ _) _ _ _ _ |- _ => destruct H as (? & ? & ->)
    | H : denotes (Lit _) _ _ _ _ |- _ => destruct H as (-> & ->)
    | H : denotes Bol _ _ _ _ |- _ => destruct H as (-> & ? & ->)
    | H : denotes (Rep _ _ _ _) _ _ _ _ |- _ => destruct H as (? & ? & ? & ->)
    end.

Lemma some_of_intro c (w : text) : 1 <= length w -> all_in c w -> some_of c w.
Proof. intros H1 H2. split; [|done]. by destruct w; [simpl in H1; lia|]. Qed.

#[local] Hint Resolve some_of_intro : core.

Lemma item_re_denotes pre w gs :
  denotes item_re pre w [] gs ->
  line_start pre
  /\ exists ln id q up tot,
       item_header ln id q up tot w
       /\ gs = [(5, tot); (4, up); (3, q); (2, id); (1, ln)].
Proof.
  unfold item_re, plus, star, exactly. intros D. break_denotes.
  split; [done|]. do 5 eexists. split; [|reflexivity].
  do 6 eexists. split; [simpl; reflexivity|].
  unfold decimal, decimal_frac, amount, integer, whitespace, identifier,
    opt_whitespace, cls_ws, cls_digit in *.
  repeat (split; [solve [auto]|]).
  split; [do 2 eexists; split; [reflexivity|]; split; auto|].
  repeat (split; [solve [auto]|]).
  match goal with H : within (Some 2) _ |- _ => simpl in H end.
  do 2 eexists. split; [reflexivity|].
  split; [auto|]. split; [|lia]. apply some_of_intro; [lia | done].
Qed.

Lemma group_str_lookup t m n :
  group_str t m n = default [] (text_lookup (cap_texts t (m_caps m)) n).
Proof. unfold group_str. by rewrite group_text_lookup. Qed.

(** A match of the item pattern starts a line and reads as a header
    line, with the groups as its five fields. *)
Lemma item_match_header t m :
  m_start m <= length t ->
  matches t item_re (m_start m) [] (m_end m) (m_caps m) ->
  line_start (take (m_start m) t)
  /\ item_header (group_str t m 1) (group_str t m 2) (group_str t m 3)
       (group_str t m 4) (group_str t m 5)
       (slice t (m_start m) (m_end m)).
Proof.
  intros Hs M. apply matches_denotes in M; [|done].
  apply item_re_denotes in M as (L & ln & id & q & up & tot & H & Hg).
  split; [done|]. rewrite !group_str_lookup, Hg. exact H.
Qed.

Lemma text_split3 (t : text) s e :
  s <= e -> t = take s t ++ slice t s e ++ drop e t.
Proof.
  intros H. rewrite app_assoc, <- take_slice by done.
  by rewrite take_drop.
Qed.

(** C2 (as amended). An item comes only from a stretch of the text
    that starts a line and reads: integer line number, white space,
    identifier of uppercase letters, digits, dot and hyphen, white
    space, integer quantity, white space, [EAC], white space, a
    thousands-separated decimal unit price with a fractional part,
    optional white space, [EAC], white space, and a thousands-separated
    decimal with exactly two fractional digits, which is the item's
    total.  What follows the second fractional digit is not looked at. *)
Theorem C2_item_from_header_line (t : text) (it : item) :
  In it (extract_line_items t) ->
  exists pre seg post,
    t = pre ++ seg ++ post /\ line_start pre
    /\ item_header (line_no it) (item_id it) (qty it) (unit_price it)
         (total it) seg.
Proof.
  intros Hin. apply list_elem_of_In in Hin.
  apply elem_of_lookup_imap_1 in Hin as (i & m & -> & Hm).
  destruct (chain_lookup _ _ _ _ _ _ (finditer_chain item_re t) Hm)
    as (_ & H1 & H2 & M & _).
  destruct (item_match_header t m ltac:(lia) M) as [L H].
  exists (take (m_start m) t), (slice t (m_start m) (m_end m)),
    (drop (m_end m) t).
  split; [by apply text_split3|]. split; [done|]. exact H.
Qed.

Lemma C2_item_from_header_line_witness :
  exists it, In it (extract_line_items magfoot_line)
    /\ exists pre seg post,
         magfoot_line = pre ++ seg ++ post /\ line_start pre
         /\ item_header (line_no it) (item_id it) (qty it) (unit_price it)
              (total it) seg.
Proof.
  eexists. split; [vm_compute; left; reflexivity|].
  apply C2_item_from_header_line. vm_compute. left. reflexivity.
Defined.

(** The line [1 A 2 EAC 1.0 EAC 3.123] prints its total with three
    fractional digits, not two, and still yields an item, whose total
    is cut to [3.12]. *)
Lemma C2_counterexample :
  three_digit_total = str "1 A 2 EAC 1.0 EAC " ++ str "3" ++ str "." ++ str "123"
  /\ length (str "123") <> 2
  /\ extract_line_items three_digit_total
     = [ {| line_no := str "1"; item_id := str "A"; qty := str "2";
            unit_price := str "1.0"; total := str "3.12";
            description := str "3" |} ].
Proof.
  split; [reflexivity|]. split; [vm_compute; lia|]. vm_compute. reflexivity.
Qed.

(** ** The header dictionary *)

Lemma lookup_opt1 {A} (o : option A) k1 (v1 : A -> option text)
    (h : header) k :
  k1 <> k ->
  (match o with Some m => <[k1 := v1 m]> h | None => h end) !! k = h !! k.
Proof. intros H. destruct o; [by rewrite lookup_insert_ne | done]. Qed.

Lemma lookup_opt2 {A} (o : option A) k1 k2 (v1 v2 : A -> option text)
    (h : header) k :
  k1 <> k -> k2 <> k ->
  (match o with
   | Some m => <[k2 := v2 m]> (<[k1 := v1 m]> h)
   | None => h
   end) !! k
  = h !! k.
Proof. intros H1 H2. destruct o; [by rewrite !lookup_insert_ne | done]. Qed.

Lemma lookup_opt3 {A} (o : option A) k1 k2 k3 (v1 v2 v3 : A -> option text)
    (h : header) k :
  k1 <> k -> k2 <> k -> k3 <> k ->
  (match o with
   | Some m => <[k3 := v3 m]> (<[k2 := v2 m]> (<[k1 := v1 m]> h))
   | None => h
   end) !! k
  = h !! k.
Proof.
  intros H1 H2 H3. destruct o; [by rewrite !lookup_insert_ne | done].
Qed.

Lemma lookup_if1 (b : bool) k1 v1 (h : header) k :
  k1 <> k -> (if b then <[k1 := v1]> h else h) !! k = h !! k.
Proof. intros H. destruct b; [by rewrite lookup_insert_ne | done]. Qed.

(** Pass over the assignments to other keys. *)
Ltac skip_stages :=
  repeat first
    [ rewrite lookup_opt1 by done | rewrite lookup_opt2 by done
    | rewrite lookup_opt3 by done | rewrite lookup_if1 by done
    | rewrite lookup_insert_ne by done ].

(** The assignment to the key asked for, then the ones before it. *)
Ltac own_stage :=
  skip_stages;
  first
    [ by rewrite lookup_insert_eq
    | match goal with
      | |- context [match ?o with Some _ => _ | None => _ end] =>
          destruct o; [skip_stages; by rewrite lookup_insert_eq | own_stage]
      | |- context [if ?b then _ else _] =>
          destruct b; [skip_stages; by rewrite lookup_insert_eq | own_stage]
      end
    | done ].

(** The entry of every key of the dictionary: what the search of the
    field recovered, and no entry when it recovered nothing, but for
    the two names, which always have an entry. *)
Lemma header_lookup (t : text) (f : field) :
  extract_header_info t !! field_key f = entry t f.
Proof.
  unfold extract_header_info, entry, field_value. fold (scoped t).
  destruct (scoped t); destruct f; cbv zeta; cbn [field_key andb fmap];
    own_stage.
Qed.

(** Reading a field of the dictionary gives what the search of that
    field recovered. *)
Lemma header_field (t : text) (f : field) :
  hget (extract_header_info t) (field_key f) = field_value t f.
Proof.
  unfold hget. rewrite header_lookup. unfold entry.
  destruct f; try done; by destruct (field_value t _).
Qed.

Lemma field_value_not_found (t : text) (f : field) :
  field_found t f = false -> field_value t f = None.
Proof.
  unfold field_found, field_value, found.
  destruct f; cbv zeta; destruct (scoped t); cbn [andb];
    try (destruct (search _ _)); try (destruct (contains _ _)); done.
Qed.

(** C6. When the search that recovers a header field finds no match,
    the field is left unset in the dictionary [extract_header_info]
    returns: reading it gives [None], and no placeholder value is
    stored for it.  The key itself is absent, but for FirstName and
    LastName, whose keys are always there and then hold [None]. *)
Theorem C6_unmatched_field_unset (t : text) (f : field) :
  field_found t f = false ->
  hget (extract_header_info t) (field_key f) = None
  /\ extract_header_info t !! field_key f
     = match f with
       | FFirstName | FLastName => Some None
       | _ => None
       end.
Proof.
  intros H. apply field_value_not_found in H.
  split; [by rewrite header_field|].
  rewrite header_lookup. unfold entry. rewrite H. by destruct f.
Qed.

Lemma C6_unmatched_field_unset_witness :
  field_found magfoot_line FCompany = false
  /\ hget (extract_header_info magfoot_line) (field_key FCompany) = None.
Proof.
  split; [vm_compute; reflexivity|].
  apply C6_unmatched_field_unset. vm_compute. reflexivity.
Defined.

(** The keys [FirstName] and [LastName] are assigned on every path, so
    they are always in the dictionary, holding [None] when no contact
    is found. *)
Lemma names_always_assigned (t : text) :
  extract_header_info t !! "FirstName"
  = Some (contact_names t (search contact_re t)).1
  /\ extract_header_info t !! "LastName"
     = Some (contact_names t (search contact_re t)).2.
Proof.
  split; [apply (header_lookup t FFirstName) | apply (header_lookup t FLastName)].
Qed.

Lemma first_occurrence_find (t sub : text) e :
  first_occurrence t sub 0 e -> find t sub 0 = Some e.
Proof.
  intros (_ & Ho & Hmin). destruct (find t sub 0) as [e'|] eqn:E.
  - apply find_first in E as (_ & Ho' & Hmin'). f_equal.
    destruct (Nat.lt_trichotomy e' e) as [Hlt | [-> | Hgt]]; [|done|].
    + exfalso. apply (Hmin e'); [lia | done].
    + exfalso. apply (Hmin' e); [lia | done].
  - exfalso. apply (find_absent _ _ _ E ltac:(lia) e); [lia | done].
Qed.

(** C9. When both markers occur and the first [Quote Good Through]
    stands before the first [Quoted For:], the scoped address block is
    the empty string, and Company, Address, City, State, ZipCode and
    Country are all left unset: their keys are not in the dictionary. *)
Theorem C9_swapped_markers (t : text) (s e : nat) :
  first_occurrence t quoted_for 0 s ->
  first_occurrence t quote_good_through 0 e ->
  e < s ->
  addr_block t = []
  /\ extract_header_info t !! "Company" = None
  /\ extract_header_info t !! "Address" = None
  /\ extract_header_info t !! "City" = None
  /\ extract_header_info t !! "State" = None
  /\ extract_header_info t !! "ZipCode" = None
  /\ extract_header_info t !! "Country" = None.
Proof.
  intros Hs He Hlt.
  apply first_occurrence_find in Hs. apply first_occurrence_find in He.
  assert (addr_block t = []) as Hb.
  { unfold addr_block, index. rewrite Hs, He. simpl. unfold slice.
    by replace (e - s) with 0 by lia. }
  split; [done|].
  pose proof (header_lookup t FCompany) as H1.
  pose proof (header_lookup t FAddress) as H2.
  pose proof (header_lookup t FCity) as H3.
  pose proof (header_lookup t FState) as H4.
  pose proof (header_lookup t FZipCode) as H5.
  pose proof (header_lookup t FCountry) as H6.
  unfold entry, field_value in *. cbn [field_key] in *. rewrite Hb in *.
  rewrite H1, H2, H3, H4, H5, H6.
  by destruct (scoped t).
Qed.

Lemma C9_swapped_markers_witness :
  first_occurrence markers_swapped quoted_for 0 30
  /\ first_occurrence markers_swapped quote_good_through 0 0
  /\ 0 < 30
  /\ addr_block markers_swapped = []
  /\ extract_header_info markers_swapped !! "Address" = None.
Proof.
  assert (first_occurrence markers_swapped quoted_for 0 30) as H1
    by (apply find_first; vm_compute; reflexivity).
  assert (first_occurrence markers_swapped quote_good_through 0 0) as H2
    by (apply find_first; vm_compute; reflexivity).
  assert (0 < 30) as H3 by lia.
  pose proof (C9_swapped_markers markers_swapped 30 0 H1 H2 H3) as H.
  split; [exact H1|]. split; [exact H2|]. split; [exact H3|].
  split; [exact (proj1 H)|]. exact (proj1 (proj2 (proj2 H))).
Defined.

(** ** The street address *)

Lemma some_of_length c (w : text) : some_of c w -> 1 <= length w.
Proof. intros [H _]. destruct w; [done | simpl; lia]. Qed.

Lemma numeric_run_intro c (d w s : text) :
  3 <= length d -> length d <= 6 -> all_in is_digit d ->
  1 <= length w -> all_in is_space w -> 1 <= length s -> all_in c s ->
  numeric_run c (d ++ w ++ s).
Proof.
  intros. exists d, w, s. split; [done|]. split; [lia|]. split; [done|].
  split; by apply some_of_intro.
Qed.

Lemma addr_re_denotes pre w gs :
  denotes addr_re pre w [] gs ->
  exists g1 ws g2,
    w = g1 ++ ws ++ g2 /\ numeric_run cls_street1 g1 /\ whitespace ws
    /\ numeric_run cls_street2 g2 /\ gs = [(1, g1)].
Proof.
  unfold addr_re, plus, plus_lazy, between. intros D. break_denotes.
  repeat match goal with H : within (Some _) _ |- _ => simpl in H end.
  unfold cls_ws, cls_digit in *.
  do 3 eexists. split; [reflexivity|].
  split; [by apply numeric_run_intro|].
  split; [unfold whitespace; auto|].
  split; [|reflexivity]. by apply numeric_run_intro.
Qed.

Lemma addr_re_denotes_rev pre g1 ws g2 :
  numeric_run cls_street1 g1 -> whitespace ws ->
  numeric_run cls_street2 g2 ->
  denotes addr_re pre (g1 ++ ws ++ g2) [] [(1, g1)].
Proof.
  intros (d1 & w1 & s1 & -> & Hd1 & Hg1 & Hw1 & Hs1) Hws
    (d2 & w2 & s2 & -> & Hd2 & Hg2 & Hw2 & Hs2).
  pose proof (some_of_length _ _ Hw1). pose proof (some_of_length _ _ Hs1).
  pose proof (some_of_length _ _ Hws). pose proof (some_of_length _ _ Hw2).
  pose proof (some_of_length _ _ Hs2).
  destruct Hw1 as [_ Hw1], Hs1 as [_ Hs1], Hws as [_ Hws],
    Hw2 as [_ Hw2], Hs2 as [_ Hs2].
  unfold addr_re, plus, plus_lazy, between. cbn [denotes within].
  exists (d1 ++ w1 ++ s1), (ws ++ d2 ++ w2 ++ s2), [(1, d1 ++ w1 ++ s1)].
  split; [done|]. split.
  - exists []. split; [|done].
    exists d1, (w1 ++ s1), []. split; [done|].
    split; [repeat split; done || lia|].
    exists w1, s1, []. repeat split; done || lia.
  - exists ws, (d2 ++ w2 ++ s2), [(1, d1 ++ w1 ++ s1)]. split; [done|].
    split; [repeat split; done || lia|].
    exists d2, (w2 ++ s2), [(1, d1 ++ w1 ++ s1)]. split; [done|].
    split; [repeat split; done || lia|].
    exists w2, s2, [(1, d1 ++ w1 ++ s1)]. repeat split; done || lia.
Qed.

(** [re.search] finds a match wherever one can be found, and the one
    it returns starts no later than any other. *)
Lemma search_leftmost r (t : text) i j cs :
  i <= length t -> matches t r i [] j cs ->
  exists m, search r t = Some m /\ m_start m <= i.
Proof.
  intros Hi M. unfold search. destruct (search_from r t false 0) as [m|] eqn:E.
  - exists m. split; [done|].
    apply search_from_some in E as (_ & _ & _ & _ & Hleft).
    destruct (Nat.le_gt_cases (m_start m) i) as [Hle | Hgt]; [done|].
    destruct (Hleft i j cs ltac:(lia) M) as [? _]. discriminate.
  - exfalso. by apply (search_from_none _ _ _ E i j cs ltac:(lia)).
Qed.

Lemma search_sound r (t : text) m :
  search r t = Some m ->
  m_start m <= m_end m /\ m_end m <= length t
  /\ denotes r (take (m_start m) t) (slice t (m_start m) (m_end m)) []
       (cap_texts t (m_caps m)).
Proof.
  intros E. apply search_from_some in E as (H1 & H2 & M & _).
  split; [lia|]. split; [done|].
  by apply (matches_denotes t r (m_start m) []); [lia|].
Qed.

(** In a block that holds a pair of numeric-led runs the address
    pattern finds a match, which starts no later than the pair. *)
Lemma addr_search_pair (blk pre g1 : text) :
  address_pair blk pre g1 ->
  exists m, search addr_re blk = Some m /\ m_start m <= length pre.
Proof.
  intros (w & g2 & post & Hb & R1 & Hw & R2).
  pose proof (addr_re_denotes_rev pre g1 w g2 R1 Hw R2) as D.
  destruct (denotes_matches _ _ _ _ _ D post []) as [cs M].
  rewrite <- !app_assoc in M. rewrite <- Hb in M.
  assert (length pre <= length blk) as Hpre
    by (rewrite Hb, length_app; lia).
  exact (search_leftmost addr_re blk _ _ _ Hpre M).
Qed.

(** What the address pattern finds is a pair of numeric-led runs, and
    its group is the first run of the pair. *)
Lemma addr_search_sound (blk : text) m :
  search addr_re blk = Some m ->
  address_pair blk (take (m_start m) blk) (group_str blk m 1)
  /\ length (take (m_start m) blk) = m_start m.
Proof.
  intros E. destruct (search_sound _ _ _ E) as (L1 & L2 & D).
  apply addr_re_denotes in D as (g1 & ws & g2 & Hseg & R1 & Hw & R2 & Hg).
  rewrite group_str_lookup, Hg. cbn [text_lookup Nat.eqb default].
  split; [|rewrite length_take; lia].
  exists ws, g2, (drop (m_end m) blk).
  split; [|done]. rewrite (text_split3 blk _ _ L1) at 1.
  by rewrite Hseg, <- !app_assoc.
Qed.

Ltac solve_all_in := repeat (constructor; [reflexivity|]); constructor.

Lemma route_quote_pair :
  address_pair (addr_block route_quote)
    (str "Quoted For: ACME Ship To: ACME ") (str "100 Route 222 North").
Proof.
  exists (str " "), (str "100 Route 222 North"), (str " Akron, OH 44306 ").
  split; [vm_compute; reflexivity|].
  assert (forall c, c = cls_street1 \/ c = cls_street2 ->
            numeric_run c (str "100 Route 222 North")) as Hrun.
  { intros c Hc. exists (str "100"), (str " "), (str "Route 222 North").
    split; [reflexivity|]. split; [simpl; lia|]. split; [solve_all_in|].
    split; (split; [done|]); [solve_all_in|].
    destruct Hc as [-> | ->]; solve_all_in. }
  split; [apply Hrun; by left|]. split; [|apply Hrun; by right].
  split; [done | solve_all_in].
Qed.

(** C5. The claim fails on the code.  The block of [route_quote] holds
    the numeric-led run [100 Route 222 North] followed across white
    space by a second numeric-led run, the same address printed again,
    and the comment above the search says the first address is taken;
    yet Address is [100 Route]: the lazy group stops before [222],
    which the rest of the pattern takes for the number that leads the
    second run. *)
Theorem C5_address_cut_short :
  scoped route_quote = true
  /\ address_pair (addr_block route_quote)
       (str "Quoted For: ACME Ship To: ACME ") (str "100 Route 222 North")
  /\ hget (extract_header_info route_quote) "Address"
     = Some (str "100 Route")
  /\ str "100 Route" <> str "100 Route 222 North".
Proof.
  split; [vm_compute; reflexivity|]. split; [apply route_quote_pair|].
  split; [vm_compute; reflexivity|]. discriminate.
Qed.

(** ** The examples of the specification *)

Lemma header_example_fields :
  map (hget (extract_header_info header_example))
    ["QuoteNumber"; "QuoteDate"; "CustomerNumber"; "FirstName"; "LastName";
     "Company"; "QuoteValidDate"]
  = [Some (str "120987"); Some (str "11/24/2025"); Some (str "100725");
     Some (str "Mike"); Some (str "Shafer"); None; None].
Proof. vm_compute. reflexivity. Qed.

(** With no match of the item pattern the result is the empty list. *)
Lemma no_match_no_item (t : text) :
  finditer item_re t = [] -> extract_line_items t = [].
Proof. unfold extract_line_items. by intros ->. Qed.


(** C3. From the line [1 HW.MAGFOOT-170 27 EAC 3,600.00000EAC
    97,200.00] extraction yields exactly one item, with line number
    [1], identifier [HW.MAGFOOT-170], quantity [27], unit price
    [3,600.00000] and total [97,200.00]; in the row built from it the
    unit price is the float 3600.0 and the total the float 97200.0. *)
Theorem C3_magfoot_example :
  extract_line_items magfoot_line
  = [ {| line_no := str "1"; item_id := str "HW.MAGFOOT-170";
         qty := str "27"; unit_price := str "3,600.00000";
         total := str "97,200.00"; description := [] |} ]
  /\ (forall h filename rm re br,
        map (fun r => (UnitPrice r, TotalSales r))
          (map (row_of h filename rm re br) (extract_line_items magfoot_line))
        = [(Some (PyFloat.of_Z 3600), Some (PyFloat.of_Z 97200))])
  /\ (forall filename rm re br,
        exists r, build_rows_for_pdf magfoot_pdf filename rm re br = Ok [r]
          /\ r_item_id r = str "HW.MAGFOOT-170"
          /\ UnitPrice r = Some (PyFloat.of_Z 3600)
          /\ TotalSales r = Some (PyFloat.of_Z 97200))
  /\ PyFloat.to_Z (PyFloat.of_Z 3600) = Some 3600%Z
  /\ PyFloat.to_Z (PyFloat.of_Z 97200) = Some 97200%Z.
Proof.
  assert (extract_line_items magfoot_line
          = [ {| line_no := str "1"; item_id := str "HW.MAGFOOT-170";
                 qty := str "27"; unit_price := str "3,600.00000";
                 total := str "97,200.00"; description := [] |} ]) as E
    by (vm_compute; reflexivity).
  split; [exact E|]. split; [|split; [|split]].
  - intros. rewrite E. vm_compute. reflexivity.
  - intros. eexists. split; [|split; [|split]].
    + unfold build_rows_for_pdf, magfoot_pdf, extract_full_text, bind.
      cbn [pages_text bind default].
      replace (extract_line_items ([] ++ magfoot_line ++ newline))
        with [ {| line_no := str "1"; item_id := str "HW.MAGFOOT-170";
                  qty := str "27"; unit_price := str "3,600.00000";
                  total := str "97,200.00"; description := [] |} ]
        by (vm_compute; reflexivity).
      reflexivity.
    + reflexivity.
    + vm_compute. reflexivity.
    + vm_compute. reflexivity.
  - vm_compute. reflexivity.
  - vm_compute. reflexivity.
Qed.

(** ** The text of a document *)

Lemma pages_text_ok (texts : list (option text)) : forall acc,
  pages_text acc (map Ok texts)
  = Ok (acc ++ concat (map (fun x => default [] x ++ newline) texts)).
Proof.
  induction texts as [|x texts IH]; intros acc; simpl.
  - by rewrite app_nil_r.
  - rewrite IH. by rewrite <- !app_assoc.
Qed.

Lemma concat_terminated (x : text) (xs : list text) :
  concat (map (fun s => s ++ newline) (x :: xs))
  = join newline (x :: xs) ++ newline.
Proof.
  revert x. induction xs as [|y xs IH]; intros x.
  - simpl. by rewrite app_nil_r.
  - change (concat (map (fun s => s ++ newline) (x :: y :: xs)))
      with ((x ++ newline) ++ concat (map (fun s => s ++ newline) (y :: xs))).
    rewrite IH, (join_cons newline x (y :: xs)) by done.
    by rewrite <- !app_assoc.
Qed.

(** C7 (as amended). When no page raises, the text of a document is
    the texts of its pages in page order, the empty string for a page
    without text, each followed by a newline: with at least one page
    it is the pages' texts joined by newlines plus one newline at the
    end, and with no page it is the empty string. *)
Theorem C7_full_text_newline_terminated :
  (forall texts : list (option text),
     extract_full_text (Ok (map Ok texts))
     = Ok (concat (map (fun x => default [] x ++ newline) texts)))
  /\ (forall (x : option text) (texts : list (option text)),
        extract_full_text (Ok (map Ok (x :: texts)))
        = Ok (join newline (map (default []) (x :: texts)) ++ newline))
  /\ extract_full_text (Ok []) = Ok [].
Proof.
  assert (forall texts : list (option text),
            extract_full_text (Ok (map Ok texts))
            = Ok (concat (map (fun x => default [] x ++ newline) texts)))
    as H by (intros; apply pages_text_ok).
  split; [exact H|]. split; [|done].
  intros x texts. rewrite H. f_equal.
  cbn [map]. rewrite <- concat_terminated. cbn [map concat].
  by rewrite map_map.
Qed.

(** Two pages [a] and [b] give [a\nb\n], which is not the two texts
    joined by a newline, and a single page without text gives a
    newline, not the empty string. *)
Lemma C7_counterexample :
  extract_full_text (Ok [Ok (Some (str "a")); Ok (Some (str "b"))])
  = Ok (str "a" ++ newline ++ str "b" ++ newline)
  /\ extract_full_text (Ok [Ok (Some (str "a")); Ok (Some (str "b"))])
     <> Ok (join newline [str "a"; str "b"])
  /\ extract_full_text (Ok [Ok None]) = Ok newline.
Proof. split; [done|]. split; [|done]. vm_compute. discriminate. Qed.

(** ** Rows of a document *)

(** C10. For a document whose text is extracted, whatever the
    run-level parameters, [build_rows_for_pdf] returns exactly one row
    per extracted line item, in order, each carrying the item's
    identifier and description and the file name in its PDF field;
    when no header field is found the rows are still there, with the
    header fields [None]. *)
Theorem C10_one_row_per_item (pdf_bytes : pdf) (filename : text)
    (rm : option text) (re br : text) (t : text) :
  extract_full_text pdf_bytes = Ok t ->
  exists rows,
    build_rows_for_pdf pdf_bytes filename rm re br = Ok rows
    /\ length rows = length (extract_line_items t)
    /\ (forall i it, extract_line_items t !! i = Some it ->
          exists r, rows !! i = Some r /\ r_item_id r = item_id it
                    /\ r_item_desc r = description it)
    /\ Forall (fun r => PDF r = filename) rows
    /\ ((forall f, field_found t f = false) ->
        Forall (fun r =>
                  QuoteNumber r = None /\ QuoteDate r = None
                  /\ Company r = None /\ FirstName r = None
                  /\ LastName r = None /\ Address r = None
                  /\ City r = None /\ State r = None /\ ZipCode r = None
                  /\ Country r = None /\ QuoteValidDate r = None
                  /\ CustomerNumber r = None) rows).
Proof.
  intros E. unfold build_rows_for_pdf. rewrite E. cbn [bind].
  eexists. split; [reflexivity|]. split; [by rewrite length_map|].
  split; [|split].
  - intros i it Hi.
    exists (row_of (extract_header_info t) filename rm re br it).
    split; [|done].
    change (map ?f ?l) with (f <$> l). by rewrite list_lookup_fmap, Hi.
  - apply List.Forall_forall. intros r Hr. apply in_map_iff in Hr as (it & <- & _).
    done.
  - intros Hnone. apply List.Forall_forall. intros r Hr.
    apply in_map_iff in Hr as (it & <- & _). cbn.
    assert (forall f, hget (extract_header_info t) (field_key f) = None)
      as Hf by (intros f; rewrite header_field;
                apply field_value_not_found, Hnone).
    repeat split;
      [ apply (Hf FQuoteNumber) | apply (Hf FQuoteDate) | apply (Hf FCompany)
      | apply (Hf FFirstName) | apply (Hf FLastName) | apply (Hf FAddress)
      | apply (Hf FCity) | apply (Hf FState) | apply (Hf FZipCode)
      | apply (Hf FCountry) | apply (Hf FQuoteValidDate)
      | apply (Hf FCustomerNumber) ].
Qed.

Lemma C10_one_row_per_item_witness :
  extract_full_text magfoot_pdf = Ok (magfoot_line ++ newline)
  /\ exists rows,
       build_rows_for_pdf magfoot_pdf (str "a.pdf") None [] [] = Ok rows
       /\ length rows = length (extract_line_items (magfoot_line ++ newline))
       /\ Forall (fun r => PDF r = str "a.pdf") rows.
Proof.
  assert (extract_full_text magfoot_pdf = Ok (magfoot_line ++ newline)) as H
    by reflexivity.
  split; [exact H|].
  destruct (C10_one_row_per_item magfoot_pdf (str "a.pdf") None [] [] _ H)
    as (rows & H1 & H2 & _ & H3 & _).
  exists rows. split; [exact H1|]. split; [exact H2 | exact H3].
Defined.

(** ** The batch *)

Lemma fold_process_one rm re br (files : list upload) : forall st,
  fold_left (process_one rm re br) files st
  = {| all_rows := all_rows st ++ concat (map (rows_of rm re br) files);
       warnings := warnings st ++ concat (map (warnings_of rm re br) files) |}.
Proof.
  induction files as [|f files IH]; intros [rows ws]; simpl.
  - by rewrite !app_nil_r.
  - rewrite IH. unfold process_one, rows_of, warnings_of.
    destruct (build_rows_for_pdf (content f) (name f) rm re br); simpl;
      by rewrite <- ?app_assoc, ?app_nil_r.
Qed.

Lemma batch_rows rm re br files :
  all_rows (process_batch rm re br files)
  = concat (map (rows_of rm re br) files).
Proof. unfold process_batch. by rewrite fold_process_one. Qed.

Lemma batch_warnings rm re br files :
  warnings (process_batch rm re br files)
  = concat (map (warnings_of rm re br) files).
Proof. unfold process_batch. by rewrite fold_process_one. Qed.

(** C8. When processing one file of a batch raises, the exception is
    caught: the file adds no row and one warning that names it, and
    the rows of the files before and after it are gathered as without
    it, in upload order. *)
Theorem C8_failure_isolated (rm : option text) (re br : text)
    (pre post : list upload) (f : upload) (e : exn) :
  build_rows_for_pdf (content f) (name f) rm re br = Raise e ->
  all_rows (process_batch rm re br (pre ++ f :: post))
  = all_rows (process_batch rm re br pre)
    ++ all_rows (process_batch rm re br post)
  /\ warnings (process_batch rm re br (pre ++ f :: post))
     = warnings (process_batch rm re br pre)
       ++ [str "Error processing " ++ name f ++ str ": " ++ msg e]
       ++ warnings (process_batch rm re br post)
  /\ (forall files,
        all_rows (process_batch rm re br files)
        = concat (map (rows_of rm re br) files)).
Proof.
  intros E. rewrite !batch_rows, !batch_warnings.
  rewrite !map_app, !concat_app. cbn [map concat].
  unfold rows_of at 2. unfold warnings_of at 2. rewrite E.
  split; [done|]. split; [done | apply batch_rows].
Qed.

(** With 1 to 100 uploads the button runs the loop over all of them. *)
Lemma on_process_runs_loop rm re br (files : list upload) :
  1 <= length files <= 100 ->
  on_process rm re br files = Processed (process_batch rm re br files).
Proof.
  intros H. unfold on_process. destruct files as [|f files]; [simpl in H; lia|].
  destruct (Nat.ltb_spec 100 (length (f :: files))); [lia | done].
Qed.

Lemma C8_failure_isolated_witness :
  build_rows_for_pdf broken_pdf (str "b.pdf") None [] []
  = Raise {| msg := str "No /Root object! - Is this really a PDF?" |}
  /\ length (all_rows (process_batch None [] [] batch_of_three)) = 3
  /\ warnings (process_batch None [] [] batch_of_three)
     = [str "Error processing b.pdf: No /Root object! - Is this really a PDF?"].
Proof.
  assert (build_rows_for_pdf broken_pdf (str "b.pdf") None [] []
          = Raise {| msg := str "No /Root object! - Is this really a PDF?" |})
    as H by reflexivity.
  split; [exact H|].
  destruct (C8_failure_isolated None [] []
              [ {| name := str "a.pdf"; content := magfoot_pdf |} ]
              [ {| name := str "c.pdf";
                   content := Ok [Ok (Some two_items)] |} ]
              {| name := str "b.pdf"; content := broken_pdf |} _ H)
    as (H1 & H2 & _).
  split.
  - change batch_of_three
      with ([ {| name := str "a.pdf"; content := magfoot_pdf |} ]
            ++ {| name := str "b.pdf"; content := broken_pdf |}
            :: [ {| name := str "c.pdf";
                    content := Ok [Ok (Some two_items)] |} ]).
    rewrite H1. vm_compute. reflexivity.
  - change batch_of_three
      with ([ {| name := str "a.pdf"; content := magfoot_pdf |} ]
            ++ {| name := str "b.pdf"; content := broken_pdf |}
            :: [ {| name := str "c.pdf";
                    content := Ok [Ok (Some two_items)] |} ]).
    rewrite H2. vm_compute. reflexivity.
Defined.

(** ** Building a reading of a pattern *)

Lemma denotes_seq r1 r2 pre (w1 w2 : text) gs gm gs' :
  denotes r1 pre w1 gs gm -> denotes r2 (pre ++ w1) w2 gm gs' ->
  denotes (r1 +++ r2) pre (w1 ++ w2) gs gs'.
Proof. intros H1 H2. cbn [denotes]. by exists w1, w2, gm. Qed.

Lemma denotes_grp n r pre (w : text) gs g1 :
  denotes r pre w gs g1 -> denotes (Grp n r) pre w gs ((n, w) :: g1).
Proof. intros H. cbn [denotes]. by exists g1. Qed.

Lemma denotes_plus c pre (w : text) gs :
  some_of c w -> denotes (plus c) pre w gs gs.
Proof.
  intros H. pose proof (some_of_length _ _ H). destruct H as [_ H].
  unfold plus. cbn [denotes within]. done.
Qed.

Lemma denotes_star c pre (w : text) gs :
  all_in c w -> denotes (star c) pre w gs gs.
Proof.
  intros H. unfold star. cbn [denotes within]. repeat split; done || lia.
Qed.

Lemma denotes_lit s pre gs : denotes (Lit s) pre s gs gs.
Proof. done. Qed.

Lemma item_re_denotes_rev pre ln id q up tot seg :
  line_start pre -> item_header ln id q up tot seg ->
  exists gs, denotes item_re pre seg [] gs.
Proof.
  intros L (w1 & w2 & w3 & w4 & w5 & w6 & -> & Hln & H1 & Hid & H2 & Hq & H3
            & H4 & (a1 & f1 & -> & Ha1 & Hf1) & H5 & H6
            & (a2 & f2 & -> & Ha2 & Hf2 & Hl2)).
  eexists. unfold item_re.
  apply (denotes_seq Bol _ pre [] _ [] []); [done|].
  apply denotes_seq with (gm := [(1, ln)]);
    [by apply denotes_grp, denotes_plus|].
  eapply denotes_seq; [by apply denotes_plus|].
  eapply denotes_seq; [by apply denotes_grp, denotes_plus|].
  eapply denotes_seq; [by apply denotes_plus|].
  eapply denotes_seq; [by apply denotes_grp, denotes_plus|].
  eapply denotes_seq; [by apply denotes_plus|].
  eapply denotes_seq; [apply denotes_lit|].
  eapply denotes_seq; [by apply denotes_plus|].
  eapply denotes_seq.
  { apply denotes_grp. eapply denotes_seq; [by apply denotes_plus|].
    eapply denotes_seq; [apply denotes_lit|]. by apply denotes_plus. }
  eapply denotes_seq; [by apply denotes_star|].
  eapply denotes_seq; [apply denotes_lit|].
  eapply denotes_seq; [by apply denotes_plus|].
  apply denotes_grp. eapply denotes_seq; [by apply denotes_plus|].
  eapply denotes_seq; [apply denotes_lit|].
  destruct Hf2 as [_ Hf2]. unfold exactly. cbn [denotes within].
  repeat split; done || lia.
Qed.

(** ** Words of a text *)

Lemma words_of_space c (s : text) ws :
  is_space c = true -> words_of s ws -> words_of (c :: s) ws.
Proof.
  intros Hc H. destruct H as [sp Hsp | sp w rest ws Hsp Hw Hg H].
  - apply words_end. by constructor.
  - apply (words_next (c :: sp) w rest ws); [by constructor | done..].
Qed.

Lemma words_of_lead (l s : text) ws :
  all_in is_space l -> words_of s ws -> words_of (l ++ s) ws.
Proof.
  induction 1 as [|c l Hc Hl IH]; intros H; [done|].
  simpl. apply words_of_space; [done | by apply IH].
Qed.

Lemma words_of_trail (s r : text) ws :
  words_of s ws -> all_in is_space r -> words_of (s ++ r) ws.
Proof.
  intros H Hr. induction H as [sp Hsp | sp w rest ws Hsp Hw Hg H IH].
  - apply words_end. by apply Forall_app.
  - rewrite <- !app_assoc. apply words_next; [done | done | | done].
    intros c u E. destruct rest as [|c0 rest]; simpl in E.
    + subst r. by inversion Hr.
    + injection E as <- <-. by apply (Hg c0 rest).
Qed.

Lemma words_next_eq (s sp w rest : text) ws :
  s = sp ++ w ++ rest ->
  all_in is_space sp -> word w -> at_gap rest -> words_of rest ws ->
  words_of s (w :: ws).
Proof. intros ->. apply words_next. Qed.

Lemma rev_word (w : text) :
  w <> [] -> Forall (fun c => is_space c = false) w -> word (rev w).
Proof.
  intros Hne Hw. split; [|by apply Forall_rev].
  intros E. apply Hne. apply (f_equal (@rev ascii)) in E.
  by rewrite rev_involutive in E.
Qed.

Lemma split_aux_words_of (s : text) : forall w,
  Forall (fun c => is_space c = false) w ->
  words_of (rev w ++ s) (split_aux w s).
Proof.
  induction s as [|c s IH]; intros w Hw; simpl.
  - destruct w as [|a w]; [apply words_end; constructor|].
    apply (words_next_eq _ [] (rev (a :: w)) []);
      [by rewrite app_nil_l | constructor | by apply rev_word | done |].
    apply words_end. constructor.
  - destruct (is_space c) eqn:Hc.
    + pose proof (words_of_space c s _ Hc (IH [] ltac:(constructor))) as H0.
      destruct w as [|a w]; [exact H0|].
      apply (words_next_eq _ [] (rev (a :: w)) (c :: s));
        [done | constructor | by apply rev_word | | exact H0].
      by intros c' u [= <- <-].
    + specialize (IH (c :: w) ltac:(by constructor)).
      simpl in IH. by rewrite <- app_assoc in IH.
Qed.

Lemma lstrip_parts (s : text) :
  exists l, s = l ++ lstrip s /\ all_in is_space l.
Proof.
  induction s as [|c s (l & E & Hl)];
    [exists []; split; [done | constructor]|].
  simpl. destruct (is_space c) eqn:Hc.
  - exists (c :: l). split; [by rewrite E at 1 | by constructor].
  - exists []. split; [done | constructor].
Qed.

Lemma strip_parts (s : text) :
  exists l r, s = l ++ strip s ++ r /\ all_in is_space l /\ all_in is_space r.
Proof.
  destruct (lstrip_parts s) as (l & E & Hl).
  destruct (lstrip_parts (rev (lstrip s))) as (r & E' & Hr).
  exists l, (rev r). split; [|split; [done | by apply Forall_rev]].
  unfold strip, rstrip. rewrite <- rev_app_distr, <- E', rev_involutive.
  exact E.
Qed.

(** The words [split] gives for the stripped text are the words of the
    text. *)
Lemma words_of_split_strip (s : text) : words_of s (split (strip s)).
Proof.
  destruct (strip_parts s) as (l & r & E & Hl & Hr).
  rewrite E at 1. apply words_of_lead; [done|].
  apply words_of_trail; [|done].
  apply (split_aux_words_of (strip s) []). constructor.
Qed.

Lemma join_spaced (ws : list text) : join (str " ") ws = spaced ws.
Proof.
  induction ws as [|w ws IH]; [done|].
  destruct ws as [|w' ws]; [done|].
  change (join (str " ") (w :: w' :: ws))
    with (w ++ str " " ++ join (str " ") (w' :: ws)).
  by rewrite IH.
Qed.

(** ** A header line has one reading *)

Lemma all_ascii (P : ascii -> bool) :
  forallb (fun n => P (ascii_of_nat n)) (seq 0 256) = true ->
  forall c, P c = true.
Proof.
  intros H c. rewrite forallb_forall in H.
  specialize (H (nat_of_ascii c)). rewrite ascii_nat_embedding in H.
  apply H. apply in_seq. pose proof (nat_ascii_bounded c). lia.
Qed.

(** Two classes that share no character. *)
Lemma apart (c1 c2 : ascii -> bool) :
  forallb (fun n => negb (c1 (ascii_of_nat n) && c2 (ascii_of_nat n)))
    (seq 0 256) = true ->
  forall h, c1 h = true -> c2 h = false.
Proof.
  intros H h H1.
  pose proof (all_ascii (fun a => negb (c1 a && c2 a)) H h) as Hh.
  simpl in Hh. rewrite H1 in Hh. by destruct (c2 h).
Qed.

(** A run of a class is fixed by the text, once what follows does not
    go on with the class. *)
Lemma class_run_inj c (a a' x x' : text) :
  all_in c a -> all_in c a' ->
  (forall h u, x = h :: u -> c h = false) ->
  (forall h u, x' = h :: u -> c h = false) ->
  a ++ x = a' ++ x' -> a = a' /\ x = x'.
Proof.
  intros Ha. revert a'. induction Ha as [|h a Hh Ha IH]; intros a' Ha' Hx Hx' E.
  - destruct Ha' as [|h' a' Hh' Ha']; [done|]. simpl in E.
    rewrite (Hx h' (a' ++ x') E) in Hh'. discriminate.
  - destruct Ha' as [|h' a' Hh' Ha']; simpl in E.
    + rewrite (Hx' h (a ++ x) (eq_sym E)) in Hh. discriminate.
    + injection E as <- E. destruct (IH a' Ha' Hx Hx' E) as [-> ->]. done.
Qed.

Lemma stops_run c c' (w rest : text) :
  (forall h, c' h = true -> c h = false) -> some_of c' w ->
  forall h u, w ++ rest = h :: u -> c h = false.
Proof.
  intros D [Hne Hw] h u E. destruct Hw as [|h' w Hh' Hw]; [done|].
  injection E as <- _. by apply D.
Qed.

Lemma stops_opt c c' (w rest : text) :
  (forall h, c' h = true -> c h = false) -> all_in c' w ->
  (forall h u, rest = h :: u -> c h = false) ->
  forall h u, w ++ rest = h :: u -> c h = false.
Proof.
  intros D Hw Hr h u E. destruct Hw as [|h' w Hh' Hw]; [by apply (Hr h u)|].
  injection E as <- _. by apply D.
Qed.

Lemma space_no_digit h : is_space h = true -> is_digit h = false.
Proof. apply apart. vm_compute. reflexivity. Qed.

Lemma space_no_id h : is_space h = true -> cls_item_id h = false.
Proof. apply apart. vm_compute. reflexivity. Qed.

Lemma id_no_space h : cls_item_id h = true -> is_space h = false.
Proof. apply apart. vm_compute. reflexivity. Qed.

Lemma digit_no_space h : is_digit h = true -> is_space h = false.
Proof. apply apart. vm_compute. reflexivity. Qed.

Lemma amount_no_space h : cls_amount h = true -> is_space h = false.
Proof. apply apart. vm_compute. reflexivity. Qed.

Lemma item_header_inj ln id q up tot seg ln' id' q' up' tot' seg'
    (post post' : text) :
  item_header ln id q up tot seg -> item_header ln' id' q' up' tot' seg' ->
  seg ++ post = seg' ++ post' -> seg = seg'.
Proof.
  intros (w1 & w2 & w3 & w4 & w5 & w6 & -> & Hln & H1 & Hid & H2 & Hq & H3
            & H4 & (a1 & f1 & -> & Ha1 & Hf1) & H5 & H6
            & (a2 & f2 & -> & Ha2 & Hf2 & Hl2))
         (v1 & v2 & v3 & v4 & v5 & v6 & -> & Gln & G1 & Gid & G2 & Gq & G3
            & G4 & (b1 & g1 & -> & Gb1 & Gg1) & G5 & G6
            & (b2 & g2 & -> & Gb2 & Gg2 & Gl2)) E.
  rewrite <- !app_assoc in E.
  apply (class_run_inj is_digit) in E as [-> E];
    [| apply Hln | apply Gln
     | exact (stops_run _ is_space _ _ space_no_digit H1)
     | exact (stops_run _ is_space _ _ space_no_digit G1) ].
  apply (class_run_inj is_space) in E as [-> E];
    [| apply H1 | apply G1
     | exact (stops_run _ cls_item_id _ _ id_no_space Hid)
     | exact (stops_run _ cls_item_id _ _ id_no_space Gid) ].
  apply (class_run_inj cls_item_id) in E as [-> E];
    [| apply Hid | apply Gid
     | exact (stops_run _ is_space _ _ space_no_id H2)
     | exact (stops_run _ is_space _ _ space_no_id G2) ].
  apply (class_run_inj is_space) in E as [-> E];
    [| apply H2 | apply G2
     | exact (stops_run _ is_digit _ _ digit_no_space Hq)
     | exact (stops_run _ is_digit _ _ digit_no_space Gq) ].
  apply (class_run_inj is_digit) in E as [-> E];
    [| apply Hq | apply Gq
     | exact (stops_run _ is_space _ _ space_no_digit H3)
     | exact (stops_run _ is_space _ _ space_no_digit G3) ].
  apply (class_run_inj is_space) in E as [-> E];
    [| apply H3 | apply G3 | by intros h u [= <- _] | by intros h u [= <- _] ].
  apply app_inv_head in E.
  apply (class_run_inj is_space) in E as [-> E];
    [| apply H4 | apply G4
     | exact (stops_run _ cls_amount _ _ amount_no_space Ha1)
     | exact (stops_run _ cls_amount _ _ amount_no_space Gb1) ].
  apply (class_run_inj cls_amount) in E as [-> E];
    [| apply Ha1 | apply Gb1 | by intros h u [= <- _] | by intros h u [= <- _] ].
  apply app_inv_head in E.
  apply (class_run_inj is_digit) in E as [-> E];
    [| apply Hf1 | apply Gg1
     | apply (stops_opt _ is_space); [apply space_no_digit | apply H5 |];
       by intros h u [= <- _]
     | apply (stops_opt _ is_space); [apply space_no_digit | apply G5 |];
       by intros h u [= <- _] ].
  apply (class_run_inj is_space) in E as [-> E];
    [| apply H5 | apply G5 | by intros h u [= <- _] | by intros h u [= <- _] ].
  apply app_inv_head in E.
  apply (class_run_inj is_space) in E as [-> E];
    [| apply H6 | apply G6
     | exact (stops_run _ cls_amount _ _ amount_no_space Ha2)
     | exact (stops_run _ cls_amount _ _ amount_no_space Gb2) ].
  apply (class_run_inj cls_amount) in E as [-> E];
    [| apply Ha2 | apply Gb2 | by intros h u [= <- _] | by intros h u [= <- _] ].
  apply app_inv_head in E.
  apply app_inj_1 in E as [-> _]; [done | lia].
Qed.

(** ** The header lines and the matches of [finditer] *)

Lemma header_at_bounds t s e ln id q up tot :
  header_at t s e ln id q up tot -> s < e /\ e <= length t.
Proof.
  intros (pre & seg & post & -> & <- & <- & _ & H).
  destruct H as (w1 & w2 & w3 & w4 & w5 & w6 & -> & Hln & _).
  pose proof (some_of_length _ _ Hln). rewrite !length_app. lia.
Qed.

Lemma header_at_matches t s e ln id q up tot :
  header_at t s e ln id q up tot -> exists cs, matches t item_re s [] e cs.
Proof.
  intros (pre & seg & post & -> & <- & <- & L & H).
  destruct (item_re_denotes_rev _ _ _ _ _ _ _ L H) as [gs D].
  exact (denotes_matches _ _ _ _ _ D post []).
Qed.

Lemma matches_header_at t m :
  m_start m <= m_end m -> m_end m <= length t ->
  matches t item_re (m_start m) [] (m_end m) (m_caps m) ->
  header_at t (m_start m) (m_end m) (group_str t m 1) (group_str t m 2)
    (group_str t m 3) (group_str t m 4) (group_str t m 5).
Proof.
  intros H1 H2 M. destruct (item_match_header t m ltac:(lia) M) as [L H].
  exists (take (m_start m) t), (slice t (m_start m) (m_end m)),
    (drop (m_end m) t).
  split; [by apply text_split3|].
  split; [rewrite length_take; lia|].
  split; [unfold slice; rewrite length_take, length_drop; lia|]. done.
Qed.

(** The end of a header line is fixed by its start. *)
Lemma header_at_end t s e e' ln id q up tot ln' id' q' up' tot' :
  header_at t s e ln id q up tot -> header_at t s e' ln' id' q' up' tot' ->
  e = e'.
Proof.
  intros (pre & seg & post & -> & <- & <- & _ & H)
         (pre' & seg' & post' & E & Hl & <- & _ & H').
  apply app_inj_1 in E as [<- E]; [|done].
  by rewrite (item_header_inj _ _ _ _ _ _ _ _ _ _ _ _ _ _ H H' E).
Qed.

Lemma header_lines_inj t : forall pos l1 l2,
  header_lines t pos l1 -> header_lines t pos l2 -> l1 = l2.
Proof.
  intros pos l1 l2 H1. revert l2.
  induction H1 as [pos Hno | pos s e ln id q up tot rest Hs Hat Hleft Hrest IH];
    intros l2 H2; inversion H2 as [? Hno' | ? s' e' ln' id' q' up' tot' rest'
                                   Hs' Hat' Hleft' Hrest']; subst.
  - done.
  - exfalso. apply (Hno s' Hs'). by do 6 eexists.
  - exfalso. apply (Hno' s Hs). by do 6 eexists.
  - assert (s = s') as <-.
    { destruct (Nat.lt_trichotomy s s') as [Hlt | [Heq | Hgt]]; [|done|].
      - exfalso. apply (Hleft' s ltac:(lia)). by do 6 eexists.
      - exfalso. apply (Hleft s' ltac:(lia)). by do 6 eexists. }
    rewrite <- (header_at_end _ _ _ _ _ _ _ _ _ _ _ _ _ _ Hat Hat') in *.
    f_equal. by apply IH.
Qed.

Lemma finditer_loop_lines t : forall fuel pos,
  length t - pos < fuel ->
  header_lines t pos
    (map (fun m => (m_start m, m_end m))
       (finditer_loop item_re t false pos fuel)).
Proof.
  induction fuel as [|fuel IH]; intros pos Hf; [lia|]. simpl.
  destruct (search_from item_re t false pos) as [m|] eqn:E.
  - apply search_from_some in E as (H1 & H2 & M & _ & Hleft).
    pose proof (item_re_nonempty _ _ _ _ _ M) as Hne.
    assert ((m_end m =? m_start m) = false) as -> by (apply Nat.eqb_neq; lia).
    simpl. eapply lines_next.
    + lia.
    + apply matches_header_at; [lia | done | done].
    + intros s' Hs' (e' & ln & id & q & up & tot & Hat).
      destruct (header_at_matches _ _ _ _ _ _ _ _ Hat) as [cs M'].
      destruct (Hleft s' e' cs Hs' M') as [? _]. discriminate.
    + apply IH. lia.
  - simpl. apply lines_end.
    intros s Hs (e & ln & id & q & up & tot & Hat).
    destruct (header_at_bounds _ _ _ _ _ _ _ _ Hat) as [B1 B2].
    destruct (header_at_matches _ _ _ _ _ _ _ _ Hat) as [cs M].
    apply (search_from_none _ _ _ E s e cs); [lia | done].
Qed.

(** The header lines of a text are the matches [finditer] returns. *)
Lemma header_lines_finditer t spans :
  header_lines t 0 spans ->
  spans = map (fun m => (m_start m, m_end m)) (finditer item_re t).
Proof.
  intros H. apply (header_lines_inj t 0); [done|].
  apply finditer_loop_lines. lia.
Qed.

Lemma span_lookup t spans i s e :
  header_lines t 0 spans -> spans !! i = Some (s, e) ->
  exists m, finditer item_re t !! i = Some m /\ m_start m = s /\ m_end m = e.
Proof.
  intros H L. rewrite (header_lines_finditer t spans H) in L.
  change (map ?f ?l) with (f <$> l) in L.
  rewrite list_lookup_fmap in L.
  destruct (finditer item_re t !! i) as [m|]; [|done].
  injection L as <- <-. eauto.
Qed.

Lemma slice_stretch (t : text) a b :
  a <= b -> b <= length t -> stretch t a b (slice t a b).
Proof.
  intros H1 H2. exists (take a t), (drop b t).
  split; [by apply text_split3|].
  split; [rewrite length_take; lia|].
  unfold slice. rewrite length_take, length_drop. lia.
Qed.

Lemma description_words t ms i m :
  exists ws,
    words_of (slice t (m_end m) (end_desc t ms i (m_end m))) ws
    /\ description (item_of t ms i m) = spaced ws.
Proof.
  eexists. split; [apply words_of_split_strip|].
  unfold item_of. cbn [description]. apply join_spaced.
Qed.

(** C1. When the text has [N] header lines (stretches that start a
    line and read as a line-item header, taken one after the other),
    [extract_line_items] returns exactly [N] items; item [i] carries
    the fields of header line [i], so the items come in the order of
    the text; and the description of every item that has a successor
    is made of the words of the text strictly between the end of its
    header line and the start of the next, with one blank between each
    two: that text trimmed and every white space run in it collapsed
    to one blank. *)
Theorem C1_items_between_matches (t : text) (N : nat)
    (spans : list (nat * nat)) :
  header_lines t 0 spans -> length spans = N ->
  length (extract_line_items t) = N
  /\ (forall i s e, spans !! i = Some (s, e) ->
        exists it, extract_line_items t !! i = Some it
          /\ header_at t s e (line_no it) (item_id it) (qty it)
               (unit_price it) (total it))
  /\ (forall i s e s' e',
        spans !! i = Some (s, e) -> spans !! (i + 1) = Some (s', e') ->
        s < e /\ e <= s'
        /\ exists it mid ws,
             extract_line_items t !! i = Some it
             /\ stretch t e s' mid /\ words_of mid ws
             /\ description it = spaced ws).
Proof.
  intros H HN. split; [|split].
  - rewrite length_items, <- HN, (header_lines_finditer t spans H).
    by rewrite length_map.
  - intros i s e L.
    destruct (span_lookup t spans i s e H L) as (m & Hm & <- & <-).
    destruct (chain_lookup _ _ _ _ _ _ (finditer_chain item_re t) Hm)
      as (_ & B1 & B2 & M & _).
    eexists. split; [by apply lookup_item|].
    by apply matches_header_at.
  - intros i s e s' e' L L'.
    destruct (span_lookup t spans i s e H L) as (m & Hm & <- & <-).
    destruct (span_lookup t spans (i + 1) s' e' H L') as (m' & Hm' & <- & <-).
    destruct (chain_lookup _ _ _ _ _ _ (finditer_chain item_re t) Hm)
      as (_ & _ & _ & M & Hnext).
    destruct (chain_lookup _ _ _ _ _ _ (finditer_chain item_re t) Hm')
      as (_ & B1 & B2 & _ & _).
    specialize (Hnext m' Hm').
    split; [by apply item_re_nonempty in M|]. split; [done|].
    destruct (description_words t (finditer item_re t) i m) as (ws & W & D).
    unfold end_desc in W. rewrite Hm' in W.
    exists (item_of t (finditer item_re t) i m),
      (slice t (m_end m) (m_start m')), ws.
    split; [by apply lookup_item|].
    split; [apply slice_stretch; lia|]. done.
Qed.


Lemma two_items_lines : header_lines two_items 0 [(0, 32); (53, 76)].
Proof.
  assert ([(0, 32); (53, 76)]
          = map (fun m => (m_start m, m_end m)) (finditer item_re two_items))
    as -> by (vm_compute; reflexivity).
  apply finditer_loop_lines. lia.
Qed.

Lemma C1_items_between_matches_witness :
  header_lines two_items 0 [(0, 32); (53, 76)]
  /\ length (extract_line_items two_items) = 2
  /\ exists it mid ws,
       extract_line_items two_items !! 0 = Some it
       /\ description it = str "first item text"
       /\ stretch two_items 32 53 mid /\ words_of mid ws
       /\ str "first item text" = spaced ws.
Proof.
  split; [exact two_items_lines|].
  destruct (C1_items_between_matches two_items 2 _ two_items_lines eq_refl)
    as (H1 & _ & H3).
  split; [exact H1|].
  destruct (H3 0 0 32 53 76 eq_refl eq_refl)
    as (_ & _ & it & mid & ws & Hit & Hmid & Hws & Hd).
  exists it, mid, ws.
  assert (description it = str "first item text") as Hd'
    by (revert Hit; vm_compute; by intros [= <-]).
  split; [exact Hit|]. split; [exact Hd'|]. split; [exact Hmid|].
  split; [exact Hws|]. by rewrite <- Hd.
Defined.

Lemma occurs_at_bound (t sub : text) e :
  occurs_at t sub e -> sub <> [] -> e + length sub <= length t.
Proof.
  unfold occurs_at, slice. intros H Hne.
  apply (f_equal length) in H. rewrite length_take, length_drop in H.
  destruct sub; [done|]. simpl in *. lia.
Qed.

(** C4. When the text has header lines, the description of the last
    item is made of the words of the text from the end of the last
    header line to the first place at or after that end where
    [Product] stands, when there is one, and to the end of the text
    otherwise. *)
Theorem C4_last_description_end (t : text) (spans : list (nat * nat))
    (s e : nat) :
  header_lines t 0 spans -> last spans = Some (s, e) ->
  exists it stop mid ws,
    last (extract_line_items t) = Some it
    /\ (first_occurrence t (str "Product") e stop
        \/ ((forall e', e <= e' -> ~ occurs_at t (str "Product") e')
            /\ stop = length t))
    /\ stretch t e stop mid /\ words_of mid ws
    /\ description it = spaced ws.
Proof.
  intros H Hl. rewrite last_lookup in Hl.
  destruct (span_lookup t spans _ s e H Hl) as (m & Hm & <- & <-).
  rewrite (header_lines_finditer t spans H), length_map in Hm.
  set (i := Init.Nat.pred (length (finditer item_re t))) in *.
  destruct (chain_lookup _ _ _ _ _ _ (finditer_chain item_re t) Hm)
    as (_ & _ & Hend & _ & _).
  assert (finditer item_re t !! (i + 1) = None) as Hnone.
  { apply lookup_ge_None. apply lookup_lt_Some in Hm. subst i. lia. }
  destruct (description_words t (finditer item_re t) i m) as (ws & W & D).
  unfold end_desc in W. rewrite Hnone in W.
  assert (stop_word = str "Product") as Estop by reflexivity.
  rewrite Estop in W.
  destruct (find t (str "Product") (m_end m)) as [stop|] eqn:E.
  - pose proof (find_first _ _ _ _ E) as F.
    exists (item_of t (finditer item_re t) i m), stop,
      (slice t (m_end m) stop), ws.
    split; [rewrite last_lookup, length_items; by apply lookup_item|].
    split; [by left|]. split; [|done].
    destruct F as (F1 & F2 & _).
    apply occurs_at_bound in F2; [|done].
    apply slice_stretch; lia.
  - exists (item_of t (finditer item_re t) i m), (length t),
      (slice t (m_end m) (length t)), ws.
    split; [rewrite last_lookup, length_items; by apply lookup_item|].
    split; [right; split; [by apply find_absent | done]|].
    split; [|done]. apply slice_stretch; lia.
Qed.

Lemma C4_last_description_end_witness :
  header_lines two_items 0 [(0, 32); (53, 76)]
  /\ exists it stop mid ws,
       last (extract_line_items two_items) = Some it
       /\ description it = str "second"
       /\ first_occurrence two_items (str "Product") 76 stop
       /\ stretch two_items 76 stop mid /\ words_of mid ws
       /\ str "second" = spaced ws.
Proof.
  split; [exact two_items_lines|].
  destruct (C4_last_description_end two_items _ 53 76 two_items_lines
              eq_refl)
    as (it & stop & mid & ws & Hit & Hstop & Hmid & Hws & Hd).
  exists it, stop, mid, ws.
  assert (description it = str "second") as Hd'
    by (revert Hit; vm_compute; by intros [= <-]).
  split; [exact Hit|]. split; [exact Hd'|].
  split.
  { destruct Hstop as [F | [Hno _]]; [exact F|].
    exfalso. apply (Hno 84); [lia|]. vm_compute. reflexivity. }
  split; [exact Hmid|]. split; [exact Hws|]. by rewrite <- Hd.
Defined.

(** [find] looks for the letters [Product], not for a word: a
    description that holds [Products] is cut there, before the summary
    line. *)
Lemma product_inside_a_word :
  map description (extract_line_items products_in_description)
  = [str "Steel"].
Proof. vm_compute. reflexivity. Qed.

End AppFacts.

(* ===================================================================== *)
(** * Further facts about the application *)
(* ===================================================================== *)

Module ExtraFacts.

Import Py Re App Spec Shapes Samples ReFacts PyFacts AppFacts.

(** ** Errors while reading a document *)

Lemma pages_text_raise (texts : list (option text)) e rest : forall acc,
  pages_text acc (map Ok texts ++ Raise e :: rest) = Raise e.
Proof.
  induction texts as [|x texts IH]; intros acc; simpl; [done|]. apply IH.
Qed.

(** X1. When opening the bytes raises, [extract_full_text] raises that
    exception; when a page raises on extraction, it raises the
    exception of the first such page, whatever the pages before gave
    and whatever comes after, and [build_rows_for_pdf] raises the same
    exception. *)
Theorem X1_first_error (texts : list (option text)) (e : exn)
    (rest : list page) (filename : text) (rm : option text) (re br : text) :
  extract_full_text (Raise e) = Raise e
  /\ extract_full_text (Ok (map Ok texts ++ Raise e :: rest)) = Raise e
  /\ build_rows_for_pdf (Ok (map Ok texts ++ Raise e :: rest)) filename rm
       re br = Raise e.
Proof.
  split; [done|].
  assert (extract_full_text (Ok (map Ok texts ++ Raise e :: rest)) = Raise e)
    as H by apply pages_text_raise.
  split; [exact H|]. unfold build_rows_for_pdf. by rewrite H.
Qed.

(** ** Texts without a line item *)

Lemma item_has_digit (t : text) m :
  m_start m <= m_end m -> m_end m <= length t ->
  matches t item_re (m_start m) [] (m_end m) (m_caps m) ->
  ~ digit_free t.
Proof.
  intros H1 H2 M Hfree.
  destruct (item_match_header t m ltac:(lia) M) as [_ H].
  destruct H as (w1 & w2 & w3 & w4 & w5 & w6 & Hseg & [Hne Hd] & _).
  rewrite (text_split3 t _ _ H1), Hseg in Hfree.
  apply Forall_app in Hfree as [_ Hfree].
  apply Forall_app in Hfree as [Hfree _].
  apply Forall_app in Hfree as [Hfree _].
  destruct (group_str t m 1) as [|c ln]; [done|].
  inversion Hd; subst. inversion Hfree; subst. congruence.
Qed.

Lemma digit_free_no_match (t : text) :
  digit_free t -> finditer item_re t = [].
Proof.
  intros Hfree. destruct (finditer item_re t) as [|m ms] eqn:E; [done|].
  exfalso. pose proof (finditer_chain item_re t) as C. rewrite E in C.
  destruct C as (_ & C2 & C3 & C4 & _).
  by apply (item_has_digit t m).
Qed.

Lemma digit_free_pages (texts : list (option text)) :
  Forall (fun x => digit_free (default [] x)) texts ->
  digit_free (concat (map (fun x => default [] x ++ newline) texts)).
Proof.
  induction 1 as [|x texts Hx _ IH]; simpl; [constructor|].
  apply Forall_app. split; [|done]. apply Forall_app. split; [done|].
  repeat constructor.
Qed.

(** X2. A text without any decimal digit has no line item; so a
    document whose pages hold no digit, as when no page has a text
    layer, gives no row and no error. *)
Theorem X2_no_digit_no_row (texts : list (option text)) (filename : text)
    (rm : option text) (re br : text) :
  Forall (fun x => digit_free (default [] x)) texts ->
  build_rows_for_pdf (Ok (map Ok texts)) filename rm re br = Ok []
  /\ (forall t, digit_free t -> extract_line_items t = []).
Proof.
  intros H.
  assert (forall t, digit_free t -> extract_line_items t = []) as Hno.
  { intros t Ht. unfold extract_line_items.
    by rewrite (digit_free_no_match t Ht). }
  split; [|exact Hno].
  unfold build_rows_for_pdf, extract_full_text. cbn [bind].
  rewrite pages_text_ok. cbn [bind app].
  by rewrite (Hno _ (digit_free_pages texts H)).
Qed.

Lemma X2_no_digit_no_row_witness :
  Forall (fun x => digit_free (default [] x)) blank_pages
  /\ build_rows_for_pdf (Ok (map Ok blank_pages)) (str "a.pdf") None [] []
     = Ok [].
Proof.
  assert (Forall (fun x => digit_free (default [] x)) blank_pages) as H
    by (repeat constructor).
  split; [exact H|].
  exact (proj1 (X2_no_digit_no_row blank_pages (str "a.pdf") None [] [] H)).
Defined.

(** ** Words *)

Lemma split_aux_words (s : text) : forall w,
  Forall (fun c => is_space c = false) w -> Forall word (split_aux w s).
Proof.
  assert (forall w, w <> [] -> Forall (fun c => is_space c = false) w ->
            word (rev w)) as Hrev.
  { intros w Hne Hw. split; [|by apply Forall_rev].
    intros E. apply Hne. by rewrite <- (rev_involutive w), E. }
  induction s as [|c s IH]; intros w Hw; simpl.
  - destruct w; [constructor|]. constructor; [by apply Hrev | constructor].
  - destruct (is_space c) eqn:E.
    + destruct w as [|a w]; [by apply IH|].
      constructor; [by apply Hrev|]. by apply IH.
    + apply IH. by constructor.
Qed.

Lemma split_words (s : text) : Forall word (split s).
Proof. apply split_aux_words. constructor. Qed.

(** X3. The description of every extracted item is a row of words,
    none empty and none with white space inside, with exactly one
    blank between two: no blank at either end, no newline, no double
    blank. *)
Theorem X3_description_spaced_words (t : text) (it : item) :
  In it (extract_line_items t) -> spaced_words (description it).
Proof.
  intros Hin. apply list_elem_of_In in Hin.
  apply elem_of_lookup_imap_1 in Hin as (i & m & -> & _).
  unfold item_of. cbn [description]. eexists. split; [apply split_words|done].
Qed.

Lemma X3_description_spaced_words_witness :
  exists it, In it (extract_line_items two_items)
    /\ description it = str "first item text"
    /\ spaced_words (description it).
Proof.
  eexists. split; [vm_compute; left; reflexivity|].
  split; [vm_compute; reflexivity|].
  apply (X3_description_spaced_words two_items). vm_compute. left. reflexivity.
Defined.

(** ** The contact *)

Lemma join_nonempty (p : text) (ps : list text) :
  p <> [] -> join (str " ") (p :: ps) <> [].
Proof. destruct ps; [done|]. simpl. by destruct p. Qed.

(** X7. LastName is set only together with FirstName; FirstName is
    one word, LastName a row of words with single blanks; and the two
    put together with a blank give back the name the contact pattern
    captured, trimmed and with its white space runs collapsed. *)
Theorem X7_contact_names (t : text) :
  let first := hget (extract_header_info t) "FirstName" in
  let last := hget (extract_header_info t) "LastName" in
  (forall l, last = Some l -> exists f, first = Some f)
  /\ (forall f, first = Some f -> word f)
  /\ (forall l, last = Some l -> l <> [] /\ spaced_words l)
  /\ (forall m, search contact_re t = Some m ->
        match first, last with
        | Some f, Some l => f ++ str " " ++ l
        | Some f, None => f
        | None, _ => []
        end = normalize_ws (group_str t m 1)).
Proof.
  intros first last. subst first last.
  pose proof (header_field t FFirstName) as H1.
  pose proof (header_field t FLastName) as H2.
  cbn [field_key] in H1, H2. rewrite H1, H2. clear H1 H2.
  unfold field_value, contact_names.
  destruct (search contact_re t) as [m|] eqn:E; cbn [fst snd].
  2: { split; [|split; [|split]]; done. }
  pose proof (split_words (strip (group_str t m 1))) as Hw.
  pose proof (join_split_strip (group_str t m 1)) as Hj.
  destruct (split (strip (group_str t m 1))) as [|p0 [|p1 ps]] eqn:Es;
    cbn [fst snd tail]; (split; [|split; [|split]]); try done.
  - by intros m' [= <-].
  - intros f [= <-]. by inversion Hw.
  - by intros m' [= <-].
  - intros l _. eauto.
  - intros f [= <-]. by inversion Hw.
  - intros l [= <-]. inversion Hw as [|? ? H0 H1]; subst.
    inversion H1 as [|? ? H2 H3]; subst.
    split; [apply join_nonempty; by destruct H2 | by exists (p1 :: ps)].
  - intros m' [= <-]. rewrite <- Hj. by rewrite (join_cons _ p0 (p1 :: ps)).
Qed.

Lemma X7_contact_names_witness :
  hget (extract_header_info header_example) "LastName" = Some (str "Shafer")
  /\ exists f, hget (extract_header_info header_example) "FirstName" = Some f.
Proof.
  assert (hget (extract_header_info header_example) "LastName"
          = Some (str "Shafer")) as H by (vm_compute; reflexivity).
  split; [exact H|].
  exact (proj1 (X7_contact_names header_example) (str "Shafer") H).
Defined.

(** ** Numbers of a row *)

Lemma digits_from_run (ds : text) : forall acc n (rest : text),
  all_in is_digit ds ->
  (forall c u, rest = c :: u ->
     is_digit c = false /\ Ascii.eqb c "_" = false) ->
  exists v, PyFloat.digits_from acc n (ds ++ rest) = (v, n + length ds, rest).
Proof.
  induction ds as [|d ds IH]; intros acc n rest Hds Hrest.
  - exists acc. rewrite Nat.add_0_r. simpl. destruct rest as [|c u]; [done|].
    destruct (Hrest c u eq_refl) as [H1 H2]. simpl. by rewrite H1, H2.
  - inversion Hds as [|? ? Hd Hds']; subst. simpl. rewrite Hd.
    destruct (IH (acc * 10 + PyFloat.digit_val d)%Z (S n) rest Hds' Hrest)
      as [v Hv].
    exists v. rewrite Hv. f_equal. f_equal. lia.
Qed.

Lemma lstrip_float_head c (s : text) :
  PyFloat.is_float_space c = false -> PyFloat.lstrip_float (c :: s) = c :: s.
Proof. intros H. simpl. by rewrite H. Qed.

Lemma decimal_char_facts c :
  decimal_char c = true ->
  PyFloat.is_float_space c = false /\ Ascii.eqb c "-" = false
  /\ Ascii.eqb c "+" = false /\ Ascii.eqb (PyFloat.lower c) "i" = false
  /\ Ascii.eqb (PyFloat.lower c) "n" = false.
Proof.
  revert c. 
  assert (forallb (fun n => let c := ascii_of_nat n in
            implb (decimal_char c)
              (negb (PyFloat.is_float_space c) && negb (Ascii.eqb c "-")
               && negb (Ascii.eqb c "+")
               && negb (Ascii.eqb (PyFloat.lower c) "i")
               && negb (Ascii.eqb (PyFloat.lower c) "n"))) (seq 0 256) = true)
    as H by (vm_compute; reflexivity).
  intros c Hc. rewrite forallb_forall in H.
  specialize (H (nat_of_ascii c)). rewrite ascii_nat_embedding in H.
  cbv zeta in H. rewrite Hc in H. simpl in H.
  assert (In (nat_of_ascii c) (seq 0 256)) as Hin.
  { apply in_seq. pose proof (nat_ascii_bounded c). lia. }
  specialize (H Hin).
  repeat (apply andb_true_iff in H as [H ?]).
  repeat split; by apply negb_true_iff.
Qed.

Lemma float_decimal (a f : text) :
  all_in is_digit a -> all_in is_digit f -> f <> [] ->
  is_Some (PyFloat.float (a ++ str "." ++ f)).
Proof.
  intros Ha Hf Hne.
  (* first and last character *)
  assert (exists c0 s', a ++ str "." ++ f = c0 :: s' /\ decimal_char c0 = true)
    as (c0 & s' & Hs & Hc0).
  { destruct a as [|c a']; [by exists "."%char, f|].
    exists c, (a' ++ str "." ++ f). split; [done|].
    inversion Ha; subst. unfold decimal_char. by rewrite H1. }
  assert (exists c1 r', rev (a ++ str "." ++ f) = c1 :: r'
                        /\ decimal_char c1 = true) as (c1 & r' & Hr & Hc1).
  { destruct (exists_last Hne) as (f' & c & ->).
    exists c, (rev (a ++ str "." ++ f')). split.
    - rewrite !app_assoc, rev_unit. by rewrite <- !app_assoc.
    - apply Forall_app in Hf as [_ Hc]. inversion Hc; subst.
      unfold decimal_char. by rewrite H1. }
  destruct (decimal_char_facts _ Hc0) as (F1 & F2 & F3 & F4 & F5).
  destruct (decimal_char_facts _ Hc1) as (G1 & _).
  unfold PyFloat.float.
  rewrite Hs, (lstrip_float_head _ _ F1), <- Hs.
  rewrite Hr, (lstrip_float_head _ _ G1), <- Hr, rev_involutive.
  assert (PyFloat.sign_of (a ++ str "." ++ f) = (false, a ++ str "." ++ f))
    as ->.
  { rewrite Hs. simpl. by rewrite F2, F3. }
  assert (PyFloat.text_eqb (map PyFloat.lower (a ++ str "." ++ f)) (str "inf")
          = false) as ->.
  { rewrite Hs. unfold PyFloat.text_eqb. simpl. by rewrite F4. }
  assert (PyFloat.text_eqb (map PyFloat.lower (a ++ str "." ++ f))
            (str "infinity") = false) as ->.
  { rewrite Hs. unfold PyFloat.text_eqb. simpl. by rewrite F4. }
  assert (PyFloat.text_eqb (map PyFloat.lower (a ++ str "." ++ f)) (str "nan")
          = false) as ->.
  { rewrite Hs. unfold PyFloat.text_eqb. simpl. by rewrite F5. }
  cbn [orb].
  destruct (digits_from_run a 0%Z 0 (str "." ++ f) Ha) as [v Hv].
  { intros c u [= <- _]. done. }
  rewrite Hv. cbn [str list_ascii_of_string app].
  replace (Ascii.eqb "." ".") with true by reflexivity.
  destruct (digits_from_run f v 0 [] Hf) as [m Hm]; [done|].
  rewrite app_nil_r in Hm. rewrite Hm.
  assert ((0 + length a + (0 + length f) =? 0) = false) as ->.
  { apply Nat.eqb_neq. destruct f; [done | simpl; lia]. }
  cbn [PyFloat.exponent_of]. eauto.
Qed.

Lemma remove_commas_amount (a : text) :
  all_in cls_amount a -> all_in is_digit (remove_char "," a).
Proof.
  unfold remove_char. induction 1 as [|c a Hc _ IH]; [constructor|].
  unfold cls_amount, is_char in Hc. apply orb_true_iff in Hc as [Hc | Hc].
  - rewrite filter_cons_True; [by constructor|].
    destruct (Ascii.eqb c ",") eqn:E; [|done].
    apply Ascii.eqb_eq in E as ->. discriminate.
  - apply Ascii.eqb_eq in Hc as <-.
    by rewrite filter_cons_False by (cbv; tauto).
Qed.

Lemma remove_commas_digits (f : text) :
  all_in is_digit f -> remove_char "," f = f.
Proof.
  unfold remove_char. induction 1 as [|c f Hc _ IH]; [done|].
  rewrite filter_cons_True; [by rewrite IH|].
  destruct (Ascii.eqb c ",") eqn:E; [|done].
  apply Ascii.eqb_eq in E as ->. discriminate.
Qed.

Lemma float_of_decimal (w : text) :
  decimal w -> is_Some (PyFloat.float (remove_char "," w)).
Proof.
  intros (a & f & -> & [_ Ha] & [Hne Hf]).
  unfold remove_char. rewrite !filter_app.
  fold (remove_char "," a). fold (remove_char "," f).
  rewrite (remove_commas_digits f Hf).
  replace (filter _ (str ".")) with (str ".") by reflexivity.
  by apply float_decimal; [apply remove_commas_amount| |].
Qed.

Lemma decimal_frac_decimal n (w : text) : decimal_frac n w -> decimal w.
Proof. intros (a & f & H1 & H2 & H3 & _). by exists a, f. Qed.

(** X4. In every row [build_rows_for_pdf] returns, UnitPrice and
    TotalSales are numbers: on the price and total of an extracted
    item [float] never raises, so neither is ever left [None]. *)
Theorem X4_prices_always_parse (pdf_bytes : pdf) (filename : text)
    (rm : option text) (re br : text) (rows : list row) :
  build_rows_for_pdf pdf_bytes filename rm re br = Ok rows ->
  Forall (fun r => is_Some (UnitPrice r) /\ is_Some (TotalSales r)) rows.
Proof.
  unfold build_rows_for_pdf.
  destruct (extract_full_text pdf_bytes) as [t|e]; [|discriminate].
  cbn [bind]. intros [= <-]. apply List.Forall_forall. intros r Hr.
  apply in_map_iff in Hr as (it & <- & Hin). apply list_elem_of_In in Hin.
  apply elem_of_lookup_imap_1 in Hin as (i & m & -> & Hm).
  destruct (chain_lookup _ _ _ _ _ _ (finditer_chain item_re t) Hm)
    as (_ & H1 & H2 & M & _).
  destruct (item_match_header t m ltac:(lia) M) as [_ H].
  destruct H as (w1 & w2 & w3 & w4 & w5 & w6 & _ & _ & _ & _ & _ & _ & _ & _
                 & Hup & _ & _ & Htot).
  cbn [row_of UnitPrice TotalSales item_of unit_price total].
  split; [by apply float_of_decimal|].
  by apply float_of_decimal, (decimal_frac_decimal 2).
Qed.

Lemma X4_prices_always_parse_witness :
  exists rows,
    build_rows_for_pdf magfoot_pdf (str "a.pdf") None [] [] = Ok rows
    /\ Forall (fun r => is_Some (UnitPrice r) /\ is_Some (TotalSales r)) rows.
Proof.
  eexists. split; [vm_compute; reflexivity|].
  apply (X4_prices_always_parse magfoot_pdf (str "a.pdf") None [] []).
  vm_compute. reflexivity.
Defined.

(** ** Shapes of the header values *)

Lemma Forall_lstrip (P : ascii -> Prop) (s : text) :
  Forall P s -> Forall P (lstrip s).
Proof.
  induction 1 as [|c s Hc Hs IH]; simpl; [constructor|].
  destruct (is_space c); [done | by constructor].
Qed.

Lemma Forall_strip (P : ascii -> Prop) (s : text) :
  Forall P s -> Forall P (strip s).
Proof.
  intros H. unfold strip, rstrip.
  by apply Forall_rev, Forall_lstrip, Forall_rev, Forall_lstrip.
Qed.

(** What [re.search] returns, as a stretch of the text and the texts
    of its groups. *)
Lemma search_stretch r (t : text) m :
  search r t = Some m ->
  exists pre w post,
    t = pre ++ w ++ post
    /\ denotes r pre w [] (cap_texts t (m_caps m)).
Proof.
  intros E. destruct (search_sound _ _ _ E) as (L1 & L2 & D).
  exists (take (m_start m) t), (slice t (m_start m) (m_end m)),
    (drop (m_end m) t).
  split; [by apply text_split3 | done].
Qed.

Lemma date_parts (m d y : text) :
  1 <= length m -> length m <= 2 -> all_in cls_digit m ->
  1 <= length d -> length d <= 2 -> all_in cls_digit d ->
  4 <= length y -> length y <= 4 -> all_in cls_digit y ->
  date_shape (m ++ str "/" ++ d ++ str "/" ++ y).
Proof.
  intros. exists m, d, y. unfold cls_digit in *.
  repeat split; try done; lia.
Qed.

Lemma quote_re_denotes pre w gs :
  denotes quote_re pre w [] gs ->
  exists n d ws1 ws2 ws3,
    w = str "Quote" ++ ws1 ++ n ++ ws2 ++ str "Date" ++ ws3 ++ d
    /\ gs = [(2, d); (1, n)]
    /\ integer n /\ date_shape d
    /\ whitespace ws1 /\ whitespace ws2 /\ whitespace ws3.
Proof.
  unfold quote_re, date_re, plus, between, exactly. intros D. break_denotes.
  repeat match goal with H : within (Some _) _ |- _ => simpl in H end.
  do 5 eexists. split; [reflexivity|]. split; [reflexivity|].
  unfold integer, whitespace, cls_ws, cls_digit in *.
  split; [by apply some_of_intro|]. split; [by apply date_parts|].
  split; [|split]; by apply some_of_intro.
Qed.

Lemma valid_re_denotes pre w gs :
  denotes valid_re pre w [] gs ->
  exists d ws,
    w = str "Quote Good Through" ++ ws ++ d
    /\ gs = [(1, d)] /\ date_shape d /\ whitespace ws.
Proof.
  unfold valid_re, date_re, plus, between, exactly. intros D. break_denotes.
  repeat match goal with H : within (Some _) _ |- _ => simpl in H end.
  do 2 eexists. split; [reflexivity|]. split; [reflexivity|].
  split; [by apply date_parts|].
  unfold whitespace, cls_ws in *. by apply some_of_intro.
Qed.

(** X5. QuoteNumber and QuoteDate are set together or not at all.
    When set they come from one stretch of the text that reads
    [Quote], white space, the number, white space, [Date], white
    space, the date; the number is a row of digits and the date reads
    M/D/YYYY with one or two digits for month and day and four for the
    year. *)
Theorem X5_quote_number_and_date (t : text) :
  let h := extract_header_info t in
  (hget h "QuoteNumber" = None <-> hget h "QuoteDate" = None)
  /\ (forall n, hget h "QuoteNumber" = Some n ->
        exists d pre ws1 ws2 ws3 post,
          hget h "QuoteDate" = Some d
          /\ t = pre ++ str "Quote" ++ ws1 ++ n ++ ws2 ++ str "Date" ++ ws3
                 ++ d ++ post
          /\ integer n /\ date_shape d
          /\ whitespace ws1 /\ whitespace ws2 /\ whitespace ws3).
Proof.
  intros h. subst h.
  pose proof (header_field t FQuoteNumber) as H1.
  pose proof (header_field t FQuoteDate) as H2.
  cbn [field_key] in H1, H2. rewrite H1, H2. clear H1 H2.
  unfold field_value. cbv zeta.
  destruct (search quote_re t) as [m|] eqn:E; [|done].
  split; [done|]. intros n [= <-].
  destruct (search_stretch _ _ _ E) as (pre & w & post & Ht & D).
  apply quote_re_denotes in D
    as (n & d & ws1 & ws2 & ws3 & -> & Hg & Hn & Hd & W1 & W2 & W3).
  exists d, pre, ws1, ws2, ws3, post.
  rewrite !group_str_lookup, Hg. cbn [text_lookup Nat.eqb default id].
  split; [done|]. split; [by rewrite Ht, <- !app_assoc|]. done.
Qed.

Lemma X5_quote_number_and_date_witness :
  hget (extract_header_info header_example) "QuoteNumber"
  = Some (str "120987")
  /\ integer (str "120987")
  /\ hget (extract_header_info header_example) "QuoteDate"
     = Some (str "11/24/2025").
Proof.
  assert (hget (extract_header_info header_example) "QuoteNumber"
          = Some (str "120987")) as H by (vm_compute; reflexivity).
  split; [exact H|].
  destruct (proj2 (X5_quote_number_and_date header_example) _ H)
    as (d & pre & ws1 & ws2 & ws3 & post & Hd & _ & Hn & _).
  split; [exact Hn|]. vm_compute. reflexivity.
Defined.

(** X10. QuoteValidDate, when set, is a date that reads M/D/YYYY and
    stands in the text right after [Quote Good Through] and white
    space; without that marker it is never set. *)
Theorem X10_valid_date (t : text) (d : text) :
  hget (extract_header_info t) "QuoteValidDate" = Some d ->
  date_shape d
  /\ exists pre ws post,
       t = pre ++ quote_good_through ++ ws ++ d ++ post /\ whitespace ws.
Proof.
  pose proof (header_field t FQuoteValidDate) as H1.
  cbn [field_key] in H1. rewrite H1. clear H1.
  unfold field_value. cbv zeta.
  destruct (search valid_re t) as [m|] eqn:E; [|done]. intros [= <-].
  destruct (search_stretch _ _ _ E) as (pre & w & post & Ht & D).
  apply valid_re_denotes in D as (d & ws & -> & Hg & Hd & W).
  rewrite group_str_lookup, Hg. cbn [text_lookup Nat.eqb default id].
  split; [done|]. exists pre, ws, post.
  split; [by rewrite Ht, <- !app_assoc | done].
Qed.

Lemma X10_valid_date_witness :
  hget (extract_header_info route_quote) "QuoteValidDate"
  = Some (str "12/09/2025")
  /\ date_shape (str "12/09/2025").
Proof.
  assert (hget (extract_header_info route_quote) "QuoteValidDate"
          = Some (str "12/09/2025")) as H by (vm_compute; reflexivity).
  split; [exact H|]. exact (proj1 (X10_valid_date route_quote _ H)).
Defined.

Lemma city_re_denotes pre w gs :
  denotes city_re pre w [] gs ->
  exists c s z,
    gs = [(3, z); (2, s); (1, c)] /\ some_of cls_city c
    /\ length s = 2 /\ all_in is_upper s
    /\ length z = 5 /\ all_in is_digit z.
Proof.
  unfold city_re, plus, star, exactly. intros D. break_denotes.
  match goal with
  | H : denotes (Opt _) _ _ _ _ |- _ =>
      destruct H as [[-> ->] | H]; [|break_denotes]
  end;
    repeat match goal with H : within (Some _) _ |- _ => simpl in H end;
    unfold cls_upper, cls_digit in *;
    (do 3 eexists; split; [reflexivity|]; split; [by apply some_of_intro|];
     repeat split; try done; lia).
Qed.

Lemma company_re_denotes pre w gs :
  denotes company_re pre w [] gs ->
  exists g ws0 ws1,
    w = quoted_for ++ ws0 ++ g ++ ws1 ++ str "Ship To:"
    /\ gs = [(1, g)] /\ some_of cls_dot g
    /\ opt_whitespace ws0 /\ whitespace ws1.
Proof.
  unfold company_re, plus, plus_lazy, star. intros D. break_denotes.
  do 3 eexists. split; [reflexivity|]. split; [reflexivity|].
  unfold whitespace, opt_whitespace, cls_ws in *.
  split; [by apply some_of_intro|]. split; [done | by apply some_of_intro].
Qed.

(** X9. City, State and ZipCode are set together or not at all.  When
    set, State is exactly two uppercase letters and ZipCode exactly
    five digits, so a four-digit extension of the zip code is never
    kept, and City is trimmed and made of letters, blanks and dots. *)
Theorem X9_city_state_zip (t : text) :
  let h := extract_header_info t in
  (hget h "City" = None <-> hget h "State" = None)
  /\ (hget h "State" = None <-> hget h "ZipCode" = None)
  /\ (forall s, hget h "State" = Some s -> length s = 2 /\ all_in is_upper s)
  /\ (forall z, hget h "ZipCode" = Some z ->
        length z = 5 /\ all_in is_digit z)
  /\ (forall c, hget h "City" = Some c ->
        all_in cls_city c /\ clean_start c /\ clean_end c).
Proof.
  intros h. subst h.
  pose proof (header_field t FCity) as H1.
  pose proof (header_field t FState) as H2.
  pose proof (header_field t FZipCode) as H3.
  cbn [field_key] in H1, H2, H3. rewrite H1, H2, H3. clear H1 H2 H3.
  unfold field_value. cbv zeta.
  destruct (scoped t); [|by repeat split].
  destruct (search city_re (addr_block t)) as [m|] eqn:E; [|by repeat split].
  destruct (search_stretch _ _ _ E) as (pre & w & post & Ht & D).
  apply city_re_denotes in D as (c & s & z & Hg & Hc & Hs1 & Hs2 & Hz1 & Hz2).
  rewrite !group_str_lookup, Hg. cbn [text_lookup Nat.eqb default id].
  split; [done|]. split; [done|].
  split; [by intros ? [= <-]|]. split; [by intros ? [= <-]|].
  intros ? [= <-]. destruct (strip_clean c) as [S1 S2].
  split; [|done]. apply Forall_strip. by destruct Hc.
Qed.

Lemma X9_city_state_zip_witness :
  hget (extract_header_info route_quote) "ZipCode" = Some (str "44306")
  /\ length (str "44306") = 5 /\ all_in is_digit (str "44306").
Proof.
  assert (hget (extract_header_info route_quote) "ZipCode"
          = Some (str "44306")) as H by (vm_compute; reflexivity).
  split; [exact H|].
  exact (proj1 (proj2 (proj2 (proj2 (X9_city_state_zip route_quote)))) _ H).
Defined.

(** X20. Company, when set, is the trimmed text that stands in the
    scoped block between [Quoted For:] and white space followed by
    [Ship To:]; it never holds a newline, so a name that runs over two
    lines is not taken. *)
Theorem X20_company_one_line (t : text) (c : text) :
  hget (extract_header_info t) "Company" = Some c ->
  ~ In "010"%char c /\ clean_start c /\ clean_end c
  /\ exists g pre ws0 ws1 post,
       c = strip g
       /\ addr_block t = pre ++ quoted_for ++ ws0 ++ g ++ ws1
                         ++ str "Ship To:" ++ post
       /\ opt_whitespace ws0 /\ whitespace ws1.
Proof.
  pose proof (header_field t FCompany) as H1.
  cbn [field_key] in H1. rewrite H1. clear H1.
  unfold field_value. cbv zeta.
  destruct (scoped t); [|done].
  destruct (search company_re (addr_block t)) as [m|] eqn:E; [|done].
  intros [= <-].
  destruct (search_stretch _ _ _ E) as (pre & w & post & Ht & D).
  apply company_re_denotes in D as (g & ws0 & ws1 & -> & Hg & [_ Hd] & W0 & W1).
  rewrite group_str_lookup, Hg. cbn [text_lookup Nat.eqb default id].
  destruct (strip_clean g) as [S1 S2].
  split; [|split; [done|split; [done|]]].
  - intros Hin. pose proof (Forall_strip _ _ Hd) as Hf.
    rewrite List.Forall_forall in Hf. specialize (Hf _ Hin). discriminate.
  - exists g, pre, ws0, ws1, post. split; [done|].
    split; [by rewrite Ht, <- !app_assoc | done].
Qed.

Lemma X20_company_one_line_witness :
  hget (extract_header_info route_quote) "Company" = Some (str "ACME")
  /\ ~ In "010"%char (str "ACME").
Proof.
  assert (hget (extract_header_info route_quote) "Company"
          = Some (str "ACME")) as H by (vm_compute; reflexivity).
  split; [exact H|]. exact (proj1 (X20_company_one_line route_quote _ H)).
Defined.

(** ** The scope of the address fields *)

(** X8. The six address fields depend on the text only through the
    scoped block: two texts in which both markers occur and which have
    the same block get the same Company, Address, City, State, ZipCode
    and Country, whatever stands before [Quoted For:] or from [Quote
    Good Through] on. *)
Theorem X8_block_fields_scoped (t1 t2 : text) (f : field) :
  scoped t1 = true -> scoped t2 = true ->
  addr_block t1 = addr_block t2 ->
  In f block_fields ->
  extract_header_info t1 !! field_key f = extract_header_info t2 !! field_key f.
Proof.
  intros S1 S2 Hb Hf. rewrite !header_lookup. unfold entry, field_value.
  cbv zeta. rewrite S1, S2, Hb.
  simpl in Hf. by repeat destruct Hf as [<- | Hf].
Qed.

Lemma X8_block_fields_scoped_witness :
  scoped block_quote_a = true /\ scoped block_quote_b = true
  /\ addr_block block_quote_a = addr_block block_quote_b
  /\ In FZipCode block_fields
  /\ extract_header_info block_quote_a !! "ZipCode"
     = extract_header_info block_quote_b !! "ZipCode"
  /\ extract_header_info block_quote_a !! "ZipCode"
     = Some (Some (str "44306")).
Proof.
  assert (scoped block_quote_a = true) as H1 by (vm_compute; reflexivity).
  assert (scoped block_quote_b = true) as H2 by (vm_compute; reflexivity).
  assert (addr_block block_quote_a = addr_block block_quote_b) as H3
    by (vm_compute; reflexivity).
  assert (In FZipCode block_fields) as H4 by (simpl; tauto).
  split; [exact H1|]. split; [exact H2|]. split; [exact H3|].
  split; [exact H4|].
  split; [exact (X8_block_fields_scoped _ _ FZipCode H1 H2 H3 H4)|].
  vm_compute. reflexivity.
Defined.

(** X12. When one of the two markers does not occur in the text, none
    of the six address fields is in the dictionary, even when the text
    holds a company line, an address pair or a city line. *)
Theorem X12_no_marker_no_block_field (t : text) (f : field) :
  contains quoted_for t = false \/ contains quote_good_through t = false ->
  In f block_fields ->
  extract_header_info t !! field_key f = None.
Proof.
  intros Hm Hf. rewrite header_lookup. unfold entry, field_value. cbv zeta.
  assert (scoped t = false) as ->.
  { unfold scoped. destruct Hm as [-> | ->]; [done | apply andb_false_r]. }
  simpl in Hf. by repeat destruct Hf as [<- | Hf].
Qed.

Lemma X12_no_marker_no_block_field_witness :
  (contains quoted_for block_unmarked = false
   \/ contains quote_good_through block_unmarked = false)
  /\ In FAddress block_fields
  /\ found addr_re block_unmarked = true
  /\ extract_header_info block_unmarked !! "Address" = None.
Proof.
  assert (contains quoted_for block_unmarked = false
          \/ contains quote_good_through block_unmarked = false) as H1
    by (left; vm_compute; reflexivity).
  assert (In FAddress block_fields) as H2 by (simpl; tauto).
  split; [exact H1|]. split; [exact H2|].
  split; [vm_compute; reflexivity|].
  exact (X12_no_marker_no_block_field _ FAddress H1 H2).
Defined.

(** ** The keys of the dictionary *)

(** X11. The dictionary never has a key other than the twelve field
    names; FirstName and LastName are always among its keys; and
    Country, when set, is [USA] and nothing else. *)
Theorem X11_header_keys (t : text) :
  let h := extract_header_info t in
  (forall k, is_Some (h !! k) -> exists f, k = field_key f)
  /\ is_Some (h !! "FirstName") /\ is_Some (h !! "LastName")
  /\ (forall v, h !! "Country" = Some v -> v = Some (str "USA")).
Proof.
  intros h. subst h. split; [|split; [|split]].
  - intros k Hk.
    destruct (decide ("QuoteNumber" = k)) as [<-|N1]; [by exists FQuoteNumber|].
    destruct (decide ("QuoteDate" = k)) as [<-|N2]; [by exists FQuoteDate|].
    destruct (decide ("CustomerNumber" = k)) as [<-|N3];
      [by exists FCustomerNumber|].
    destruct (decide ("FirstName" = k)) as [<-|N4]; [by exists FFirstName|].
    destruct (decide ("LastName" = k)) as [<-|N5]; [by exists FLastName|].
    destruct (decide ("Company" = k)) as [<-|N6]; [by exists FCompany|].
    destruct (decide ("Address" = k)) as [<-|N7]; [by exists FAddress|].
    destruct (decide ("City" = k)) as [<-|N8]; [by exists FCity|].
    destruct (decide ("State" = k)) as [<-|N9]; [by exists FState|].
    destruct (decide ("ZipCode" = k)) as [<-|N10]; [by exists FZipCode|].
    destruct (decide ("Country" = k)) as [<-|N11]; [by exists FCountry|].
    destruct (decide ("QuoteValidDate" = k)) as [<-|N12];
      [by exists FQuoteValidDate|].
    exfalso. revert Hk. unfold extract_header_info. cbv zeta.
    destruct (contains quoted_for t && contains quote_good_through t);
      skip_stages; rewrite lookup_empty; by intros [? ?].
  - change "FirstName" with (field_key FFirstName).
    rewrite header_lookup. by eexists.
  - change "LastName" with (field_key FLastName).
    rewrite header_lookup. by eexists.
  - pose proof (header_lookup t FCountry) as H. cbn [field_key] in H.
    rewrite H. unfold entry, field_value. cbv zeta.
    destruct (scoped t && contains usa_long (addr_block t)); [|done].
    by intros v [= <-].
Qed.

Lemma X11_header_keys_witness :
  is_Some (extract_header_info header_example !! "QuoteNumber")
  /\ exists f, "QuoteNumber" = field_key f.
Proof.
  assert (is_Some (extract_header_info header_example !! "QuoteNumber"))
    as H by (vm_compute; eauto).
  split; [exact H|].
  exact (proj1 (X11_header_keys header_example) _ H).
Defined.

(** ** Rows of one document *)

(** X13. The rows of one document differ only in the four item
    columns: on every other column (the run-level values, the header
    fields, the file name and the five reserved columns) any two rows
    agree, and the reserved columns ContactEmail, ContactPhone, County,
    manufacturer_Name and DemoQuote hold [None] in every row. *)
Theorem X13_rows_share_document_columns (pdf_bytes : pdf) (filename : text)
    (rm : option text) (re br : text) (rows : list row) :
  build_rows_for_pdf pdf_bytes filename rm re br = Ok rows ->
  (forall r1 r2 k, In r1 rows -> In r2 rows -> ~ In k item_columns ->
     dict_get (to_dict r1) k = dict_get (to_dict r2) k)
  /\ (forall r k, In r rows ->
        In k ["ContactEmail"; "ContactPhone"; "County"; "manufacturer_Name";
              "DemoQuote"] ->
        dict_get (to_dict r) k = Some CNone).
Proof.
  unfold build_rows_for_pdf.
  destruct (extract_full_text pdf_bytes) as [t|e]; [|discriminate].
  cbn [bind]. intros [= <-]. split.
  - intros r1 r2 k H1 H2 Hk.
    apply in_map_iff in H1 as (it1 & <- & _).
    apply in_map_iff in H2 as (it2 & <- & _).
    unfold to_dict. cbn -[String.eqb].
    repeat match goal with
      | |- context [String.eqb ?a k] =>
          destruct (String.eqb_spec a k) as [<- | ?];
            [first [reflexivity | exfalso; apply Hk; simpl; tauto]|]
      end.
    reflexivity.
  - intros r k H1 Hk. apply in_map_iff in H1 as (it & <- & _).
    simpl in Hk. by repeat destruct Hk as [<- | Hk].
Qed.

Lemma X13_rows_share_document_columns_witness :
  exists rows,
    build_rows_for_pdf (Ok [Ok (Some two_items)]) (str "q.pdf") None [] []
    = Ok rows
    /\ length rows = 2
    /\ forall r1 r2 k, In r1 rows -> In r2 rows -> ~ In k item_columns ->
         dict_get (to_dict r1) k = dict_get (to_dict r2) k.
Proof.
  eexists. split; [vm_compute; reflexivity|]. split; [reflexivity|].
  apply (X13_rows_share_document_columns (Ok [Ok (Some two_items)])
           (str "q.pdf") None [] []).
  vm_compute. reflexivity.
Defined.

(** ** Counting in a batch *)

Lemma length_warnings_of rm re br f :
  length (warnings_of rm re br f) = if raises rm re br f then 1 else 0.
Proof.
  unfold warnings_of, raises.
  by destruct (build_rows_for_pdf (content f) (name f) rm re br).
Qed.

(** X14. After the loop there is exactly one warning for every file
    that raised and none for the others, and the rows gathered are as
    many as the files that did not raise yielded, so warnings and
    processed files together are all the files. *)
Theorem X14_batch_counts (rm : option text) (re br : text)
    (files : list upload) :
  let st := process_batch rm re br files in
  length (warnings st) = length (List.filter (raises rm re br) files)
  /\ length (warnings st)
     + length (List.filter (fun f => negb (raises rm re br f)) files)
     = length files
  /\ length (all_rows st)
     = list_sum (map (fun f => length (rows_of rm re br f)) files).
Proof.
  intros st. subst st. rewrite batch_rows, batch_warnings.
  induction files as [|f files (IH1 & IH2 & IH3)]; [done|].
  cbn [map concat List.filter list_sum]. rewrite !length_app.
  rewrite length_warnings_of, IH1, IH3.
  rewrite IH1 in IH2.
  destruct (raises rm re br f); simpl; lia.
Qed.

(** ** The export *)

(** X16. Every row dictionary has exactly the 25 target columns as its
    keys, in the order of the export, and no column is named twice; so
    the data frame built from any list of rows has one line per row
    and in each line a cell for every column, none missing. *)
Theorem X16_frame_complete (rows : list row) :
  (forall r, map fst (to_dict r) = TARGET_COLUMNS)
  /\ NoDup TARGET_COLUMNS
  /\ length (DataFrame rows TARGET_COLUMNS) = length rows
  /\ Forall (fun line => length line = 25 /\ Forall is_Some line)
       (DataFrame rows TARGET_COLUMNS).
Proof.
  split; [done|]. split.
  { apply (bool_decide_unpack _). vm_compute. exact I. }
  split; [apply length_map|].
  apply List.Forall_forall. intros line Hl.
  apply in_map_iff in Hl as (r & <- & _).
  split; [done|]. unfold to_dict, TARGET_COLUMNS. cbn.
  repeat (constructor; [by eexists|]). constructor.
Qed.

(** ** What the page shows *)

Lemma filter_warning_round rm re br n idx f :
  List.filter is_warning (round_events rm re br n idx f)
  = map Warning (warnings_of rm re br f).
Proof.
  unfold round_events, warnings_of.
  by destruct (build_rows_for_pdf (content f) (name f) rm re br).
Qed.

Lemma filter_warning_rounds rm re br n (files : list upload) : forall k,
  List.filter is_warning
    (concat (imap (fun i f => round_events rm re br n (S (k + i)) f) files))
  = map Warning (concat (map (warnings_of rm re br) files)).
Proof.
  induction files as [|f files IH]; intros k; [done|].
  cbn [imap concat map]. rewrite List.filter_app, filter_warning_round.
  rewrite map_app. f_equal.
  rewrite <- (IH (S k)). f_equal. f_equal. apply imap_ext.
  intros i x _. simpl. f_equal. lia.
Qed.

Lemma concat_nil_Forall {A} (ls : list (list A)) :
  concat ls = [] <-> Forall (fun l => l = []) ls.
Proof.
  induction ls as [|l ls IH]; simpl; [by split; [constructor|]|].
  split.
  - intros H. apply app_eq_nil in H as [-> H]. constructor; [done|].
    by apply IH.
  - intros H. inversion H; subst. simpl. by apply IH.
Qed.

(** The rounds of the loop show a status, a warning or the progress,
    never a download. *)
Lemma rounds_no_download rm re br n (files : list upload) df :
  ~ In (Download df)
      (concat (imap (fun i f => round_events rm re br n (S i) f) files)).
Proof.
  intros Hin. apply in_concat in Hin as (evs & H1 & H2).
  apply list_elem_of_In, elem_of_lookup_imap_1 in H1 as (i & f & -> & _).
  unfold round_events in H2. destruct H2 as [H2 | H2]; [done|].
  apply in_app_iff in H2 as [H2 | H2].
  - destruct (build_rows_for_pdf _ _ _ _ _); [done|].
    by destruct H2 as [H2 | []].
  - by destruct H2 as [H2 | []].
Qed.

(** X15. For a batch of 1 to 100 files: the warnings shown are exactly
    those of the files that raised, in upload order.  When no file
    yields a row (each raised or had no line item) the page ends with
    the error [No line items were found] and offers no download.
    Otherwise it reports all uploaded files as parsed, also those that
    raised, and previews at most 50 rows; then it offers every
    gathered row for download when the workbook is written, and ends
    with the writer's exception, without download, when that
    raises. *)
Theorem X15_page_outcome (to_excel : excel_writer) (rm : option text)
    (re br : text) (files : list upload) :
  1 <= length files <= 100 ->
  let rows := concat (map (rows_of rm re br) files) in
  let df := DataFrame rows TARGET_COLUMNS in
  let shown := script true to_excel rm re br files in
  List.filter is_warning shown
  = map Warning (concat (map (warnings_of rm re br) files))
  /\ (Forall (fun f => rows_of rm re br f = []) files ->
      last shown
      = Some (Error (str "No line items were found in the uploaded PDFs."))
      /\ forall d, ~ In (Download d) shown)
  /\ (~ Forall (fun f => rows_of rm re br f = []) files ->
      (exists evs,
         shown
         = evs ++ [ Success (length files) (length rows);
                    Preview (take 50 df) ]
               ++ match to_excel df with
                  | Ok _ => [Download df]
                  | Raise e => [Uncaught e]
                  end)
      /\ length (take 50 df) = Nat.min 50 (length rows)
      /\ (forall e, to_excel df = Raise e ->
            last shown = Some (Uncaught e)
            /\ forall d, ~ In (Download d) shown)).
Proof.
  intros Hn rows df shown. subst rows df shown. unfold script.
  destruct files as [|f0 files0] eqn:Ef; [simpl in Hn; lia|]. rewrite <- Ef.
  assert (length files <= 100) as Hle by (rewrite Ef; lia).
  destruct (Nat.ltb_spec 100 (length files)) as [?|_]; [lia|].
  cbv zeta. rewrite batch_rows. clear Ef Hn Hle.
  set (rounds := concat (imap _ files)).
  assert (List.filter is_warning rounds
          = map Warning (concat (map (warnings_of rm re br) files))) as Hw
    by apply (filter_warning_rounds rm re br (length files) files 0).
  assert (forall d, ~ In (Download d) rounds) as Hnd
    by apply rounds_no_download.
  split; [|split].
  - cbn [List.filter is_warning]. rewrite List.filter_app, Hw.
    unfold after_loop.
    destruct (concat (map (rows_of rm re br) files));
      [by rewrite app_nil_r|].
    cbv zeta. destruct (to_excel _); by rewrite app_nil_r.
  - intros Hall.
    assert (concat (map (rows_of rm re br) files) = []) as ->
      by (by apply concat_nil_Forall, List.Forall_map).
    unfold after_loop. split.
    + rewrite app_comm_cons. by rewrite last_snoc.
    + intros d [H | H]; [done|].
      apply in_app_iff in H as [H | H]; [by apply (Hnd d)|].
      by destruct H as [H | []].
  - intros Hsome.
    destruct (concat (map (rows_of rm re br) files)) as [|r rs] eqn:Er.
    { exfalso. apply Hsome. apply concat_nil_Forall in Er.
      by apply List.Forall_map in Er. }
    unfold after_loop. cbv zeta. split; [|split].
    + exists (Progress 0 1 :: rounds). unfold DataFrame.
      by rewrite !length_map.
    + unfold DataFrame. rewrite length_take, !length_map. done.
    + intros e He. rewrite He. split.
      * rewrite app_comm_cons, app_assoc. by rewrite last_snoc.
      * intros d [H | H]; [done|].
        apply in_app_iff in H as [H | H]; [by apply (Hnd d)|].
        destruct H as [H | [H | [H | []]]]; done.
Qed.

Lemma X15_page_outcome_witness :
  1 <= length batch_of_three <= 100
  /\ List.filter is_warning
       (script true strict_writer None [] [] batch_of_three)
     = [Warning (str "Error processing b.pdf: No /Root object! - Is this really a PDF?")].
Proof.
  assert (1 <= length batch_of_three <= 100) as H by (simpl; lia).
  split; [exact H|].
  rewrite (proj1 (X15_page_outcome strict_writer None [] [] batch_of_three
                    H)).
  vm_compute. reflexivity.
Defined.

(** ** Header lines are found *)

(** X17. A text that holds, at the start of a line, a stretch that
    reads as a line-item header yields at least one item: no text with
    a well-formed header line comes out empty. *)
Theorem X17_header_line_found (t pre seg post ln id q up tot : text) :
  t = pre ++ seg ++ post -> line_start pre ->
  item_header ln id q up tot seg ->
  exists it rest, extract_line_items t = it :: rest.
Proof.
  intros -> L H.
  destruct (item_re_denotes_rev _ _ _ _ _ _ _ L H) as [gs D].
  destruct (denotes_matches _ _ _ _ _ D post []) as [cs M].
  assert (length pre <= length (pre ++ seg ++ post)) as Hpre
    by (rewrite length_app; lia).
  destruct (search_leftmost item_re _ _ _ _ Hpre M) as (m & E & _).
  unfold extract_line_items, finditer.
  replace (2 * length (pre ++ seg ++ post) + 2)
    with (S (2 * length (pre ++ seg ++ post) + 1)) by lia.
  cbn [finditer_loop]. unfold search in E. rewrite E.
  cbn [imap]. eauto.
Qed.

Lemma some_of_dec c (w : text) :
  (match w with [] => false | _ => forallb c w end) = true -> some_of c w.
Proof.
  assert (forall l : text, forallb c l = true -> all_in c l) as F.
  { induction l as [|x l IH]; cbn; [constructor|].
    intros [? ?]%andb_prop. constructor; [done|]. by apply IH. }
  destruct w as [|a w]; [discriminate|]. intros H. split; [done|].
  by apply F.
Qed.

Lemma magfoot_header :
  item_header (str "1") (str "HW.MAGFOOT-170") (str "27") (str "3,600.00000")
    (str "97,200.00") magfoot_line.
Proof.
  exists (str " "), (str " "), (str " "), (str " "), [], (str " ").
  split; [reflexivity|].
  repeat (split; [by apply some_of_dec|]).
  split; [exists (str "3,600"), (str "00000");
          split; [reflexivity|]; split; by apply some_of_dec|].
  split; [constructor|].
  split; [by apply some_of_dec|].
  exists (str "97,200"), (str "00"). split; [reflexivity|].
  split; [by apply some_of_dec|]. split; [by apply some_of_dec|reflexivity].
Qed.

Lemma X17_header_line_found_witness :
  exists it rest, extract_line_items magfoot_line = it :: rest.
Proof.
  apply (X17_header_line_found magfoot_line [] magfoot_line [] (str "1")
           (str "HW.MAGFOOT-170") (str "27") (str "3,600.00000")
           (str "97,200.00")).
  - reflexivity.
  - by left.
  - exact magfoot_header.
Defined.

(** ** A greedy tail takes all it can *)

Lemma run_length_stop c (s : text) a :
  s !! run_length c s = Some a -> c a = false.
Proof.
  induction s as [|b s IH]; simpl; [done|].
  destruct (c b) eqn:E; simpl; [done|]. by intros [= <-].
Qed.

Lemma try_down_total {R} (f : nat -> option R) lo n x :
  (forall d, f d <> None) -> try_down f lo n = Some x -> f n = Some x.
Proof.
  intros T. destruct n as [|n]; simpl.
  - destruct (0 <? lo); [done|]. by destruct (f 0).
  - destruct (S n <? lo); [done|].
    destruct (f (S n)) eqn:E; [done|]. by destruct (T (S n)).
Qed.

Lemma run_greedy_end {R} (t : text) c (r : regex) :
  ends_greedy c r ->
  forall i cs (k : nat -> caps -> option R) x,
    (forall j cs', k j cs' <> None) ->
    run t r i cs k = Some x ->
    exists j cs', k j cs' = Some x
      /\ forall a, t !! j = Some a -> c a = false.
Proof.
  induction r as [s| |g lo hi c'|r1 IH1 r2 IH2|n r1 IH1|r1 IH1];
    simpl; try done.
  - destruct g; [|done]. destruct hi; [done|]. intros -> i cs k x T H.
    apply try_down_total in H; [|by intros d; apply T].
    simpl in H. exists (i + run_length c (drop i t)), cs. split; [done|].
    intros a Ha. apply (run_length_stop c (drop i t)).
    by rewrite lookup_drop.
  - intros G i cs k x T H.
    apply run_sound in H as (m & cm & _ & H). by apply (IH2 G m cm k).
  - intros G i cs k x T H.
    destruct (IH1 G i cs (fun j cs' => k j ((n, (i, j)) :: cs')) x
                ltac:(intros; apply T) H) as (j & cs' & Hk & Ha).
    eauto.
Qed.

Lemma search_loop_match_at r t : forall fuel i m,
  search_loop r t false i fuel = Some m ->
  match_at r t false (m_start m) = Some m.
Proof.
  induction fuel as [|fuel IH]; simpl; intros i m;
    destruct (match_at r t false i) eqn:E; try discriminate.
  - intros [= <-]. by rewrite (proj1 (match_at_some _ _ _ _ _ E)).
  - intros [= <-]. by rewrite (proj1 (match_at_some _ _ _ _ _ E)).
  - apply IH.
Qed.

(** The match [re.search] returns for a pattern with a greedy tail
    ends where the run of the tail's class ends. *)
Lemma search_greedy_end c r (t : text) m :
  ends_greedy c r -> search r t = Some m ->
  forall a, t !! m_end m = Some a -> c a = false.
Proof.
  intros G E. unfold search, search_from in E.
  destruct (length t <? 0); [discriminate|].
  apply search_loop_match_at in E. unfold match_at in E.
  apply (run_greedy_end t c r G) in E as (j & cs' & Hk & Ha).
  - unfold accept in Hk. simpl in Hk. injection Hk as <-. exact Ha.
  - intros j cs'. by unfold accept.
Qed.

Lemma customer_re_denotes pre w gs :
  denotes customer_re pre w [] gs ->
  exists n ws,
    w = str "Customer" ++ ws ++ n /\ gs = [(1, n)]
    /\ integer n /\ whitespace ws.
Proof.
  unfold customer_re, plus. intros D. break_denotes.
  do 2 eexists. split; [reflexivity|]. split; [reflexivity|].
  unfold integer, whitespace, cls_ws, cls_digit in *.
  split; by apply some_of_intro.
Qed.

(** X6. CustomerNumber, when set, is the whole number that stands in
    the text after [Customer] and white space: a row of digits, not
    empty, and what follows it in the text does not go on with a
    digit. *)
Theorem X6_customer_number_whole (t : text) (n : text) :
  hget (extract_header_info t) "CustomerNumber" = Some n ->
  exists pre ws post,
    t = pre ++ str "Customer" ++ ws ++ n ++ post
    /\ whitespace ws /\ integer n /\ no_digit_next post.
Proof.
  pose proof (header_field t FCustomerNumber) as H1.
  cbn [field_key] in H1. rewrite H1. clear H1.
  unfold field_value. cbv zeta.
  destruct (search customer_re t) as [m|] eqn:E; [|done]. intros [= <-].
  destruct (search_sound _ _ _ E) as (L1 & L2 & D).
  apply customer_re_denotes in D as (n & ws & Hw & Hg & Hn & W).
  rewrite group_str_lookup, Hg. cbn [text_lookup Nat.eqb default id].
  exists (take (m_start m) t), ws, (drop (m_end m) t).
  split.
  { rewrite (text_split3 t (m_start m) (m_end m)) at 1 by done.
    by rewrite Hw, <- !app_assoc. }
  split; [done|]. split; [done|].
  intros c u Hc. apply (search_greedy_end is_digit customer_re t m).
  - simpl. done.
  - done.
  - rewrite <- (Nat.add_0_r (m_end m)), <- lookup_drop, Hc. done.
Qed.

Lemma X6_customer_number_whole_witness :
  hget (extract_header_info header_example) "CustomerNumber"
  = Some (str "100725")
  /\ exists pre ws post,
       header_example = pre ++ str "Customer" ++ ws ++ str "100725" ++ post
       /\ whitespace ws /\ integer (str "100725") /\ no_digit_next post.
Proof.
  assert (hget (extract_header_info header_example) "CustomerNumber"
          = Some (str "100725")) as H by (vm_compute; reflexivity).
  split; [exact H|]. exact (X6_customer_number_whole header_example _ H).
Defined.

(** X19. The page offers a download exactly when the button was
    pressed, between 1 and 100 files were uploaded, at least one of
    them yields a row and the writing of the workbook does not raise:
    never without the button, never for an empty or oversized upload,
    never when every file raised or had no line item, never when the
    writer raised. *)
Theorem X19_download_iff (process : bool) (to_excel : excel_writer)
    (rm : option text) (re br : text) (files : list upload) :
  let rows := concat (map (rows_of rm re br) files) in
  (exists d, In (Download d) (script process to_excel rm re br files))
  <-> process = true /\ 1 <= length files <= 100
      /\ (exists f, In f files /\ rows_of rm re br f <> [])
      /\ exists u, to_excel (DataFrame rows TARGET_COLUMNS) = Ok u.
Proof.
  intros rows. subst rows. unfold script. split.
  - intros (d & H). destruct process; [|by destruct H as [H | []]].
    destruct files as [|f0 files0] eqn:Ef; [by destruct H as [H | []]|].
    rewrite <- Ef in *.
    destruct (Nat.ltb_spec 100 (length files)) as [?|Hle];
      [by destruct H as [H | []]|].
    split; [done|]. split; [rewrite Ef in *; simpl in *; lia|].
    cbv zeta in H. rewrite batch_rows in H.
    destruct H as [H | H]; [done|].
    apply in_app_iff in H as [H | H]; [by apply rounds_no_download in H|].
    unfold after_loop in H.
    destruct (concat (map (rows_of rm re br) files)) as [|r rs] eqn:Er;
      [by destruct H as [H | []]|].
    cbv zeta in H. split.
    + assert (In r (concat (map (rows_of rm re br) files))) as Hr
        by (rewrite Er; by left).
      apply in_concat in Hr as (l & H1 & H2).
      apply in_map_iff in H1 as (f & <- & Hf).
      exists f. split; [done|]. by destruct (rows_of rm re br f).
    + destruct (to_excel _) as [u|e]; [by exists u|].
      destruct H as [H | [H | [H | []]]]; done.
  - intros (-> & Hn & (f & Hf & Hrows) & (u & Hu)).
    destruct files as [|f0 files0] eqn:Ef; [simpl in Hn; lia|].
    rewrite <- Ef in *.
    destruct (Nat.ltb_spec 100 (length files)) as [?|_]; [lia|].
    cbv zeta. rewrite batch_rows.
    destruct (concat (map (rows_of rm re br) files)) as [|r rs] eqn:Er.
    + exfalso. apply Hrows. apply concat_nil_Forall in Er.
      apply List.Forall_map in Er.
      by apply (proj1 (List.Forall_forall _ _) Er f).
    + eexists. right. apply in_app_iff. right. unfold after_loop.
      cbv zeta. rewrite Hu. right. right. by left.
Qed.

Lemma X19_download_iff_witness :
  exists d,
    In (Download d) (script true strict_writer None [] [] batch_of_three).
Proof.
  apply (proj2 (X19_download_iff true strict_writer None [] []
                  batch_of_three)).
  split; [reflexivity|]. split; [simpl; lia|]. split.
  - eexists. split; [left; reflexivity|]. vm_compute. discriminate.
  - exists tt. vm_compute. reflexivity.
Defined.

(** With a writer that refuses control characters, as the one of
    openpyxl does, an upload whose description holds U+0002 is
    previewed and then ends the run with the writer's exception: no
    download is offered. *)
Lemma control_character_no_download :
  let shown :=
    script true strict_writer None [] [] [control_character_upload] in
  last shown = Some (Uncaught {| msg := str "IllegalCharacterError" |})
  /\ existsb (fun ev => match ev with Download _ => true | _ => false end)
       shown = false
  /\ existsb (fun ev => match ev with Preview _ => true | _ => false end)
       shown = true.
Proof. vm_compute. done. Qed.

(** X18. Every row gathered from a batch comes from one of the
    uploaded files, one that did not raise, and names that file in
    its PDF column; its run-level columns hold the values of the form,
    with [None] in place of an empty string, so none of them is ever
    an empty string. *)
Theorem X18_batch_rows_origin (rm : option text) (re br : text)
    (files : list upload) (r : row) :
  In r (all_rows (process_batch rm re br files)) ->
  (exists f, In f files /\ raises rm re br f = false /\ PDF r = name f)
  /\ ReferralManager r = or_none rm
  /\ ReferralEmail r = or_none (Some re)
  /\ Brand r = or_none (Some br)
  /\ ReferralManager r <> Some [] /\ ReferralEmail r <> Some []
  /\ Brand r <> Some [].
Proof.
  rewrite batch_rows. intros H. apply in_concat in H as (l & H1 & H2).
  apply in_map_iff in H1 as (f & <- & Hf).
  unfold rows_of in H2.
  destruct (build_rows_for_pdf (content f) (name f) rm re br) as [rows|e]
    eqn:E; [|done].
  assert (raises rm re br f = false) as Hr by (unfold raises; by rewrite E).
  unfold build_rows_for_pdf in E.
  destruct (extract_full_text (content f)) as [t|e]; [|discriminate].
  cbn [bind] in E. injection E as <-.
  apply in_map_iff in H2 as (it & <- & _). cbn.
  split; [by exists f|]. split; [done|]. split; [done|]. split; [done|].
  split; [by destruct rm as [[|]|]|].
  split; [by destruct re | by destruct br].
Qed.

Lemma X18_batch_rows_origin_witness :
  exists r, In r (all_rows (process_batch None [] [] batch_of_three))
    /\ PDF r = str "a.pdf" /\ ReferralEmail r = None.
Proof.
  eexists. split; [vm_compute; left; reflexivity|].
  split; [reflexivity|].
  refine (proj1 (proj2 (proj2
    (X18_batch_rows_origin None [] [] batch_of_three _ _)))).
  vm_compute. left. reflexivity.
Defined.

(** ** Printed fields are found *)

Lemma denotes_between lo hi c pre (w : text) gs :
  lo <= length w <= hi -> all_in c w ->
  denotes (between lo hi c) pre w gs gs.
Proof.
  intros H Hc. unfold between. cbn [denotes within].
  repeat split; done || lia.
Qed.

Lemma date_re_denotes_rev pre d gs :
  date_shape d -> denotes date_re pre d gs gs.
Proof.
  intros (m & dd & y & -> & Hm & Lm & Hd & Ld & Hy & Ly). unfold date_re.
  eapply denotes_seq; [by apply denotes_between|].
  eapply denotes_seq; [apply denotes_lit|].
  eapply denotes_seq; [by apply denotes_between|].
  eapply denotes_seq; [apply denotes_lit|].
  unfold exactly. cbn [denotes within]. repeat split; done || lia.
Qed.

(** Where a stretch of the text can be matched, [re.search] finds a
    match. *)
Lemma search_finds r (t pre w post : text) gs :
  t = pre ++ w ++ post -> denotes r pre w [] gs ->
  exists m, search r t = Some m.
Proof.
  intros -> D. destruct (denotes_matches _ _ _ _ _ D post []) as [cs M].
  assert (length pre <= length (pre ++ w ++ post)) as Hpre
    by (rewrite length_app; lia).
  destruct (search_leftmost r _ _ _ _ Hpre M) as (m & E & _). eauto.
Qed.

(** X21. A field that is printed in the text in its form is set: a
    stretch [Quote], white space, digits, white space, [Date], white
    space, M/D/YYYY anywhere in the text sets QuoteNumber and
    QuoteDate; [Customer], white space, digits sets CustomerNumber;
    [Quote Good Through], white space, M/D/YYYY sets
    QuoteValidDate. *)
Theorem X21_printed_fields_set (t : text) :
  let h := extract_header_info t in
  (forall pre ws1 n ws2 ws3 d post,
     t = pre ++ str "Quote" ++ ws1 ++ n ++ ws2 ++ str "Date" ++ ws3 ++ d
         ++ post ->
     whitespace ws1 -> integer n -> whitespace ws2 -> whitespace ws3 ->
     date_shape d ->
     is_Some (hget h "QuoteNumber") /\ is_Some (hget h "QuoteDate"))
  /\ (forall pre ws n post,
        t = pre ++ str "Customer" ++ ws ++ n ++ post ->
        whitespace ws -> integer n -> is_Some (hget h "CustomerNumber"))
  /\ (forall pre ws d post,
        t = pre ++ quote_good_through ++ ws ++ d ++ post ->
        whitespace ws -> date_shape d -> is_Some (hget h "QuoteValidDate")).
Proof.
  intros h. subst h.
  pose proof (header_field t FQuoteNumber) as H1.
  pose proof (header_field t FQuoteDate) as H2.
  pose proof (header_field t FCustomerNumber) as H3.
  pose proof (header_field t FQuoteValidDate) as H4.
  cbn [field_key] in H1, H2, H3, H4. rewrite H1, H2, H3, H4.
  clear H1 H2 H3 H4. unfold field_value. cbv zeta.
  split; [|split].
  - intros pre ws1 n ws2 ws3 d post Ht W1 Hn W2 W3 Hd.
    destruct (search_finds quote_re t pre
                (str "Quote" ++ ws1 ++ n ++ ws2 ++ str "Date" ++ ws3 ++ d)
                post [(2, d); (1, n)]) as [m ->].
    + by rewrite Ht, <- !app_assoc.
    + unfold quote_re.
      eapply denotes_seq; [apply denotes_lit|].
      eapply denotes_seq; [by apply denotes_plus|].
      eapply denotes_seq; [by apply denotes_grp, denotes_plus|].
      eapply denotes_seq; [by apply denotes_plus|].
      eapply denotes_seq; [apply denotes_lit|].
      eapply denotes_seq; [by apply denotes_plus|].
      by apply denotes_grp, date_re_denotes_rev.
    + split; by eexists.
  - intros pre ws n post Ht W Hn.
    destruct (search_finds customer_re t pre (str "Customer" ++ ws ++ n)
                post [(1, n)]) as [m ->].
    + by rewrite Ht, <- !app_assoc.
    + unfold customer_re.
      eapply denotes_seq; [apply denotes_lit|].
      eapply denotes_seq; [by apply denotes_plus|].
      by apply denotes_grp, denotes_plus.
    + by eexists.
  - intros pre ws d post Ht W Hd.
    destruct (search_finds valid_re t pre (quote_good_through ++ ws ++ d)
                post [(1, d)]) as [m ->].
    + by rewrite Ht, <- !app_assoc.
    + unfold valid_re.
      eapply denotes_seq; [apply denotes_lit|].
      eapply denotes_seq; [by apply denotes_plus|].
      by apply denotes_grp, date_re_denotes_rev.
    + by eexists.
Qed.

Lemma X21_printed_fields_set_witness :
  whitespace (str " ") /\ integer (str "100725")
  /\ is_Some (hget (extract_header_info header_example) "CustomerNumber").
Proof.
  assert (whitespace (str " ")) as W by (by apply some_of_dec).
  assert (integer (str "100725")) as N by (by apply some_of_dec).
  split; [exact W|]. split; [exact N|].
  apply (proj1 (proj2 (X21_printed_fields_set header_example))
           (str "Quote 120987 Date 11/24/2025
") (str " ") (str "100725") (str "
Contact Mike Shafer
")); [reflexivity | exact W | exact N].
Defined.

End ExtraFacts.
